(** * The Copilot bridge of fresh-copilot, [copilot_server.py]

    A shallow embedding of the bridge between the editor plugin (file based
    IPC) and the Copilot language server (JSON-RPC over stdio, framed with
    [Content-Length] headers), and the properties of it that the
    specification states.

    Conventions of the embedding.
    - Python [bytes] are [list byte]; the text of the command log is kept as
      its bytes as well (the log is taken to be ASCII text with [\n] line
      ends, so that what [read] returns is what the file holds and a
      character offset is a byte offset).
    - Python values that travel through the bridge (the results of
      [json.loads] and the dict literals of the source) are the type [json]:
      [None], booleans, integers, strings (of characters below 256), lists
      and dicts, a dict being the list of its items in insertion order with
      distinct keys.  Floating point numbers are left out of the value
      domain.
    - [json.dumps], [json.loads] and [str] belong to the Python library and
      are parameters of the development ([json_dumps], [json_loads],
      [py_str]) wherever a property holds for any of them; a reference
      codec, which prints the layout of Python's defaults and is proved to
      read back what it prints, instantiates them for the round trip through
      [lsp_send] and the reader and where the model is run on sample data.
    - The handlers mutate module level state and may raise: they are
      functions [bridge -> outcome A * bridge], the state being returned
      also when an exception leaves the handler.
    - Calls to [log.*] write a diagnostic file only and are not part of the
      state.  The two streams the bridge writes are taken to accept what is
      written: the handlers of [OSError] in [write_resp] and [lsp_send],
      which log and drop the data, are not modelled.

    The statements of the specification come first (C1 to C10).  They are
    followed by properties of the same code that the specification does not
    state (X1 onwards): the edges of the decoder (the spelling of the
    header, lengths that are negative or no numbers, messages that are not
    objects, the end of the stream), what the handlers write, the life of a
    request in the registry, the commands of the plugin and the calls of
    the server by type, and the two threads as runs of the bridge.  What
    [main], [parent_watcher] and the set-up of the log do to processes,
    threads and the file system is outside the embedding. *)

From Stdlib Require Import ZArith List Strings.String Strings.Byte Strings.Ascii.
From Stdlib Require Import Decimal DecimalNat DecimalN DecimalFacts Lia.
From stdpp Require Import base option list gmap strings.
Import ListNotations.

Set Warnings "-register-all".

Local Open Scope Z_scope.
Local Open Scope list_scope.

(* ===================================================================== *)
(** ** Python [bytes]                                                     *)
(* ===================================================================== *)

Definition bytes := list byte.

#[global] Instance byte_eq_decision : EqDecision byte := byte_eq_dec.

Definition B (s : string) : bytes := list_byte_of_string s.

Definition CR : byte := x0d.
Definition LF : byte := x0a.
Definition CRLF : bytes := [CR; LF].
(** [b"\r\n\r\n"], the terminator of a header block. *)
Definition CRLFCRLF : bytes := [CR; LF; CR; LF].
Definition COLON : bytes := Eval cbv in B ":".
Definition NEWLINE : bytes := [LF].
(** [b"content-length:"] and ["Content-Length: "]. *)
Definition content_length_lc : bytes := Eval cbv in B "content-length:".
Definition content_length_hdr : bytes := Eval cbv in B "Content-Length: ".

(** [s.startswith(p)] *)
Fixpoint startswith (s p : bytes) {struct p} : bool :=
  match p, s with
  | [], _ => true
  | _ :: _, [] => false
  | c :: p', d :: s' => Byte.eqb d c && startswith s' p'
  end.

(** [s.find(sub)]; [None] stands for the result [-1]. *)
Fixpoint find (s sub : bytes) : option nat :=
  if startswith s sub then Some 0%nat
  else match s with
       | [] => None
       | _ :: s' => S <$> find s' sub
       end.

(** [s.split(sep)] for a non-empty separator: cut at each occurrence found
    from the left.  The fuel is the length of [s]; one cut removes at least
    one byte. *)
Fixpoint split_fuel (fuel : nat) (s sep : bytes) : list bytes :=
  match fuel with
  | O => [s]
  | S fuel' =>
      match find s sep with
      | None => [s]
      | Some i => take i s :: split_fuel fuel' (drop (i + length sep) s) sep
      end
  end.

Definition split (s sep : bytes) : list bytes := split_fuel (length s) s sep.

(** [s.lower()]: ASCII letters only. *)
Definition byte_lower (c : byte) : byte :=
  let n := Byte.to_N c in
  if (65 <=? n)%N && (n <=? 90)%N
  then default c (Byte.of_N (n + 32))
  else c.

Definition lower (s : bytes) : bytes := map byte_lower s.

(** Whitespace of [bytes.strip()]: space, tab, newline, return, [\x0b],
    [\x0c]. *)
Definition is_space (c : byte) : bool :=
  match c with
  | x20 | x09 | x0a | x0d | x0b | x0c => true
  | _ => false
  end.

(** Whitespace of [str.strip()] below 128: the above and [\x1c] .. [\x1f]. *)
Definition is_str_space (c : byte) : bool :=
  match c with
  | x20 | x09 | x0a | x0d | x0b | x0c | x1c | x1d | x1e | x1f => true
  | _ => false
  end.

Fixpoint lstrip_by (sp : byte -> bool) (s : bytes) : bytes :=
  match s with
  | [] => []
  | c :: s' => if sp c then lstrip_by sp s' else s
  end.

Definition strip_by (sp : byte -> bool) (s : bytes) : bytes :=
  rev (lstrip_by sp (rev (lstrip_by sp s))).

(** [bytes.strip()] and [str.strip()]. *)
Definition strip : bytes -> bytes := strip_by is_space.
Definition str_strip : bytes -> bytes := strip_by is_str_space.

Definition digit_of (c : byte) : option Z :=
  match c with
  | x30 => Some 0 | x31 => Some 1 | x32 => Some 2 | x33 => Some 3
  | x34 => Some 4 | x35 => Some 5 | x36 => Some 6 | x37 => Some 7
  | x38 => Some 8 | x39 => Some 9
  | _ => None
  end.

Definition is_digit (c : byte) : Prop := is_Some (digit_of c).

(** The digits of an [int] literal in base ten: at least one digit, single
    underscores allowed between digits. *)
Fixpoint int_digits (s : bytes) (acc : Z) (after_digit : bool) : option Z :=
  match s with
  | [] => if after_digit then Some acc else None
  | c :: s' =>
      match digit_of c with
      | Some d => int_digits s' (10 * acc + d) true
      | None =>
          if Byte.eqb c "_"%byte && after_digit
          then int_digits s' acc false
          else None
      end
  end.

(** [int(s)] on [bytes]: surrounding whitespace, an optional sign, digits.
    [None] is [ValueError].  (CPython also refuses literals of more than
    4300 digits; no buffer of the bridge comes near that and the limit is
    not modelled.) *)
Definition py_int (s : bytes) : option Z :=
  match strip s with
  | c :: r =>
      if Byte.eqb c "-"%byte then Z.opp <$> int_digits r 0 false
      else if Byte.eqb c "+"%byte then int_digits r 0 false
      else int_digits (c :: r) 0 false
  | [] => None
  end.

(** An index of a slice, clamped the way Python does: a negative index
    counts from the end. *)
Definition slice_index (len : nat) (i : Z) : nat :=
  if i <? 0 then Z.to_nat (Z.max 0 (Z.of_nat len + i))
  else Nat.min (Z.to_nat i) len.

(** [s[lo:hi]] and [s[lo:]] *)
Definition slice (s : bytes) (lo hi : Z) : bytes :=
  let l := slice_index (length s) lo in
  let h := slice_index (length s) hi in
  take (h - l) (drop l s).

Definition slice_from (s : bytes) (lo : Z) : bytes :=
  drop (slice_index (length s) lo) s.

(** [str(n)] for a length. *)
Fixpoint bytes_of_uint (u : Decimal.uint) : bytes :=
  match u with
  | Nil => []
  | D0 u' => "0"%byte :: bytes_of_uint u'
  | D1 u' => "1"%byte :: bytes_of_uint u'
  | D2 u' => "2"%byte :: bytes_of_uint u'
  | D3 u' => "3"%byte :: bytes_of_uint u'
  | D4 u' => "4"%byte :: bytes_of_uint u'
  | D5 u' => "5"%byte :: bytes_of_uint u'
  | D6 u' => "6"%byte :: bytes_of_uint u'
  | D7 u' => "7"%byte :: bytes_of_uint u'
  | D8 u' => "8"%byte :: bytes_of_uint u'
  | D9 u' => "9"%byte :: bytes_of_uint u'
  end.

Definition str_of_len (n : nat) : bytes := bytes_of_uint (Nat.to_uint n).

(* ===================================================================== *)
(** ** Python values                                                      *)
(* ===================================================================== *)

Inductive json : Type :=
| JNull
| JBool (b : bool)
| JInt (n : Z)
| JStr (s : string)
| JList (l : list json)
| JDict (kv : list (string * json)).

Inductive exn : Type :=
| AttributeError | TypeError | KeyError | ValueError | IndexError.

Inductive outcome (A : Type) : Type :=
| Return (a : A)
| Raise (e : exn).
Arguments Return {A} a.
Arguments Raise {A} e.

Definition obind {A B} (o : outcome A) (k : A -> outcome B) : outcome B :=
  match o with
  | Return a => k a
  | Raise e => Raise e
  end.

(** [for x in xs: f(x)] collecting results, stopping at the first raise. *)
Fixpoint omapM {A B} (f : A -> outcome B) (l : list A) : outcome (list B) :=
  match l with
  | [] => Return []
  | x :: l' =>
      obind (f x) (fun y => obind (omapM f l') (fun ys => Return (y :: ys)))
  end.

Fixpoint assoc (kv : list (string * json)) (key : string) : option json :=
  match kv with
  | [] => None
  | (k, v) :: kv' => if String.eqb k key then Some v else assoc kv' key
  end.

(** [d.get(key, dflt)] and [d.get(key)] on a dict. *)
Definition dict_get_default (kv : list (string * json)) (key : string)
    (dflt : json) : json :=
  default dflt (assoc kv key).

Definition dict_get (kv : list (string * json)) (key : string) : json :=
  dict_get_default kv key JNull.

(** [v.get(key, dflt)] on any value: only a dict has [get]. *)
Definition py_get_default (v : json) (key : string) (dflt : json)
    : outcome json :=
  match v with
  | JDict kv => Return (dict_get_default kv key dflt)
  | _ => Raise AttributeError
  end.

Definition py_get (v : json) (key : string) : outcome json :=
  py_get_default v key JNull.

(** [d[key]] on a dict. *)
Definition dict_item (kv : list (string * json)) (key : string)
    : outcome json :=
  match assoc kv key with
  | Some v => Return v
  | None => Raise KeyError
  end.

Definition is_none (v : json) : bool :=
  match v with JNull => true | _ => false end.

(** Truth value of a Python object, as tested by [if v:]. *)
Definition truthy (v : json) : bool :=
  match v with
  | JNull => false
  | JBool b => b
  | JInt n => negb (n =? 0)
  | JStr s => negb (String.eqb s "")
  | JList l => match l with [] => false | _ => true end
  | JDict kv => match kv with [] => false | _ => true end
  end.

(** [v == "literal"] *)
Definition eq_str (v : json) (s : string) : bool :=
  match v with
  | JStr t => String.eqb t s
  | _ => false
  end.

Definition is_dict (v : json) : bool :=
  match v with JDict _ => true | _ => false end.

(** [len(v)] *)
Definition py_len (v : json) : outcome nat :=
  match v with
  | JList l => Return (length l)
  | JDict kv => Return (length kv)
  | JStr s => Return (String.length s)
  | _ => Raise TypeError
  end.

Fixpoint chars (s : string) : list json :=
  match s with
  | EmptyString => []
  | String c s' => JStr (String c EmptyString) :: chars s'
  end.

(** The elements of [for x in v]. *)
Definition py_iter (v : json) : outcome (list json) :=
  match v with
  | JList l => Return l
  | JDict kv => Return (map (fun p => JStr (fst p)) kv)
  | JStr s => Return (chars s)
  | _ => Raise TypeError
  end.

(** The key under which a value is looked up in a dict whose keys are
    [int]s: lists and dicts are unhashable ([TypeError]); [True] and [False]
    hash and compare as [1] and [0]; a string or [None] equals no [int]. *)
Definition int_key (v : json) : outcome (option Z) :=
  match v with
  | JInt n => Return (Some n)
  | JBool b => Return (Some (if b then 1 else 0))
  | JStr _ | JNull => Return None
  | JList _ | JDict _ => Raise TypeError
  end.

(* ===================================================================== *)
(** ** A reference codec                                                  *)
(* ===================================================================== *)

(** A JSON printer in the layout of [json.dumps] (separators [", "] and
    [": "], everything outside printable ASCII escaped) and a JSON reader,
    for the value domain of [json].  They stand in for the library in the
    round trip of a message through [lsp_send] and the reader, and where
    the model is run on sample data; the properties of the handlers and of
    the two loops are stated over any printer and reader. *)
Module RefCodec.

Definition QUOTE : byte := x22.
Definition BACKSLASH : byte := x5c.

Definition hex (n : N) : byte :=
  nth (N.to_nat n)
      ["0"; "1"; "2"; "3"; "4"; "5"; "6"; "7"; "8"; "9";
       "a"; "b"; "c"; "d"; "e"; "f"]%byte "0"%byte.

Definition escape_byte (c : byte) : bytes :=
  match c with
  | x22 => [BACKSLASH; QUOTE]
  | x5c => [BACKSLASH; BACKSLASH]
  | x0a => [BACKSLASH; "n"%byte]
  | x0d => [BACKSLASH; "r"%byte]
  | x09 => [BACKSLASH; "t"%byte]
  | x08 => [BACKSLASH; "b"%byte]
  | x0c => [BACKSLASH; "f"%byte]
  | _ =>
      let n := Byte.to_N c in
      if (32 <=? n)%N && (n <=? 126)%N then [c]
      else [BACKSLASH; "u"%byte; "0"%byte; "0"%byte;
            hex (n / 16); hex (n mod 16)]
  end.

Definition dumps_string (s : string) : bytes :=
  QUOTE :: concat (map escape_byte (list_byte_of_string s)) ++ [QUOTE].

Definition dumps_int (n : Z) : bytes :=
  if n <? 0 then "-"%byte :: bytes_of_uint (N.to_uint (Z.to_N (- n)))
  else bytes_of_uint (N.to_uint (Z.to_N n)).

(** [sep.join(parts)] *)
Fixpoint join (sep : bytes) (parts : list bytes) : bytes :=
  match parts with
  | [] => []
  | x :: parts' =>
      match parts' with
      | [] => x
      | _ => x ++ sep ++ join sep parts'
      end
  end.

Fixpoint dumps (v : json) : bytes :=
  match v with
  | JNull => B "null"
  | JBool true => B "true"
  | JBool false => B "false"
  | JInt n => dumps_int n
  | JStr s => dumps_string s
  | JList l => "["%byte :: join (B ", ") (map dumps l) ++ ["]"%byte]
  | JDict kv =>
      "{"%byte ::
      join (B ", ")
           (map (fun p => dumps_string (fst p) ++ B ": " ++ dumps (snd p)) kv)
      ++ ["}"%byte]
  end.

Definition is_ws (c : byte) : bool :=
  match c with
  | x20 | x09 | x0a | x0d => true
  | _ => false
  end.

Definition skip_ws : bytes -> bytes := lstrip_by is_ws.

Definition hex_value (c : byte) : option N :=
  let n := Byte.to_N c in
  if (48 <=? n)%N && (n <=? 57)%N then Some (n - 48)%N
  else if (97 <=? n)%N && (n <=? 102)%N then Some (n - 87)%N
  else if (65 <=? n)%N && (n <=? 70)%N then Some (n - 55)%N
  else None.

(** The characters of a string literal, after its opening quote. *)
Fixpoint loads_string (s : bytes) : option (string * bytes) :=
  match s with
  | [] => None
  | c :: r =>
      if Byte.eqb c QUOTE then Some (EmptyString, r)
      else if Byte.eqb c BACKSLASH then
        match r with
        | e :: r' =>
            let plain (d : byte) :=
              '(t, r'') ← loads_string r'; Some (String (ascii_of_byte d) t, r'') in
            match e with
            | x22 => plain x22
            | x5c => plain x5c
            | x2f => plain x2f
            | x6e => plain x0a
            | x72 => plain x0d
            | x74 => plain x09
            | x62 => plain x08
            | x66 => plain x0c
            | x75 =>
                match r' with
                | h3 :: h2 :: h1 :: h0 :: r'' =>
                    a3 ← hex_value h3; a2 ← hex_value h2;
                    a1 ← hex_value h1; a0 ← hex_value h0;
                    d ← Byte.of_N (((a3 * 16 + a2) * 16 + a1) * 16 + a0);
                    '(t, r3) ← loads_string r'';
                    Some (String (ascii_of_byte d) t, r3)
                | _ => None
                end
            | _ => None
            end
        | [] => None
        end
      else if (Byte.to_N c <? 32)%N then None
      else if (Byte.to_N c <? 128)%N then
        '(t, r') ← loads_string r; Some (String (ascii_of_byte c) t, r')
      else
        (* the two byte UTF-8 forms of the characters 128 .. 255 *)
        match r with
        | c2 :: r' =>
            let n2 := Byte.to_N c2 in
            if (128 <=? n2)%N && (n2 <? 192)%N then
              d ← match c with
                  | xc2 => Byte.of_N n2
                  | xc3 => Byte.of_N (n2 + 64)
                  | _ => None
                  end;
              '(t, r'') ← loads_string r';
              Some (String (ascii_of_byte d) t, r'')
            else None
        | [] => None
        end
  end.

Fixpoint loads_digits (s : bytes) (acc : Z) : Z * bytes :=
  match s with
  | c :: r =>
      match digit_of c with
      | Some d => loads_digits r (10 * acc + d)
      | None => (acc, s)
      end
  | [] => (acc, [])
  end.

(** An integer literal: [0], or digits that do not start with [0]. *)
Definition loads_nat (s : bytes) : option (Z * bytes) :=
  match s with
  | c :: r =>
      match digit_of c with
      | Some 0 => Some (0, r)
      | Some d => Some (loads_digits r d)
      | None => None
      end
  | [] => None
  end.

Definition no_fraction (r : bytes) : bool :=
  match r with
  | c :: _ =>
      negb (Byte.eqb c "."%byte || Byte.eqb c "e"%byte || Byte.eqb c "E"%byte
            || bool_decide (is_Some (digit_of c)))
  | [] => true
  end.

Definition loads_int (s : bytes) : option (json * bytes) :=
  '(n, r) ← match s with
            | c :: s' =>
                if Byte.eqb c "-"%byte
                then '(n, r) ← loads_nat s'; Some (- n, r)
                else loads_nat s
            | [] => None
            end;
  if no_fraction r then Some (JInt n, r) else None.

(** [d[k] = v] on a dict in insertion order. *)
Fixpoint dict_set (kv : list (string * json)) (k : string) (v : json)
    : list (string * json) :=
  match kv with
  | [] => [(k, v)]
  | (k', v') :: kv' =>
      if String.eqb k' k then (k', v) :: kv' else (k', v') :: dict_set kv' k v
  end.

Fixpoint loads_value (fuel : nat) (s : bytes) : option (json * bytes) :=
  match fuel with
  | O => None
  | S fuel' =>
      match skip_ws s with
      | x6e :: x75 :: x6c :: x6c :: r => Some (JNull, r)
      | x74 :: x72 :: x75 :: x65 :: r => Some (JBool true, r)
      | x66 :: x61 :: x6c :: x73 :: x65 :: r => Some (JBool false, r)
      | x22 :: r => '(t, r') ← loads_string r; Some (JStr t, r')
      | x5b :: r =>
          match skip_ws r with
          | x5d :: r' => Some (JList [], r')
          | _ => loads_items fuel' r []
          end
      | x7b :: r =>
          match skip_ws r with
          | x7d :: r' => Some (JDict [], r')
          | _ => loads_members fuel' r []
          end
      | s' => loads_int s'
      end
  end
with loads_items (fuel : nat) (s : bytes) (acc : list json)
    : option (json * bytes) :=
  match fuel with
  | O => None
  | S fuel' =>
      '(v, r) ← loads_value fuel' s;
      match skip_ws r with
      | x2c :: r' => loads_items fuel' r' (acc ++ [v])
      | x5d :: r' => Some (JList (acc ++ [v]), r')
      | _ => None
      end
  end
with loads_members (fuel : nat) (s : bytes) (acc : list (string * json))
    : option (json * bytes) :=
  match fuel with
  | O => None
  | S fuel' =>
      match skip_ws s with
      | x22 :: r =>
          '(k, r1) ← loads_string r;
          match skip_ws r1 with
          | x3a :: r2 =>
              '(v, r3) ← loads_value fuel' r2;
              match skip_ws r3 with
              | x2c :: r4 => loads_members fuel' r4 (dict_set acc k v)
              | x7d :: r4 => Some (JDict (dict_set acc k v), r4)
              | _ => None
              end
          | _ => None
          end
      | _ => None
      end
  end.

Definition loads (s : bytes) : option json :=
  '(v, r) ← loads_value (2 * length s + 2) s;
  match skip_ws r with
  | [] => Some v
  | _ => None
  end.

Definition string_of_bytes (s : bytes) : string := string_of_list_byte s.

(** [str(v)]; a string inside a container is shown in single quotes. *)
Fixpoint repr (v : json) : string :=
  match v with
  | JNull => "None"
  | JBool true => "True"
  | JBool false => "False"
  | JInt n => string_of_bytes (dumps_int n)
  | JStr s => "'" ++ s ++ "'"
  | JList l =>
      "[" ++
      (fix items (l : list json) : string :=
         match l with
         | [] => ""
         | x :: l' =>
             match l' with
             | [] => repr x
             | _ => repr x ++ ", " ++ items l'
             end
         end) l ++ "]"
  | JDict kv =>
      "{" ++
      (fix members (kv : list (string * json)) : string :=
         match kv with
         | [] => ""
         | (k, x) :: kv' =>
             match kv' with
             | [] => "'" ++ k ++ "': " ++ repr x
             | _ => "'" ++ k ++ "': " ++ repr x ++ ", " ++ members kv'
             end
         end) kv ++ "}"
  end%string.

Definition str (v : json) : string :=
  match v with
  | JStr s => s
  | _ => repr v
  end.

(** The values the codec prints and reads back: no dict has a key twice. *)
Fixpoint wf_jsonb (v : json) : bool :=
  match v with
  | JList l => forallb wf_jsonb l
  | JDict kv =>
      bool_decide (NoDup (map fst kv))
      && forallb (fun p => wf_jsonb (snd p)) kv
  | _ => true
  end.

Definition wf_json (v : json) : Prop := wf_jsonb v = true.

(** Fuel that [loads_value] needs for what [dumps] prints. *)
Fixpoint need (v : json) : nat :=
  match v with
  | JList l => S (list_sum (map (fun x => S (need x)) l))
  | JDict kv => S (list_sum (map (fun p => S (need (snd p))) kv))
  | _ => 1
  end.

(** What [loads_value] is to give on what [dumps] prints for [v]. *)
Definition reads_back (v : json) : Prop :=
  forall (fuel : nat) (rest : bytes),
    (need v <= fuel)%nat -> no_fraction rest = true ->
    loads_value fuel (dumps v ++ rest) = Some (v, rest).

(** A member of an object, as printed. *)
Definition member (p : string * json) : bytes :=
  dumps_string (fst p) ++ B ": " ++ dumps (snd p).

(** The first byte of what [dumps] prints. *)
Definition starts_value (c : byte) : bool :=
  match c with
  | x6e | x74 | x66 | x2d | x22 | x5b | x7b => true
  | _ => bool_decide (is_Some (digit_of c))
  end.

End RefCodec.

(* ===================================================================== *)
(** ** State of the bridge                                                *)
(* ===================================================================== *)

(** The module level state of [copilot_server.py] together with the two
    streams the bridge writes. *)
Record bridge : Type := mkBridge {
  (** [pending_requests]: lsp id -> (plugin request id, method) *)
  pending_requests : gmap Z (json * string);
  (** [request_counter] *)
  request_counter : Z;
  (** the objects appended by [write_resp] to the [resp] file, oldest first *)
  resp : list json;
  (** [lsp_process] is set and has not exited *)
  lsp_running : bool;
  (** the bytes written to the standard input of the language server *)
  lsp_stdin : bytes
}.

Definition set_pending (f : gmap Z (json * string) -> gmap Z (json * string))
    (st : bridge) : bridge :=
  mkBridge (f (pending_requests st)) (request_counter st) (resp st)
           (lsp_running st) (lsp_stdin st).

Definition set_counter (n : Z) (st : bridge) : bridge :=
  mkBridge (pending_requests st) n (resp st) (lsp_running st) (lsp_stdin st).

Definition add_resp (data : json) (st : bridge) : bridge :=
  mkBridge (pending_requests st) (request_counter st) (resp st ++ [data])
           (lsp_running st) (lsp_stdin st).

Definition add_stdin (bs : bytes) (st : bridge) : bridge :=
  mkBridge (pending_requests st) (request_counter st) (resp st)
           (lsp_running st) (lsp_stdin st ++ bs).

(** The state at the start of [main], once the server has been spawned. *)
Definition initial_bridge : bridge :=
  mkBridge ∅ 0 [] true [].

(** A computation on a state [St] that may raise; the state reached is
    returned in both cases. *)
Definition M (St A : Type) : Type := St -> outcome A * St.

Definition ret {St A} (a : A) : M St A := fun st => (Return a, st).
Definition lift {St A} (o : outcome A) : M St A := fun st => (o, st).
Definition bind {St A B} (m : M St A) (k : A -> M St B) : M St B :=
  fun st =>
    match m st with
    | (Return a, st') => k a st'
    | (Raise e, st') => (Raise e, st')
    end.

(** [try: m except KeyError: pass] *)
Definition except_KeyError {St} (m : M St unit) : M St unit :=
  fun st =>
    match m st with
    | (Raise KeyError, st') => (Return tt, st')
    | r => r
    end.

Declare Scope bridge_scope.
Delimit Scope bridge_scope with bridge.
Notation "'let*' x := c 'in' k" := (bind c (fun x => k))
  (at level 10, x pattern, c at level 100, k at level 200) : bridge_scope.
Notation "c1 >> c2" := (bind c1 (fun _ => c2))
  (at level 60, right associativity) : bridge_scope.
Local Open Scope bridge_scope.

(** [{"jsonrpc": "2.0", ...}] *)
Definition rpc (fields : list (string * json)) : json :=
  JDict (("jsonrpc"%string, JStr "2.0") :: fields).

(** The frame that [lsp_send] writes for a body. *)
Definition lsp_frame (body : bytes) : bytes :=
  content_length_hdr ++ str_of_len (length body) ++ CRLFCRLF ++ body.

(** One step of the inner [while True] of [read_lsp_messages]. *)
Inductive frame_step_result : Type :=
| NeedMore                      (** [break]: wait for more data *)
| NoLength (rest : bytes)       (** header block dropped, then [break] *)
| HeaderError (e : exn)         (** the header parse raised *)
| Frame (body rest : bytes).    (** one body cut off the buffer *)

(** The [for line in header_bytes.split(b"\r\n")] loop: the value of the
    first line that starts with [content-length:], whatever its case. *)
Fixpoint header_content_length (lines : list bytes) : option (outcome Z) :=
  match lines with
  | [] => None
  | line :: rest =>
      if startswith (lower line) content_length_lc
      then Some
             match find line COLON with
             | None => Raise IndexError
             | Some i =>
                 match py_int (strip (drop (i + 1) line)) with
                 | Some n => Return n
                 | None => Raise ValueError
                 end
             end
      else header_content_length rest
  end.

Definition frame_step (buf : bytes) : frame_step_result :=
  match find buf CRLFCRLF with
  | None => NeedMore
  | Some header_end =>
      let header_bytes := take header_end buf in
      match header_content_length (split header_bytes CRLF) with
      | None => NoLength (drop (header_end + 4) buf)
      | Some (Raise e) => HeaderError e
      | Some (Return content_length) =>
          let start := Z.of_nat header_end + 4 in
          if Z.of_nat (length buf) <? start + content_length
          then NeedMore
          else Frame (slice buf start (start + content_length))
                     (slice_from buf (start + content_length))
      end
  end.

(** Where the reader thread stands. *)
Inductive reader_status : Type :=
| Reading             (** in the outer loop, about to call [read1] *)
| Exited              (** left the outer loop *)
| Died (e : exn)      (** an exception left [read_lsp_messages] *)
| Spinning.           (** the inner loop does not terminate *)

(** ** Framed streams

    A frame is a header block and a body.  It is well framed when the
    terminator [\r\n\r\n] first occurs at the end of the header block and the
    [Content-Length] line of the block gives the length of the body; the
    frames that [lsp_send] writes are of this kind. *)

Definition frame : Type := bytes * bytes.

Definition frame_bytes (f : frame) : bytes := fst f ++ CRLFCRLF ++ snd f.

Definition stream (fs : list frame) : bytes := concat (map frame_bytes fs).

Definition well_framed (f : frame) : Prop :=
  find (fst f ++ CRLFCRLF) CRLFCRLF = Some (length (fst f)) /\
  header_content_length (split (fst f) CRLF)
  = Some (Return (Z.of_nat (length (snd f)))).

(** The header block that [lsp_send] writes before a body. *)
Definition lsp_header (body : bytes) : bytes :=
  content_length_hdr ++ str_of_len (length body).

(** ** Sample data

    Messages, frames and states on which the model is run. *)
Module Examples.

Definition response_1 : list (string * json) :=
  [("jsonrpc", JStr "2.0"); ("id", JInt 1); ("result", JNull)]%string.

Definition log_message : json :=
  JDict [("jsonrpc", JStr "2.0"); ("method", JStr "window/logMessage");
         ("params", JDict [("type", JInt 3); ("message", JStr "ready")])]%string.

Definition body_1 : bytes := RefCodec.dumps (JDict response_1).
Definition body_2 : bytes := RefCodec.dumps log_message.

Definition two_frames : list frame :=
  [(lsp_header body_1, body_1); (lsp_header body_2, body_2)].

(** The stream of the two frames, one byte per chunk. *)
Definition byte_chunks : list bytes :=
  map (fun c => [c]) (stream two_frames).

Definition completion_request : json :=
  JDict [("jsonrpc", JStr "2.0"); ("id", JInt 7);
         ("method", JStr "textDocument/inlineCompletion");
         ("params",
          JDict [("textDocument", JDict [("uri", JStr "file:///a.py");
                                         ("version", JInt 3)]);
                 ("position", JDict [("line", JInt 0);
                                     ("character", JInt 4)])])]%string.

(** A request of a method the bridge does not know, and the same as a
    notification. *)
Definition unknown_request : list (string * json) :=
  [("jsonrpc", JStr "2.0"); ("id", JInt 9);
   ("method", JStr "client/registerCapability");
   ("params", JDict [])]%string.

Definition unknown_notification : list (string * json) :=
  [("jsonrpc", JStr "2.0"); ("method", JStr "telemetry/event")]%string.

(** A bridge with one request in flight: lsp id [1], registered for the
    request [r1] of the plugin. *)
Definition waiting (method : string) : bridge :=
  mkBridge {[ 1 := (JStr "r1", method) ]} 1 [] true [].

Definition error_response : list (string * json) :=
  [("jsonrpc", JStr "2.0"); ("id", JInt 1);
   ("error", JDict [("code", JInt (-32603));
                    ("message", JStr "internal error")])]%string.

Definition item_1 : list (string * json) :=
  [("insertText", JStr "print(x)");
   ("range", JDict [("start", JInt 0); ("end", JInt 4)])]%string.

Definition item_2 : list (string * json) :=
  [("command", JDict [("command", JStr "accept")])]%string.

Definition completion_response : list (string * json) :=
  [("jsonrpc", JStr "2.0"); ("id", JInt 1);
   ("result", JDict [("items", JList [JDict item_1; JDict item_2])])]%string.

Definition configuration_params : list (string * json) :=
  [("items", JList [JDict [("section", JStr "github.copilot")];
                    JDict [("section", JStr "http")]])]%string.

Definition configuration_request : list (string * json) :=
  [("jsonrpc", JStr "2.0"); ("id", JInt 4);
   ("method", JStr "workspace/configuration");
   ("params", JDict configuration_params)]%string.

(** Two lines of the command log. *)
Definition sign_in_line : bytes :=
  RefCodec.dumps (JDict [("type", JStr "signIn"); ("id", JStr "a")]%string)
  ++ NEWLINE.

Definition sign_out_line : bytes :=
  RefCodec.dumps (JDict [("type", JStr "signOut"); ("id", JStr "b")]%string)
  ++ NEWLINE.

(** A line that is JSON and not an object. *)
Definition list_line : bytes := RefCodec.dumps (JList [JInt 1]) ++ NEWLINE.

(** A header block without [Content-Length], with its terminator. *)
Definition stray_header : bytes := B "X-Trace: 1" ++ CRLFCRLF.

(** Commands of the plugin: two requests, one of them without an id, a
    command that lacks its [uri], and one of a type the bridge does not
    know. *)
Definition sign_out_command : list (string * json) :=
  [("type", JStr "signOut"); ("id", JStr "b")]%string.

Definition sign_in_no_id : list (string * json) :=
  [("type", JStr "signIn")]%string.

Definition open_without_uri : list (string * json) :=
  [("type", JStr "openDocument"); ("id", JStr "c");
   ("text", JStr "x = 1")]%string.

Definition ping_command : list (string * json) :=
  [("type", JStr "ping"); ("id", JStr "d")]%string.

(** A response to the request with id [2]. *)
Definition response_2 : list (string * json) :=
  [("jsonrpc", JStr "2.0"); ("id", JInt 2); ("result", JNull)]%string.

(** Calls of the server: a request to show a document, and a notification
    whose [params] is [null]. *)
Definition show_document_params : list (string * json) :=
  [("uri", JStr "file:///a.py")]%string.

Definition show_document_request : list (string * json) :=
  [("jsonrpc", JStr "2.0"); ("id", JInt 5);
   ("method", JStr "window/showDocument");
   ("params", JDict show_document_params)]%string.

Definition show_message_null : list (string * json) :=
  [("jsonrpc", JStr "2.0"); ("method", JStr "window/showMessage");
   ("params", JNull)]%string.

(** Header blocks with a [Content-Length] that is negative, and one that
    is no number, each before a frame. *)
Definition negative_length : bytes :=
  B "Content-Length: -23" ++ CRLFCRLF ++ lsp_frame body_1.

Definition length_abc : bytes :=
  B "Content-Length: abc" ++ CRLFCRLF ++ lsp_frame body_1.

(** A frame whose body is a list. *)
Definition list_body : bytes := RefCodec.dumps (JList [JInt 1]).

Definition list_frame : frame := (lsp_header list_body, list_body).

(** Lines of the command log, without their newline. *)
Definition sign_in_text : bytes :=
  RefCodec.dumps (JDict [("type", JStr "signIn"); ("id", JStr "a")]%string).

Definition sign_out_text : bytes := RefCodec.dumps (JDict sign_out_command).

Definition open_without_uri_text : bytes :=
  RefCodec.dumps (JDict open_without_uri).

End Examples.

(* ===================================================================== *)
(** ** The bridge                                                        *)
(* ===================================================================== *)

Section Bridge.

(** [json.dumps(v).encode("utf-8")] *)
Variable json_dumps : json -> bytes.
(** [json.loads(b.decode("utf-8"))], and [json.loads] of a line of the
    command log; [None] when it raises [JSONDecodeError] or
    [UnicodeDecodeError]. *)
Variable json_loads : bytes -> option json.
(** [str(v)], also the conversion inside an f-string. *)
Variable py_str : json -> string.
(** [os.getpid()] *)
Variable pid : Z.

(** *** Writing *)

Definition write_resp (data : json) : M bridge unit :=
  fun st => (Return tt, add_resp data st).

Definition next_lsp_id : M bridge Z :=
  fun st =>
    let n := request_counter st + 1 in
    (Return n, set_counter n st).

Definition lsp_send (message : json) : M bridge unit :=
  fun st =>
    if lsp_running st
    then (Return tt, add_stdin (lsp_frame (json_dumps message)) st)
    else (Return tt, st).

Definition lsp_request (method : string) (params : json)
    (plugin_req_id : json) : M bridge Z :=
  let* lsp_id := next_lsp_id in
  (if negb (is_none plugin_req_id)
   then fun st =>
          (Return tt,
           set_pending (insert lsp_id (plugin_req_id, method)) st)
   else ret tt) >>
  lsp_send (rpc [("id", JInt lsp_id); ("method", JStr method);
                 ("params", params)]%string) >>
  ret lsp_id.

Definition lsp_notify (method : string) (params : json) : M bridge unit :=
  lsp_send (rpc [("method", JStr method); ("params", params)]%string).

(** *** Messages of the language server *)

Definition completion_item (item : json) : outcome json :=
  obind (py_get_default item "insertText" (JStr "")) (fun insert_text =>
  obind (py_get item "range") (fun range =>
  obind (py_get item "command") (fun command =>
  Return (JDict [("insertText", insert_text); ("range", range);
                 ("command", command)]%string)))).

Definition dispatch_lsp_response (method : string) (plugin_req_id : json)
    (result : json) : M bridge unit :=
  if String.eqb method "initialize" then
    lsp_notify "initialized" (JDict []) >>
    write_resp (JDict [("type", JStr "initialized");
                       ("id", plugin_req_id)]%string)
  else if String.eqb method "textDocument/inlineCompletion" then
    let* items :=
      (if truthy result && is_dict result
       then let* its := lift (py_get_default result "items" (JList [])) in
            let* l := lift (py_iter its) in
            lift (omapM completion_item l)
       else ret []) in
    write_resp (JDict [("type", JStr "completionResult");
                       ("id", plugin_req_id);
                       ("items", JList items)]%string)
  else if String.eqb method "signIn" then
    if truthy result then
      let* user_code := lift (py_get_default result "userCode" (JStr "")) in
      let* uri := lift (py_get_default result "verificationUri" (JStr "")) in
      let* command := lift (py_get result "command") in
      write_resp (JDict [("type", JStr "signInResult");
                         ("id", plugin_req_id);
                         ("userCode", user_code);
                         ("verificationUri", uri);
                         ("command", command)]%string)
    else
      write_resp (JDict [("type", JStr "signInResult");
                         ("id", plugin_req_id);
                         ("userCode", JStr "");
                         ("verificationUri", JStr "")]%string)
  else if String.eqb method "signOut" then
    write_resp (JDict [("type", JStr "signOutResult");
                       ("id", plugin_req_id)]%string)
  else if String.eqb method "workspace/executeCommand" then
    write_resp (JDict [("type", JStr "commandResult");
                       ("id", plugin_req_id);
                       ("result", result)]%string)
  else
    write_resp (JDict [("type", JStr "lspResponse");
                       ("id", plugin_req_id);
                       ("method", JStr method);
                       ("result", result)]%string).

(** [msg_id in pending_requests]: the entry found, with the [int] key it is
    stored under. *)
Definition find_pending (msg_id : json)
    : M bridge (option (Z * (json * string))) :=
  let* key := lift (int_key msg_id) in
  fun st =>
    (Return (key ≫= fun k => (fun e => (k, e)) <$> pending_requests st !! k),
     st).

(** [pending_requests.pop(msg_id)] for the entry just found. *)
Definition pop_pending (k : Z) (entry : json * string)
    : M bridge (json * string) :=
  fun st => (Return entry, set_pending (delete k) st).

(** The reply to a request of an unknown method. *)
Definition method_not_found (msg_id : json) : json :=
  rpc [("id", msg_id);
       ("error", JDict [("code", JInt (-32601));
                        ("message", JStr "Method not found")])]%string.

Definition handle_lsp_message (msg : json) : M bridge unit :=
  let* msg_id := lift (py_get msg "id") in
  let* method := lift (py_get msg "method") in
  if negb (is_none msg_id) && is_none method then
    (* a response *)
    let* found := find_pending msg_id in
    match found with
    | Some (k, entry) =>
        let* (plugin_req_id, req_method) := pop_pending k entry in
        let* result := lift (py_get msg "result") in
        let* error := lift (py_get msg "error") in
        if truthy error
        then write_resp (JDict [("type", JStr "error");
                                ("id", plugin_req_id);
                                ("error", error)]%string)
        else dispatch_lsp_response req_method plugin_req_id result
    | None => ret tt
    end
  else if eq_str method "$/logTrace" || eq_str method "$/progress" then
    ret tt
  else if eq_str method "window/logMessage" then
    let* params := lift (py_get_default msg "params" (JDict [])) in
    let* _ := lift (py_get params "type") in
    let* _ := lift (py_get_default params "message" (JStr "")) in
    ret tt
  else if eq_str method "window/showMessage" then
    let* params := lift (py_get_default msg "params" (JDict [])) in
    let* message := lift (py_get_default params "message" (JStr "")) in
    let* msg_type := lift (py_get_default params "type" (JInt 3)) in
    write_resp (JDict [("type", JStr "showMessage");
                       ("message", message);
                       ("msgType", msg_type)]%string)
  else if eq_str method "window/showMessageRequest" then
    let* params := lift (py_get_default msg "params" (JDict [])) in
    let* message := lift (py_get_default params "message" (JStr "")) in
    let* msg_type := lift (py_get_default params "type" (JInt 3)) in
    let* actions := lift (py_get_default params "actions" (JList [])) in
    write_resp (JDict [("type", JStr "showMessageRequest");
                       ("id", JStr (py_str msg_id));
                       ("message", message);
                       ("msgType", msg_type);
                       ("actions", actions)]%string) >>
    lsp_send (rpc [("id", msg_id); ("result", JNull)]%string)
  else if eq_str method "window/showDocument" then
    let* params := lift (py_get_default msg "params" (JDict [])) in
    let* uri := lift (py_get_default params "uri" (JStr "")) in
    write_resp (JDict [("type", JStr "showDocument"); ("uri", uri)]%string) >>
    lsp_send (rpc [("id", msg_id);
                   ("result", JDict [("success", JBool true)])]%string)
  else if eq_str method "workspace/configuration" then
    let* params := lift (py_get_default msg "params" (JDict [])) in
    let* items := lift (py_get_default params "items" (JList [])) in
    let* n := lift (py_len items) in
    lsp_send (rpc [("id", msg_id);
                   ("result", JList (replicate n JNull))]%string)
  else if eq_str method "copilot/didChangeStatus"
          || eq_str method "didChangeStatus"
          || eq_str method "statusNotification" then
    let* params := lift (py_get_default msg "params" (JDict [])) in
    let* message := lift (py_get_default params "message" (JStr "")) in
    let* kind := lift (py_get_default params "kind" (JStr "Normal")) in
    write_resp (JDict [("type", JStr "statusChanged");
                       ("message", message);
                       ("kind", kind)]%string)
  else if negb (is_none msg_id) then
    lsp_send (method_not_found msg_id)
  else
    ret tt.

(** *** Commands of the plugin *)

(** [msg[key]] *)
Definition py_item (v : json) (key : string) : outcome json :=
  match v with
  | JDict kv => dict_item kv key
  | _ => Raise TypeError
  end.

Definition initialize_params (folders : list json) : json :=
  JDict
    [("processId", JInt pid);
     ("clientInfo", JDict [("name", JStr "Fresh"); ("version", JStr "1.0.0")]);
     ("workspaceFolders",
      JList (map (fun w => JDict [("uri", JStr ("file://" ++ py_str w))])
                 folders));
     ("capabilities",
      JDict
        [("workspace",
          JDict [("workspaceFolders", JBool true);
                 ("configuration", JBool true)]);
         ("textDocument",
          JDict
            [("synchronization",
              JDict [("dynamicRegistration", JBool true);
                     ("didSave", JBool true)]);
             ("inlineCompletion", JDict [("dynamicRegistration", JBool true)]);
             ("inlayHint", JDict [("dynamicRegistration", JBool true)])])]);
     ("initializationOptions",
      JDict
        [("editorInfo",
          JDict [("name", JStr "Fresh"); ("version", JStr "1.0.0")]);
         ("editorPluginInfo",
          JDict [("name", JStr "GitHub Copilot for Fresh");
                 ("version", JStr "1.0.0")])])]%string.

Definition handle_plugin_message (msg : json) : M bridge unit :=
  let* msg_type := lift (py_get msg "type") in
  let* req_id := lift (py_get msg "id") in
  if eq_str msg_type "initialize" then
    let* workspace := lift (py_get_default msg "workspaceFolders" (JList [])) in
    let* folders := lift (py_iter workspace) in
    lsp_request "initialize" (initialize_params folders) req_id >> ret tt
  else if eq_str msg_type "configuration" then
    let* settings := lift (py_get_default msg "settings" (JDict [])) in
    lsp_notify "workspace/didChangeConfiguration"
      (JDict [("settings", settings)]%string)
  else if eq_str msg_type "openDocument" then
    let* uri := lift (py_item msg "uri") in
    let* language_id := lift (py_get_default msg "languageId" (JStr "plaintext")) in
    let* version := lift (py_get_default msg "version" (JInt 1)) in
    let* text := lift (py_get_default msg "text" (JStr "")) in
    lsp_notify "textDocument/didOpen"
      (JDict [("textDocument",
               JDict [("uri", uri); ("languageId", language_id);
                      ("version", version); ("text", text)])]%string)
  else if eq_str msg_type "changeDocument" then
    let* uri := lift (py_item msg "uri") in
    let* version := lift (py_get_default msg "version" (JInt 1)) in
    let* changes := lift (py_get_default msg "changes" (JList [])) in
    lsp_notify "textDocument/didChange"
      (JDict [("textDocument", JDict [("uri", uri); ("version", version)]);
              ("contentChanges", changes)]%string)
  else if eq_str msg_type "closeDocument" then
    let* uri := lift (py_item msg "uri") in
    lsp_notify "textDocument/didClose"
      (JDict [("textDocument", JDict [("uri", uri)])]%string)
  else if eq_str msg_type "focusDocument" then
    let* uri := lift (py_get msg "uri") in
    if truthy uri
    then lsp_notify "textDocument/didFocus"
           (JDict [("textDocument", JDict [("uri", uri)])]%string)
    else lsp_notify "textDocument/didFocus" (JDict [])
  else if eq_str msg_type "inlineCompletion" then
    let* uri := lift (py_item msg "uri") in
    let* version := lift (py_get_default msg "version" (JInt 0)) in
    let* position := lift (py_item msg "position") in
    let* trigger_kind := lift (py_get_default msg "triggerKind" (JInt 2)) in
    let* formatting :=
      lift (py_get_default msg "formattingOptions"
              (JDict [("tabSize", JInt 4); ("insertSpaces", JBool true)]%string)) in
    lsp_request "textDocument/inlineCompletion"
      (JDict [("textDocument", JDict [("uri", uri); ("version", version)]);
              ("position", position);
              ("context", JDict [("triggerKind", trigger_kind)]);
              ("formattingOptions", formatting)]%string)
      req_id >> ret tt
  else if eq_str msg_type "signIn" then
    lsp_request "signIn" (JDict []) req_id >> ret tt
  else if eq_str msg_type "signOut" then
    lsp_request "signOut" (JDict []) req_id >> ret tt
  else if eq_str msg_type "executeCommand" then
    let* command := lift (py_item msg "command") in
    let* arguments := lift (py_get_default msg "arguments" (JList [])) in
    lsp_request "workspace/executeCommand"
      (JDict [("command", command); ("arguments", arguments)]%string)
      req_id >> ret tt
  else if eq_str msg_type "didAcceptCompletion" then
    let* cmd := lift (py_get msg "command") in
    if truthy cmd then
      let* command := lift (py_get cmd "command") in
      let* arguments := lift (py_get_default cmd "arguments" (JList [])) in
      lsp_notify "workspace/executeCommand"
        (JDict [("command", command); ("arguments", arguments)]%string)
    else ret tt
  else if eq_str msg_type "didShowCompletion" then
    let* item := lift (py_get_default msg "item" (JDict [])) in
    lsp_notify "textDocument/didShowCompletion"
      (JDict [("item", item)]%string)
  else
    ret tt.

(** *** The two loops, over any handler

    [read_lsp_messages] and [cmd_file_watcher] are written over the handler
    they call, so that the same definitions give the run of the bridge (the
    handlers above) and the plain sequence of messages handed over (a
    handler that records its argument). *)

Section Loops.

Context {St : Type}.
Variable handle : json -> M St unit.

Record reader : Type := mkReader {
  rd_buf : bytes;              (** [buf] *)
  rd_state : St;
  rd_status : reader_status
}.

(** An exception that leaves the [try] of the outer loop: [OSError] and
    [ValueError] are caught there and end the loop. *)
Definition after_raise (e : exn) : reader_status :=
  match e with
  | ValueError => Exited
  | _ => Died e
  end.

(** The inner [while True].  [fuel] bounds the number of iterations; a run
    that uses it up is reported as [Spinning]. *)
Fixpoint frames_loop (fuel : nat) (buf : bytes) (s : St) : reader :=
  match fuel with
  | O => mkReader buf s Spinning
  | S fuel' =>
      match frame_step buf with
      | NeedMore => mkReader buf s Reading
      | NoLength rest => mkReader rest s Reading
      | HeaderError e => mkReader buf s (after_raise e)
      | Frame body rest =>
          match json_loads body with
          | None => frames_loop fuel' rest s
          | Some msg =>
              match handle msg s with
              | (Return _, s') => frames_loop fuel' rest s'
              | (Raise e, s') => mkReader rest s' (after_raise e)
              end
          end
      end
  end.

(** One turn of the outer loop on the chunk that [read1] returns; the empty
    chunk is the end of the stream.  (A set [shutdown_event] and an
    [OSError] of [read1] end the loop the same way.) *)
Definition read_chunk (chunk : bytes) (r : reader) : reader :=
  match rd_status r with
  | Reading =>
      match chunk with
      | [] => mkReader (rd_buf r) (rd_state r) Exited
      | _ =>
          let buf := rd_buf r ++ chunk in
          frames_loop (S (length buf)) buf (rd_state r)
      end
  | _ => r
  end.

Definition read_chunks (chunks : list bytes) (r : reader) : reader :=
  fold_left (fun r chunk => read_chunk chunk r) chunks r.

(** What one poll of the command log sees. *)
Inductive cmd_obs : Type :=
| NoFile
    (** the file is missing, or opening or reading it raised [OSError] *)
| FileText (text : bytes) (size : option nat).
    (** the text of the file when it is read, and what [os.path.getsize]
        answers afterwards, if asked ([None]: it raised [OSError]) *)

(** [for line in ...: if line.strip(): try: ... except (JSONDecodeError,
    KeyError)] *)
Fixpoint dispatch_lines (lines : list bytes) : M St unit :=
  match lines with
  | [] => ret tt
  | line :: rest =>
      match str_strip line with
      | [] => ret tt
      | _ =>
          match json_loads line with
          | None => ret tt
          | Some msg => except_KeyError (handle msg)
          end
      end >> dispatch_lines rest
  end.

(** The offset after [f.seek(last_pos); f.read(); f.tell()]. *)
Definition tell_after_read (last_pos : nat) (text : bytes) : nat :=
  Nat.max last_pos (length text).

(** One iteration of the loop of [cmd_file_watcher]; the result is the new
    [last_pos]. *)
Definition cmd_poll (obs : cmd_obs) (last_pos : nat) : M St nat :=
  match obs with
  | NoFile => ret last_pos
  | FileText text size =>
      let new_data := drop last_pos text in
      let last_pos' := tell_after_read last_pos text in
      match new_data with
      | [] =>
          ret match size with
              | Some sz => if (sz <? last_pos')%nat then O else last_pos'
              | None => last_pos'
              end
      | _ =>
          dispatch_lines (split (str_strip new_data) NEWLINE) >>
          ret last_pos'
      end
  end.

Fixpoint cmd_polls (polls : list cmd_obs) (last_pos : nat) : M St nat :=
  match polls with
  | [] => ret last_pos
  | obs :: rest =>
      let* p := cmd_poll obs last_pos in
      cmd_polls rest p
  end.

End Loops.

Arguments reader : clear implicits.
Arguments mkReader {St} _ _ _.

(** A handler that only records what it is given. *)
Definition record_message (msg : json) : M (list json) unit :=
  fun seen => (Return tt, seen ++ [msg]).

(** The reader thread of the bridge, on the chunks its reads return.  The
    thread is started once the server has been spawned, so [proc] is set;
    when the loop is left the event [serverStopped] is written. *)
Definition read_lsp_messages (chunks : list bytes) (st : bridge)
    : reader bridge :=
  let r := read_chunks handle_lsp_message chunks (mkReader [] st Reading) in
  match rd_status r with
  | Exited =>
      mkReader (rd_buf r)
               (add_resp (JDict [("type", JStr "serverStopped")]%string)
                         (rd_state r))
               Exited
  | _ => r
  end.

(** The messages that a run of the reader hands to its handler. *)
Definition decoded (chunks : list bytes) : list json :=
  rd_state (read_chunks record_message chunks (mkReader [] [] Reading)).

(** The watcher thread of the bridge, on what its polls see. *)
Definition cmd_file_watcher (polls : list cmd_obs) : M bridge nat :=
  cmd_polls handle_plugin_message polls O.

(** The commands that a run of the watcher hands to its handler. *)
Definition delivered (polls : list cmd_obs) (last_pos : nat) : list json :=
  snd (cmd_polls record_message polls last_pos []).


(** What the handler is given for a list of frames, one after the other:
    the reader after the bodies that parse have been handled, [rest] being
    what follows the frames in the buffer. *)
Fixpoint deliver_frames {St : Type} (handle : json -> M St unit)
    (fs : list frame) (rest : bytes) (s : St) : reader St :=
  match fs with
  | [] => mkReader rest s Reading
  | f :: fs' =>
      match json_loads (snd f) with
      | None => deliver_frames handle fs' rest s
      | Some msg =>
          match handle msg s with
          | (Return _, s') => deliver_frames handle fs' rest s'
          | (Raise e, s') => mkReader (stream fs' ++ rest) s' (after_raise e)
          end
      end
  end.

(** The buffer [rest] holds nothing, or a frame of [todo] in part. *)
Definition partial (rest : bytes) (todo : list frame) : Prop :=
  rest = [] \/
  exists f todo' t, todo = f :: todo' /\ rest ++ t = frame_bytes f /\ t <> [].

(** Two readers that cannot be told apart: same state of the handler, same
    status and, while reading, the same buffer. *)
Definition agrees {St : Type} (r r' : reader St) : Prop :=
  rd_state r = rd_state r' /\
  rd_status r = rd_status r' /\
  (rd_status r' = Reading -> rd_buf r = rd_buf r').

(** The fields of a message that carry meaning. *)
Definition semantic_fields : list string :=
  ["id"; "method"; "params"; "result"; "error"]%string.

Definition same_fields (m m' : json) : Prop :=
  Forall (fun key => py_get m' key = py_get m key) semantic_fields.

(** *** The registry along a run of the bridge *)

(** What reaches the bridge: a command of the plugin, read by the watcher
    thread, or a message of the language server, read by the reader
    thread. *)
Inductive input : Type :=
| FromPlugin (msg : json)
| FromServer (msg : json).

(** The state after one input has been handled, whether the handler
    returned or raised. *)
Definition bridge_step (i : input) (st : bridge) : bridge :=
  match i with
  | FromPlugin msg => snd (except_KeyError (handle_plugin_message msg) st)
  | FromServer msg => snd (handle_lsp_message msg st)
  end.

Definition bridge_run (inputs : list input) (st : bridge) : bridge :=
  fold_left (fun st i => bridge_step i st) inputs st.

(** Every registered id has been handed out by the counter. *)
Definition bounded (st : bridge) : Prop :=
  forall k e, pending_requests st !! k = Some e -> k <= request_counter st.

(** What a handler may do to the registry: the counter does not go back,
    and an entry of the new registry was there before or sits at an id
    handed out in between. *)
Definition registry_step (st st' : bridge) : Prop :=
  request_counter st <= request_counter st' /\
  forall k e,
    pending_requests st' !! k = Some e ->
    pending_requests st !! k = Some e \/
    request_counter st < k <= request_counter st'.

Definition preserves {A : Type} (m : M bridge A) : Prop :=
  forall st, registry_step st (snd (m st)).

(** A computation that leaves the registry and the counter alone. *)
Definition keeps_registry {A : Type} (m : M bridge A) : Prop :=
  forall st,
    pending_requests (snd (m st)) = pending_requests st /\
    request_counter (snd (m st)) = request_counter st.

(** A message with an id and no method: a response. *)
Definition is_response (kv : list (string * json)) : Prop :=
  dict_get kv "id" <> JNull /\ dict_get kv "method" = JNull.

(** The event written for a response that carries an error. *)
Definition error_event (plugin_req_id error : json) : json :=
  JDict [("type", JStr "error"); ("id", plugin_req_id);
         ("error", error)]%string.

(** What the bridge does with the response to a registered request. *)
Definition translate (req_method : string) (plugin_req_id : json)
    (kv : list (string * json)) : M bridge unit :=
  if truthy (dict_get kv "error")
  then write_resp (error_event plugin_req_id (dict_get kv "error"))
  else dispatch_lsp_response req_method plugin_req_id (dict_get kv "result").

(** The normalized completion items, in the words of the specification:
    the [items] list of the result (no item when the result is absent or
    holds no such list), and
    for each item its [insertText] (the empty string by default), [range]
    and [command]. *)
Definition spec_items_of (result : json) : option (list json) :=
  match result with
  | JDict r =>
      match dict_get_default r "items" (JList []) with
      | JList its => Some its
      | _ => None
      end
  | _ => Some []
  end.

Definition spec_normalize_item (item : json) : option json :=
  match item with
  | JDict ikv =>
      Some (JDict [("insertText", dict_get_default ikv "insertText" (JStr ""));
                   ("range", dict_get ikv "range");
                   ("command", dict_get ikv "command")]%string)
  | _ => None
  end.

(** *** Polls of the command log *)

(** The poll sees a file that has shrunk below the offset: nothing is left
    to read and the size is smaller than the offset. *)
Definition sees_truncation (obs : cmd_obs) (last_pos : nat) : Prop :=
  exists text sz,
    obs = FileText text (Some sz) /\
    (length text <= last_pos)%nat /\ (sz < last_pos)%nat.

(** The command, if any, that a line of the log gives. *)
Definition command_of (line : bytes) : option json :=
  match str_strip line with
  | [] => None
  | _ => json_loads line
  end.

(** The offset after a poll, and the commands the poll hands over. *)
Definition poll_offset (obs : cmd_obs) (last_pos : nat) : nat :=
  match obs with
  | NoFile => last_pos
  | FileText text size =>
      let last_pos' := tell_after_read last_pos text in
      match drop last_pos text, size with
      | [], Some sz => if (sz <? last_pos')%nat then O else last_pos'
      | _, _ => last_pos'
      end
  end.

Definition poll_commands (obs : cmd_obs) (last_pos : nat) : list json :=
  match obs with
  | NoFile => []
  | FileText text _ =>
      match drop last_pos text with
      | [] => []
      | new_data => omap command_of (split (str_strip new_data) NEWLINE)
      end
  end.

(** The claim that nothing consumed is delivered again, for a log that held
    [before], was read to its end, was cut down to [after] and was then left
    alone for two polls. *)
Definition stale_not_redelivered (before after : bytes) : Prop :=
  delivered [FileText before None;
             FileText after (Some (length after));
             FileText after (Some (length after))] O
  = delivered [FileText before None] O.

(** The claim that handling a message writes an event to the response log
    and a reply to the language server. *)
Definition event_and_reply (msg : json) (st : bridge) : Prop :=
  let st' := snd (handle_lsp_message msg st) in
  (exists event, resp st' = resp st ++ [event]) /\
  (exists reply, lsp_stdin st' = lsp_stdin st ++ lsp_frame (json_dumps reply)).

(** The methods that [handle_lsp_message] knows. *)
Definition recognized_methods : list string :=
  ["$/logTrace"; "$/progress"; "window/logMessage"; "window/showMessage";
   "window/showMessageRequest"; "window/showDocument";
   "workspace/configuration"; "copilot/didChangeStatus"; "didChangeStatus";
   "statusNotification"]%string.

(** *** What the handlers write *)

(** The bytes that [lsp_send] writes for a list of messages, one frame
    after the other. *)
Definition frames_of (msgs : list json) : bytes :=
  concat (map (fun m => lsp_frame (json_dumps m)) msgs).

(** A JSON-RPC object, [{"jsonrpc": "2.0", ...}], and an event of the
    response log, [{"type": "...", ...}]. *)
Definition is_rpc (m : json) : Prop := exists fields, m = rpc fields.

Definition is_event (ev : json) : Prop :=
  exists ty fields, ev = JDict (("type"%string, JStr ty) :: fields).

(** From [st] to [st'] the events [evs] have been appended to the response
    log and the frames of [msgs] to the standard input of the language
    server, and the server is running or not as before. *)
Definition wrote (evs msgs : list json) (st st' : bridge) : Prop :=
  lsp_running st' = lsp_running st /\
  resp st' = resp st ++ evs /\
  lsp_stdin st' = lsp_stdin st ++ frames_of msgs.

(** A computation that writes at most [e] events and [f] frames, all of
    them well formed, and no frame when the server is not running. *)
Definition effects {A : Type} (e f : nat) (m : M bridge A) : Prop :=
  forall st,
    exists evs msgs,
      wrote evs msgs st (snd (m st)) /\
      (length evs <= e)%nat /\ (length msgs <= f)%nat /\
      Forall is_event evs /\ Forall is_rpc msgs /\
      (lsp_running st = false -> msgs = []).

(** A computation that takes at most one request id, the next one, and
    registers at most one entry, under that id. *)
Definition allocates {A : Type} (m : M bridge A) : Prop :=
  forall st,
    let st' := snd (m st) in
    (pending_requests st' = pending_requests st /\
     request_counter st' = request_counter st) \/
    (request_counter st' = request_counter st + 1 /\
     (pending_requests st' = pending_requests st \/
      exists entry,
        pending_requests st'
        = <[request_counter st + 1 := entry]> (pending_requests st))).

(** The input is a response that carries the id [k]. *)
Definition answers (k : Z) (i : input) : Prop :=
  exists kv,
    i = FromServer (JDict kv) /\ is_response kv /\
    int_key (dict_get kv "id") = Return (Some k).

Definition from_server (i : input) : bool :=
  match i with FromServer _ => true | FromPlugin _ => false end.

(** *** Commands of the plugin, by type *)

(** The commands that [handle_plugin_message] turns into a request, with
    the method of the request. *)
Definition request_method (msg_type : json) : option string :=
  if eq_str msg_type "initialize" then Some "initialize"%string
  else if eq_str msg_type "inlineCompletion"
  then Some "textDocument/inlineCompletion"%string
  else if eq_str msg_type "signIn" then Some "signIn"%string
  else if eq_str msg_type "signOut" then Some "signOut"%string
  else if eq_str msg_type "executeCommand"
  then Some "workspace/executeCommand"%string
  else None.

(** The fields that a command must have: those read with [msg[...]]. *)
Definition required_fields (msg_type : json) : list string :=
  if eq_str msg_type "openDocument" || eq_str msg_type "changeDocument"
     || eq_str msg_type "closeDocument"
  then ["uri"]%string
  else if eq_str msg_type "inlineCompletion" then ["uri"; "position"]%string
  else if eq_str msg_type "executeCommand" then ["command"]%string
  else [].

(** The types of command that [handle_plugin_message] knows. *)
Definition command_types : list string :=
  ["initialize"; "configuration"; "openDocument"; "changeDocument";
   "closeDocument"; "focusDocument"; "inlineCompletion"; "signIn"; "signOut";
   "executeCommand"; "didAcceptCompletion"; "didShowCompletion"]%string.

(** The fields of a command on which the handler calls a method that not
    every value has: the [workspaceFolders] of [initialize] are iterated,
    and the [command] of [didAcceptCompletion], when it is not empty, is
    asked for its fields. *)
Definition command_shape_ok (kv : list (string * json)) : bool :=
  if eq_str (dict_get kv "type") "initialize" then
    match py_iter (dict_get_default kv "workspaceFolders" (JList [])) with
    | Return _ => true
    | Raise _ => false
    end
  else if eq_str (dict_get kv "type") "didAcceptCompletion" then
    negb (truthy (dict_get kv "command")) || is_dict (dict_get kv "command")
  else true.

(** A line of the command log that cannot stop the watcher: blank, or not
    JSON, or an object of the shape above. *)
Definition harmless_line (line : bytes) : Prop :=
  str_strip line = [] \/
  json_loads line = None \/
  exists kv, json_loads line = Some (JDict kv) /\ command_shape_ok kv = true.

(** *** A log that grows by whole lines *)

(** A line as the plugin writes it: ASCII, without a line end inside, and
    with something else than whitespace at both ends. *)
Definition clean_line (l : bytes) : bool :=
  forallb (fun c => negb (Byte.eqb c LF) && negb (Byte.eqb c CR)
                    && (Byte.to_N c <? 128)%N) l
  && match head l with Some c => negb (is_str_space c) | None => false end
  && match last l with Some d => negb (is_str_space d) | None => false end.

(** The text of a log that holds the lines, each ended by a newline. *)
Definition log_text (lines : list bytes) : bytes :=
  concat (map (fun l => l ++ NEWLINE) lines).

(** What the polls see when batches of lines are appended to a log that
    holds the lines [before], one poll after each batch; a batch may be
    empty. *)
Fixpoint batch_polls (before : list bytes) (batches : list (list bytes))
    : list cmd_obs :=
  match batches with
  | [] => []
  | b :: bs =>
      let text := log_text (before ++ b) in
      FileText text (Some (length text)) :: batch_polls (before ++ b) bs
  end.

(** *** Calls of the server, by method *)

(** The methods whose handling reads the [params] of the message. *)
Definition reads_params : list string :=
  ["window/logMessage"; "window/showMessage"; "window/showMessageRequest";
   "window/showDocument"; "workspace/configuration";
   "copilot/didChangeStatus"; "didChangeStatus";
   "statusNotification"]%string.

(** The [params] on which the handler calls nothing a value may lack: for
    the methods above, [params] is absent or an object, and the [items] of
    a [workspace/configuration] have a length. *)
Definition params_ok (kv : list (string * json)) : bool :=
  if existsb (eq_str (dict_get kv "method")) reads_params then
    match dict_get_default kv "params" (JDict []) with
    | JDict p =>
        if eq_str (dict_get kv "method") "workspace/configuration" then
          match py_len (dict_get_default p "items" (JList [])) with
          | Return _ => true
          | Raise _ => false
          end
        else true
    | _ => false
    end
  else true.

(** *** Responses, by method of the request *)

(** The type of the event written for the response to a request. *)
Definition response_event_type (method : string) : string :=
  if String.eqb method "initialize" then "initialized"
  else if String.eqb method "textDocument/inlineCompletion"
  then "completionResult"
  else if String.eqb method "signIn" then "signInResult"
  else if String.eqb method "signOut" then "signOutResult"
  else if String.eqb method "workspace/executeCommand" then "commandResult"
  else "lspResponse".

(** The results on which the translation calls nothing a value may lack:
    for a completion, a result that is an object and not empty holds
    [items] that can be iterated and are objects; for [signIn], a result
    that is not empty is an object. *)
Definition response_shape_ok (method : string) (result : json) : bool :=
  if String.eqb method "textDocument/inlineCompletion" then
    negb (truthy result && is_dict result)
    || match obind (py_get_default result "items" (JList [])) py_iter with
       | Return l => forallb is_dict l
       | Raise _ => false
       end
  else if String.eqb method "signIn" then
    negb (truthy result) || is_dict result
  else true.

(* ===================================================================== *)
(** ** Facts about [bytes]                                                *)
(* ===================================================================== *)

Lemma startswith_app (p r : bytes) : startswith (p ++ r) p = true.
Proof.
  induction p as [|c p IH]; [reflexivity|].
  cbn. rewrite IH, andb_true_r. now apply byte_dec_lb.
Qed.

Lemma startswith_inv (s p : bytes) :
  startswith s p = true -> s = p ++ drop (length p) s.
Proof.
  revert s; induction p as [|c p IH]; intros s H; [reflexivity|].
  destruct s as [|d s]; [discriminate|]. cbn in H.
  apply andb_prop in H as [Hd Hs]. apply byte_dec_bl in Hd. subst d.
  cbn. f_equal. now apply IH.
Qed.

Lemma startswith_length (s p : bytes) :
  startswith s p = true -> (length p <= length s)%nat.
Proof.
  intros H. apply startswith_inv in H.
  apply (f_equal (@length byte)) in H. rewrite length_app in H. lia.
Qed.

(** A longer text starts with [p] exactly when the text did, once the text
    is at least as long as [p]. *)
Lemma startswith_extend (s e p : bytes) :
  (length p <= length s)%nat ->
  startswith (s ++ e) p = startswith s p.
Proof.
  revert s; induction p as [|c p IH]; intros s Hlen; [reflexivity|].
  destruct s as [|d s]; [cbn in Hlen; lia|].
  cbn. f_equal. apply IH. cbn in Hlen. lia.
Qed.

Lemma find_Some_bound (s sub : bytes) (i : nat) :
  find s sub = Some i -> (i + length sub <= length s)%nat.
Proof.
  revert i; induction s as [|c s IH]; intros i H.
  - cbn in H. destruct (startswith [] sub) eqn:E; [|discriminate].
    injection H as <-. apply startswith_length in E. cbn in *. lia.
  - cbn [find] in H. destruct (startswith (c :: s) sub) eqn:E.
    + injection H as <-. apply startswith_length in E. lia.
    + destruct (find s sub) as [j|] eqn:F; [|discriminate].
      injection H as <-. specialize (IH j eq_refl). cbn. lia.
Qed.

(** What [find] has found stays found when bytes are appended. *)
Lemma find_extend (s e sub : bytes) (i : nat) :
  find s sub = Some i -> find (s ++ e) sub = Some i.
Proof.
  revert i; induction s as [|c s IH]; intros i H.
  - cbn in H. destruct (startswith [] sub) eqn:E; [|discriminate].
    injection H as <-. destruct sub; [|discriminate].
    destruct e; reflexivity.
  - cbn [find] in H. destruct (startswith (c :: s) sub) eqn:E.
    + injection H as <-.
      change ((c :: s) ++ e) with (c :: (s ++ e)). cbn [find].
      change (c :: (s ++ e)) with ((c :: s) ++ e).
      rewrite startswith_extend by now apply startswith_length.
      now rewrite E.
    + destruct (find s sub) as [j|] eqn:F; [|discriminate].
      injection H as <-.
      change ((c :: s) ++ e) with (c :: (s ++ e)). cbn [find].
      change (c :: (s ++ e)) with ((c :: s) ++ e).
      rewrite startswith_extend.
      * rewrite E. now rewrite (IH j eq_refl).
      * apply find_Some_bound in F. cbn. lia.
Qed.

(** No occurrence in a text none of whose bytes is the first byte of the
    pattern; and the first occurrence after such a text is at its end. *)
Lemma startswith_head_ne (c d : byte) (s p : bytes) :
  c <> d -> startswith (c :: s) (d :: p) = false.
Proof.
  intros Hne. cbn. destruct (Byte.eqb c d) eqn:E; [|reflexivity].
  apply byte_dec_bl in E. contradiction.
Qed.

Lemma find_skip (h : bytes) (d : byte) (p r : bytes) :
  Forall (fun c => c <> d) h ->
  find (h ++ (d :: p) ++ r) (d :: p) = Some (length h).
Proof.
  induction 1 as [|c h Hc Hh IH].
  - change ([] ++ (d :: p) ++ r) with ((d :: p) ++ r).
    destruct ((d :: p) ++ r) eqn:E; [discriminate|].
    cbn [find]. rewrite <- E, startswith_app. reflexivity.
  - change ((c :: h) ++ (d :: p) ++ r) with (c :: (h ++ (d :: p) ++ r)).
    cbn [find]. rewrite startswith_head_ne by assumption.
    rewrite IH. reflexivity.
Qed.

Lemma find_absent (h : bytes) (d : byte) (p : bytes) :
  Forall (fun c => c <> d) h -> find h (d :: p) = None.
Proof.
  induction 1 as [|c h Hc Hh IH]; [reflexivity|].
  cbn [find]. rewrite startswith_head_ne by assumption.
  now rewrite IH.
Qed.

Lemma split_absent (h : bytes) (d : byte) (p : bytes) :
  Forall (fun c => c <> d) h -> split h (d :: p) = [h].
Proof.
  intros H. unfold split. destruct (length h); [reflexivity|].
  cbn [split_fuel]. now rewrite find_absent.
Qed.

Lemma lstrip_by_id (sp : byte -> bool) (s : bytes) :
  Forall (fun c => sp c = false) s -> lstrip_by sp s = s.
Proof. destruct 1 as [|c s Hc _]; [reflexivity|]. cbn. now rewrite Hc. Qed.

Lemma strip_by_id (sp : byte -> bool) (s : bytes) :
  Forall (fun c => sp c = false) s -> strip_by sp s = s.
Proof.
  intros H. unfold strip_by. rewrite (lstrip_by_id sp s H).
  rewrite lstrip_by_id, rev_involutive; [reflexivity|].
  now apply Forall_rev.
Qed.

(** Slices at indices inside the text. *)
Lemma slice_index_inside (len : nat) (i : nat) :
  (i <= len)%nat -> slice_index len (Z.of_nat i) = i.
Proof.
  intros H. unfold slice_index.
  destruct (Z.ltb_spec (Z.of_nat i) 0); [lia|].
  rewrite Nat2Z.id. lia.
Qed.

Lemma slice_middle (a b c : bytes) :
  slice (a ++ b ++ c) (Z.of_nat (length a))
        (Z.of_nat (length a) + Z.of_nat (length b)) = b.
Proof.
  unfold slice. rewrite <- Nat2Z.inj_add.
  rewrite !slice_index_inside by (rewrite !length_app; lia).
  rewrite drop_app_length.
  replace (length a + length b - length a)%nat with (length b) by lia.
  apply take_app_length.
Qed.

Lemma slice_from_middle (a b c : bytes) :
  slice_from (a ++ b ++ c)
             (Z.of_nat (length a) + Z.of_nat (length b)) = c.
Proof.
  unfold slice_from. rewrite <- Nat2Z.inj_add.
  rewrite slice_index_inside by (rewrite !length_app; lia).
  rewrite app_assoc, <- length_app. apply drop_app_length.
Qed.

(** *** Decimal lengths *)

Lemma bytes_of_uint_digits (u : Decimal.uint) :
  Forall is_digit (bytes_of_uint u).
Proof.
  induction u; cbn; constructor; try assumption; unfold is_digit; cbn; eauto.
Qed.

Lemma int_digits_of_uint (u : Decimal.uint) (a : nat) (b : bool) :
  u <> Nil \/ b = true ->
  int_digits (bytes_of_uint u) (Z.of_nat a) b
  = Some (Z.of_nat (Nat.of_uint_acc u a)).
Proof.
  revert a b; induction u; intros a b Hne;
    cbn [bytes_of_uint int_digits digit_of Nat.of_uint_acc];
    try match goal with
        | |- int_digits _ ?z true = Some (Z.of_nat (Nat.of_uint_acc _ ?m)) =>
            replace z with (Z.of_nat m) by (rewrite Nat.tail_mul_spec; lia);
            apply IHu; now right
        end.
  destruct Hne as [Hne | ->]; [contradiction|reflexivity].
Qed.

Lemma to_uint_not_nil (n : nat) : Nat.to_uint n <> Nil.
Proof.
  intros E. pose proof (DecimalNat.Unsigned.of_to n) as H. rewrite E in H. cbn in H.
  subst n. discriminate E.
Qed.

Lemma digit_not_space (c : byte) : is_digit c -> is_space c = false.
Proof. destruct c; intros [d Hd]; cbn in *; try discriminate; reflexivity. Qed.

Lemma digit_not_CR (c : byte) : is_digit c -> c <> CR.
Proof. intros [d Hd] ->. discriminate. Qed.

Lemma str_of_len_digits (n : nat) : Forall is_digit (str_of_len n).
Proof. apply bytes_of_uint_digits. Qed.

(** [int(str(n)) == n] for a length [n]. *)
Lemma py_int_str_of_len (n : nat) : py_int (str_of_len n) = Some (Z.of_nat n).
Proof.
  unfold py_int, strip.
  rewrite strip_by_id
    by (eapply Forall_impl; [apply str_of_len_digits|apply digit_not_space]).
  pose proof (str_of_len_digits n) as Hd.
  pose proof (int_digits_of_uint (Nat.to_uint n) 0 false
                (or_introl (to_uint_not_nil n))) as Hi.
  change (Nat.of_uint_acc (Nat.to_uint n) 0) with (Nat.of_uint (Nat.to_uint n)) in Hi.
  rewrite DecimalNat.Unsigned.of_to in Hi. unfold str_of_len in *.
  destruct (bytes_of_uint (Nat.to_uint n)) as [|c r] eqn:E.
  - cbn in Hi. discriminate.
  - inversion Hd as [|? ? [d Hc] _]; subst.
    destruct c; cbn in Hc; try discriminate; exact Hi.
Qed.

(* ===================================================================== *)
(** ** Frames                                                             *)
(* ===================================================================== *)

Lemma frame_bytes_length (f : frame) :
  length (frame_bytes f) = (length (fst f) + 4 + length (snd f))%nat.
Proof. unfold frame_bytes. rewrite !length_app. cbn. lia. Qed.

Lemma stream_cons (f : frame) (fs : list frame) :
  stream (f :: fs) = frame_bytes f ++ stream fs.
Proof. reflexivity. Qed.

Lemma stream_app (fs gs : list frame) :
  stream (fs ++ gs) = stream fs ++ stream gs.
Proof. unfold stream. now rewrite map_app, concat_app. Qed.

Lemma stream_length (fs : list frame) : (length fs <= length (stream fs))%nat.
Proof.
  induction fs as [|f fs IH]; [cbn; lia|].
  rewrite stream_cons, length_app, frame_bytes_length. cbn. lia.
Qed.

(** A complete well framed frame at the head of the buffer is cut off
    whole, whatever follows it. *)
Lemma frame_step_frame (f : frame) (rest : bytes) :
  well_framed f ->
  frame_step (frame_bytes f ++ rest) = Frame (snd f) rest.
Proof.
  destruct f as [hdr body]. intros [Hfind Hlen]. cbn [fst snd] in *.
  unfold frame_step, frame_bytes. cbn [fst snd].
  replace ((hdr ++ CRLFCRLF ++ body) ++ rest)
    with ((hdr ++ CRLFCRLF) ++ body ++ rest) by now rewrite <- !app_assoc.
  rewrite (find_extend _ _ _ _ Hfind).
  rewrite <- app_assoc, take_app_length, Hlen, app_assoc.
  replace (Z.of_nat (length hdr) + 4)
    with (Z.of_nat (length (hdr ++ CRLFCRLF)))
    by (rewrite length_app; cbn; lia).
  destruct (Z.ltb_spec (Z.of_nat (length ((hdr ++ CRLFCRLF) ++ body ++ rest)))
              (Z.of_nat (length (hdr ++ CRLFCRLF)) + Z.of_nat (length body)))
    as [Hlt|_].
  - rewrite !length_app in Hlt. lia.
  - now rewrite slice_middle, slice_from_middle.
Qed.

(** A buffer that holds a well framed frame only in part yields nothing:
    the decoder waits. *)
Lemma frame_step_body_partial (hdr e t : bytes) :
  well_framed (hdr, e ++ t) -> t <> [] ->
  frame_step ((hdr ++ CRLFCRLF) ++ e) = NeedMore.
Proof.
  intros [Hfind Hlen] Ht. cbn [fst snd] in *.
  unfold frame_step. rewrite (find_extend _ _ _ _ Hfind).
  rewrite <- app_assoc, take_app_length, Hlen.
  destruct (Z.ltb_spec
              (Z.of_nat (length (hdr ++ CRLFCRLF ++ e)))
              (Z.of_nat (length hdr) + 4 + Z.of_nat (length (e ++ t))))
    as [_|Hge]; [reflexivity|].
  rewrite !length_app in Hge. cbn in Hge.
  destruct t; [contradiction|cbn in Hge; lia].
Qed.

Lemma frame_step_partial (f : frame) (p t : bytes) :
  well_framed f -> p ++ t = frame_bytes f -> t <> [] ->
  frame_step p = NeedMore.
Proof.
  destruct f as [hdr body]. intros Hwf Heq Ht.
  unfold frame_bytes in Heq. cbn [fst snd] in Heq. rewrite app_assoc in Heq.
  apply app_eq_app in Heq as [e [[-> ->] | [He Heq]]].
  - (* the header block is complete *)
    now apply frame_step_body_partial with (t := t).
  - destruct e as [|c e].
    + rewrite app_nil_r in He. cbn in Heq. subst p t.
      rewrite <- (app_nil_r (hdr ++ CRLFCRLF)).
      now apply frame_step_body_partial with (t := body).
    + (* the terminator has not arrived in full *)
      destruct Hwf as [Hfind _]. cbn [fst snd] in Hfind.
      unfold frame_step.
      destruct (find p CRLFCRLF) as [i|] eqn:F; [|reflexivity].
      pose proof (find_Some_bound _ _ _ F) as Hb.
      apply (find_extend _ (c :: e)) in F. rewrite <- He, Hfind in F.
      injection F as <-. apply (f_equal (@length byte)) in He.
      rewrite !length_app in He. cbn in He, Hb. lia.
Qed.

Section LoopFacts.

Context {St : Type}.
Variable handle : json -> M St unit.

Lemma frames_loop_frames (fs : list frame) (rest : bytes) :
  Forall well_framed fs ->
  frame_step rest = NeedMore ->
  forall (fuel : nat) (s : St),
    (length fs < fuel)%nat ->
    frames_loop handle fuel (stream fs ++ rest) s
    = deliver_frames handle fs rest s.
Proof.
  intros Hwf Hrest. induction Hwf as [|f fs Hf Hfs IH]; intros fuel s Hfuel.
  - destruct fuel; [lia|]. cbn. now rewrite Hrest.
  - destruct fuel; [cbn in Hfuel; lia|].
    rewrite stream_cons, <- app_assoc. cbn [frames_loop deliver_frames].
    rewrite frame_step_frame by assumption.
    cbn in Hfuel.
    destruct (json_loads (snd f)) as [msg|]; [|apply IH; lia].
    destruct (handle msg s) as [[[]|e] s']; [apply IH; lia|reflexivity].
Qed.

End LoopFacts.

(** *** The frames of [lsp_send] *)

Lemma lsp_frame_frame_bytes (body : bytes) :
  lsp_frame body = frame_bytes (lsp_header body, body).
Proof. unfold lsp_frame, frame_bytes, lsp_header. cbn [fst snd]. now rewrite <- app_assoc. Qed.

Lemma lsp_header_no_CR (body : bytes) :
  Forall (fun c => c <> CR) (lsp_header body).
Proof.
  unfold lsp_header. apply Forall_app. split.
  - unfold content_length_hdr. repeat constructor; discriminate.
  - eapply Forall_impl; [apply str_of_len_digits|]. apply digit_not_CR.
Qed.

Lemma lsp_header_startswith (d : bytes) :
  startswith (lower (content_length_hdr ++ d)) content_length_lc = true.
Proof.
  unfold lower. rewrite map_app.
  change (map byte_lower content_length_hdr)
    with (content_length_lc ++ [" "%byte]).
  rewrite <- app_assoc. apply startswith_app.
Qed.

Lemma lsp_header_value (d : bytes) :
  Forall is_digit d ->
  strip (drop (14 + 1) (content_length_hdr ++ d)) = d.
Proof.
  intros Hd. change (drop (14 + 1) (content_length_hdr ++ d)) with (" "%byte :: d).
  unfold strip, strip_by. cbn [lstrip_by is_space].
  apply (strip_by_id is_space).
  eapply Forall_impl; [exact Hd|apply digit_not_space].
Qed.

Lemma lsp_header_content_length (body : bytes) :
  header_content_length (split (lsp_header body) CRLF)
  = Some (Return (Z.of_nat (length body))).
Proof.
  unfold CRLF. rewrite split_absent by apply lsp_header_no_CR.
  unfold lsp_header. cbn [header_content_length].
  rewrite lsp_header_startswith.
  change (find (content_length_hdr ++ str_of_len (length body)) COLON)
    with (Some 14%nat).
  cbv beta iota.
  rewrite lsp_header_value by apply str_of_len_digits.
  now rewrite py_int_str_of_len.
Qed.

(** [lsp_send] writes well framed frames. *)
Lemma lsp_frame_well_framed (body : bytes) :
  well_framed (lsp_header body, body).
Proof.
  split; cbn [fst snd]; [|apply lsp_header_content_length].
  pose proof (find_skip (lsp_header body) CR [LF; CR; LF] []
                (lsp_header_no_CR body)) as H.
  now rewrite app_nil_r in H.
Qed.

(** *** Streams cut into chunks *)

Lemma frame_bytes_not_nil (f : frame) : frame_bytes f <> [].
Proof.
  intros E. apply (f_equal (@length byte)) in E.
  rewrite frame_bytes_length in E. cbn in E. lia.
Qed.

Lemma partial_NeedMore (rest : bytes) (todo : list frame) :
  Forall well_framed todo -> partial rest todo -> frame_step rest = NeedMore.
Proof.
  intros Hwf [-> | (f & todo' & t & -> & Heq & Ht)]; [reflexivity|].
  inversion Hwf; subst. now apply frame_step_partial with (f := f) (t := t).
Qed.

(** Any prefix of a stream of frames is some of the frames and a part of
    the next. *)
Lemma split_prefix (fs : list frame) :
  forall q e : bytes,
    q ++ e = stream fs ->
    exists done todo rest,
      fs = done ++ todo /\ q = stream done ++ rest /\
      partial rest todo /\ rest ++ e = stream todo.
Proof.
  induction fs as [|f fs IH]; intros q e Heq.
  - cbn in Heq. apply app_eq_nil in Heq as [-> ->].
    exists [], [], []. repeat split; try reflexivity. now left.
  - rewrite stream_cons in Heq.
    apply app_eq_app in Heq as [l [[-> Hl] | [Hf ->]]].
    + destruct (IH l e (eq_sym Hl)) as (done & todo & rest & -> & -> & Hp & Hr).
      exists (f :: done), todo, rest. repeat split; try assumption.
      now rewrite stream_cons, app_assoc.
    + destruct l as [|c l].
      * rewrite app_nil_r in Hf. subst q.
        exists [f], fs, []. repeat split.
        -- cbn. now rewrite !app_nil_r.
        -- now left.
      * exists [], (f :: fs), q. repeat split.
        -- right. exists f, fs, (c :: l). repeat split; [now symmetry|discriminate].
        -- rewrite stream_cons, Hf. now rewrite <- app_assoc.
Qed.

Section ChunkFacts.

Context {St : Type}.
Variable handle : json -> M St unit.

Lemma after_raise_not_Reading (e : exn) : after_raise e <> Reading.
Proof. destruct e; discriminate. Qed.

Lemma deliver_frames_Reading (d : list frame) (rest : bytes) (s : St) :
  rd_status (deliver_frames handle d rest s) = Reading ->
  rd_buf (deliver_frames handle d rest s) = rest.
Proof.
  revert s; induction d as [|f d IH]; intros s H; [reflexivity|].
  cbn [deliver_frames] in *.
  destruct (json_loads (snd f)) as [msg|]; [|now apply IH].
  destruct (handle msg s) as [[[]|e] s']; [now apply IH|].
  cbn in H. now apply after_raise_not_Reading in H.
Qed.

(** The frames handled so far decide how the next ones are handled. *)
Lemma deliver_frames_app (d1 d2 : list frame) (rest1 rest2 : bytes) (s : St) :
  let r1 := deliver_frames handle d1 rest1 s in
  (rd_status r1 = Reading ->
   deliver_frames handle (d1 ++ d2) rest2 s
   = deliver_frames handle d2 rest2 (rd_state r1)) /\
  (rd_status r1 <> Reading ->
   rd_state (deliver_frames handle (d1 ++ d2) rest2 s) = rd_state r1 /\
   rd_status (deliver_frames handle (d1 ++ d2) rest2 s) = rd_status r1).
Proof.
  revert s; induction d1 as [|f d1 IH]; intros s; cbn zeta.
  - cbn. split; [reflexivity|congruence].
  - cbn [deliver_frames app].
    destruct (json_loads (snd f)) as [msg|]; [|apply IH].
    destruct (handle msg s) as [[[]|e] s']; [apply IH|].
    cbn. split; [|easy]. intros H. now apply after_raise_not_Reading in H.
Qed.

Lemma read_chunks_cons (c : bytes) (cs : list bytes) (r : reader St) :
  read_chunks handle (c :: cs) r = read_chunks handle cs (read_chunk handle c r).
Proof. reflexivity. Qed.

Lemma read_chunks_stopped (chunks : list bytes) (r : reader St) :
  rd_status r <> Reading -> read_chunks handle chunks r = r.
Proof.
  intros H. induction chunks as [|c cs IH]; [reflexivity|].
  rewrite read_chunks_cons. unfold read_chunk.
  destruct (rd_status r); [contradiction| | |]; exact IH.
Qed.

Lemma read_chunk_frames (c rest : bytes) (s : St) (done : list frame)
    (rest' : bytes) (todo : list frame) :
  c <> [] -> Forall well_framed done -> Forall well_framed todo ->
  partial rest' todo ->
  rest ++ c = stream done ++ rest' ->
  read_chunk handle c (mkReader rest s Reading)
  = deliver_frames handle done rest' s.
Proof.
  intros Hc Hdone Htodo Hp Heq. unfold read_chunk. cbn [rd_status rd_buf rd_state].
  destruct c as [|b c]; [contradiction|]. rewrite Heq.
  apply frames_loop_frames; [assumption|now apply partial_NeedMore with todo|].
  rewrite length_app. pose proof (stream_length done). lia.
Qed.

(** The reader fed chunk by chunk has handled the frames that have arrived
    in full, in their order, and keeps the part of the next one. *)
Lemma read_chunks_frames (chunks : list bytes) :
  forall (todo : list frame) (rest e : bytes) (s : St),
    Forall well_framed todo ->
    Forall (fun c => c <> []) chunks ->
    partial rest todo ->
    rest ++ concat chunks ++ e = stream todo ->
    exists done todo' rest',
      todo = done ++ todo' /\
      rest ++ concat chunks = stream done ++ rest' /\
      partial rest' todo' /\ rest' ++ e = stream todo' /\
      agrees (read_chunks handle chunks (mkReader rest s Reading))
             (deliver_frames handle done rest' s).
Proof.
  induction chunks as [|c cs IH]; intros todo rest e s Hwf Hne Hp Heq.
  - exists [], todo, rest. cbn in *. rewrite app_nil_r.
    repeat split; try assumption; reflexivity.
  - inversion Hne as [|? ? Hc Hcs]; subst.
    cbn [concat] in Heq.
    assert (Hq : (rest ++ c) ++ (concat cs ++ e) = stream todo)
      by now rewrite <- !app_assoc in *.
    destruct (split_prefix todo _ _ Hq)
      as (done1 & todo1 & rest1 & -> & Hrc & Hp1 & Hr1).
    apply Forall_app in Hwf as [Hwf1 Hwf2].
    rewrite read_chunks_cons.
    rewrite (read_chunk_frames c rest s done1 rest1 todo1) by assumption.
    set (r1 := deliver_frames handle done1 rest1 s).
    destruct (IH todo1 rest1 e (rd_state r1) Hwf2 Hcs Hp1 Hr1)
      as (done2 & todo2 & rest2 & -> & Hrc2 & Hp2 & Hr2 & Hag).
    exists (done1 ++ done2), todo2, rest2.
    split; [now rewrite app_assoc|]. split.
    { cbn [concat]. rewrite app_assoc, Hrc, <- app_assoc, Hrc2.
      now rewrite stream_app, app_assoc. }
    do 2 (split; [assumption|]).
    destruct (deliver_frames_app done1 done2 rest1 rest2 s) as [Hgo Hstop].
    fold r1 in Hgo, Hstop.
    destruct (rd_status r1) eqn:Hrd.
    + pose proof (deliver_frames_Reading done1 rest1 s Hrd) as Hb.
      fold r1 in Hb. rewrite (Hgo eq_refl).
      replace r1 with (mkReader rest1 (rd_state r1) Reading)
        by (destruct r1; cbn in *; congruence).
      exact Hag.
    + rewrite read_chunks_stopped by congruence.
      destruct Hstop as [Hs Hst]; [discriminate|].
      repeat split; try congruence.
    + rewrite read_chunks_stopped by congruence.
      destruct Hstop as [Hs Hst]; [discriminate|].
      repeat split; try congruence.
    + rewrite read_chunks_stopped by congruence.
      destruct Hstop as [Hs Hst]; [discriminate|].
      repeat split; try congruence.
Qed.

End ChunkFacts.

Lemma stream_nil_inv (fs : list frame) : stream fs = [] -> fs = [].
Proof.
  destruct fs as [|f fs]; [reflexivity|]. rewrite stream_cons. intros E.
  apply app_eq_nil in E as [E _]. now apply frame_bytes_not_nil in E.
Qed.

Lemma partial_whole (rest : bytes) (todo : list frame) :
  partial rest todo -> rest = stream todo -> todo = [] /\ rest = [].
Proof.
  intros [-> | (f & todo' & t & -> & Heq & Ht)] Hs.
  - split; [|reflexivity]. now apply stream_nil_inv.
  - exfalso. rewrite stream_cons in Hs. subst rest.
    apply (f_equal (@length byte)) in Heq. rewrite !length_app in Heq.
    destruct t; [contradiction|cbn in Heq; lia].
Qed.

Section WholeStream.

Context {St : Type}.
Variable handle : json -> M St unit.

(** However a stream of well framed frames is cut into chunks, the reader
    ends as if each frame had been handed over in turn. *)
Lemma read_chunks_whole (frames : list frame) (chunks : list bytes) (s : St) :
  Forall well_framed frames ->
  Forall (fun c => c <> []) chunks ->
  concat chunks = stream frames ->
  agrees (read_chunks handle chunks (mkReader [] s Reading))
         (deliver_frames handle frames [] s).
Proof.
  intros Hwf Hne Heq.
  destruct (read_chunks_frames handle chunks frames [] [] s Hwf Hne)
    as (done & todo & rest & -> & Hcat & Hp & Hr & Hag).
  - now left.
  - cbn. now rewrite app_nil_r.
  - rewrite app_nil_r in Hr.
    destruct (partial_whole rest todo Hp Hr) as [-> ->].
    now rewrite app_nil_r.
Qed.

(** The state the handler reaches does not depend on the cut. *)
Lemma read_chunks_any_split (frames : list frame) (chunks : list bytes)
    (s : St) :
  Forall well_framed frames ->
  Forall (fun c => c <> []) chunks ->
  concat chunks = stream frames ->
  rd_state (read_chunks handle chunks (mkReader [] s Reading))
  = rd_state (read_chunks handle [concat chunks] (mkReader [] s Reading)).
Proof.
  intros Hwf Hne Heq.
  destruct (read_chunks_whole frames chunks s Hwf Hne Heq) as (-> & _).
  destruct frames as [|f fs].
  - cbn in Heq. rewrite Heq. reflexivity.
  - destruct (read_chunks_whole (f :: fs) [concat chunks] s Hwf) as (-> & _);
      [|cbn; now rewrite app_nil_r|reflexivity].
    constructor; [|constructor]. rewrite Heq, stream_cons. intros E.
    apply app_eq_nil in E as [E _]. now apply frame_bytes_not_nil in E.
Qed.

End WholeStream.

Lemma deliver_frames_record (fs : list frame) (rest : bytes) (seen : list json) :
  deliver_frames record_message fs rest seen
  = mkReader rest (seen ++ omap json_loads (map snd fs)) Reading.
Proof.
  revert seen; induction fs as [|f fs IH]; intros seen.
  - cbn. now rewrite app_nil_r.
  - cbn [deliver_frames map]. change (omap json_loads (snd f :: map snd fs))
      with (match json_loads (snd f) with
            | Some msg => msg :: omap json_loads (map snd fs)
            | None => omap json_loads (map snd fs)
            end).
    destruct (json_loads (snd f)) as [msg|]; [|apply IH].
    cbn. rewrite IH. now rewrite <- app_assoc.
Qed.

(** *** The bound on the inner loop

    One turn of the inner loop never makes the buffer longer, and leaves it
    as long as it was only if it leaves it as it was.  So a run that uses
    up more turns than the buffer has bytes has met a buffer that one turn
    maps to itself: the loop of the source does not end there. *)

Lemma slice_from_length (buf : bytes) (i : Z) :
  (length (slice_from buf i) <= length buf)%nat /\
  (length (slice_from buf i) = length buf -> slice_from buf i = buf).
Proof.
  unfold slice_from. rewrite length_drop. split; [lia|].
  intros H. destruct buf as [|c buf]; [now rewrite drop_nil|].
  cbn [length] in *.
  replace (slice_index (S (length buf)) i) with O by lia. reflexivity.
Qed.

Lemma frame_step_Frame_rest (buf body rest : bytes) :
  frame_step buf = Frame body rest ->
  (length rest <= length buf)%nat /\
  (length rest = length buf -> rest = buf).
Proof.
  unfold frame_step. destruct (find buf CRLFCRLF) as [i|]; [|discriminate].
  destruct (header_content_length _) as [[n|e]|]; try discriminate.
  destruct (_ <? _); [discriminate|]. intros [= _ <-].
  apply slice_from_length.
Qed.

Lemma frames_loop_spinning {St : Type} (handle : json -> M St unit)
    (fuel : nat) :
  forall (buf : bytes) (s : St),
    (length buf < fuel)%nat ->
    rd_status (frames_loop handle fuel buf s) = Spinning ->
    exists stuck body, frame_step stuck = Frame body stuck.
Proof.
  induction fuel as [|fuel IH]; intros buf s Hlen Hspin; [lia|].
  cbn [frames_loop] in Hspin.
  destruct (frame_step buf) as [|rest|e|body rest] eqn:Hstep;
    try (cbn in Hspin; discriminate).
  - cbn in Hspin. now destruct e.
  - destruct (frame_step_Frame_rest buf body rest Hstep) as [Hle Heq].
    destruct (decide (length rest = length buf)) as [Hsame|Hless].
    + exists buf, body. now rewrite <- (Heq Hsame) at 2.
    + assert (Hfuel : (length rest < fuel)%nat) by lia.
      destruct (json_loads body) as [msg|]; [|now apply (IH rest s)].
      destruct (handle msg s) as [[[]|e] s'];
        [now apply (IH rest s')|].
      cbn in Hspin. now destruct e.
Qed.

(** The reader thread of the bridge ends in the same state and the same
    status however the stream is cut. *)
Lemma read_lsp_messages_any_split (frames : list frame)
    (chunks : list bytes) (st : bridge) :
  frames <> [] ->
  Forall well_framed frames ->
  Forall (fun c => c <> []) chunks ->
  concat chunks = stream frames ->
  agrees (read_lsp_messages chunks st) (read_lsp_messages [concat chunks] st).
Proof.
  intros Hfs Hwf Hne Heq.
  pose proof (read_chunks_whole handle_lsp_message frames chunks st
                Hwf Hne Heq) as (Hs & Hst & Hb).
  assert (Hone : Forall (fun c : bytes => c <> []) [concat chunks]).
  { constructor; [|constructor]. rewrite Heq. intros E.
    now apply stream_nil_inv in E. }
  assert (Hcat : concat [concat chunks] = stream frames)
    by (cbn; now rewrite app_nil_r).
  pose proof (read_chunks_whole handle_lsp_message frames [concat chunks] st
                Hwf Hone Hcat) as (Hs' & Hst' & Hb').
  unfold read_lsp_messages.
  set (r1 := read_chunks handle_lsp_message chunks _) in *.
  set (r2 := read_chunks handle_lsp_message [concat chunks] _) in *.
  set (d := deliver_frames handle_lsp_message frames [] st) in *.
  destruct r1 as [b1 s1 t1], r2 as [b2 s2 t2]. cbn in *.
  rewrite Hs, Hs', Hst, Hst'.
  destruct (rd_status d) eqn:E; unfold agrees; cbn;
    (split; [reflexivity|split; [reflexivity|]]); try discriminate.
  intros _. now rewrite Hb, Hb'.
Qed.

(** ** The claims of the specification *)

(** C1.  For chunks whose concatenation is a sequence of well framed
    messages, the decoder fed the chunks one after the other, wherever the
    stream is cut (one byte per chunk included), hands over the same
    messages in the same order as when it is given the whole concatenation
    at once: the bodies of the frames that parse, each once. *)
Theorem chunked_decoding_agrees (frames : list frame) (chunks : list bytes) :
  Forall well_framed frames ->
  Forall (fun c => c <> []) chunks ->
  concat chunks = stream frames ->
  decoded chunks = decoded [concat chunks] /\
  decoded chunks = omap json_loads (map snd frames).
Proof.
  intros Hwf Hne Heq. unfold decoded. split.
  - now apply read_chunks_any_split with frames.
  - destruct (read_chunks_whole record_message frames chunks [] Hwf Hne Heq)
      as (-> & _).
    now rewrite deliver_frames_record.
Qed.

(** The bytes that [lsp_send] writes for a message are
    [Content-Length: <n>\r\n\r\n] and the body, [n] being the length of the
    body in bytes; read back, they give exactly one message, the one the
    JSON library reads from the body it printed, and nothing is left in the
    buffer.  This holds whatever the library is; when it preserves the
    fields [id], [method], [params], [result] and [error] of the message,
    so does the round trip. *)
Lemma lsp_send_read_any_codec (message message' : json) (st : bridge) :
  lsp_running st = true ->
  json_loads (json_dumps message) = Some message' ->
  same_fields message message' ->
  let body := json_dumps message in
  let written := content_length_hdr ++ str_of_len (length body)
                 ++ CRLFCRLF ++ body in
  lsp_send message st = (Return tt, add_stdin written st) /\
  py_int (str_of_len (length body)) = Some (Z.of_nat (length body)) /\
  read_chunks record_message [written] (mkReader [] [] Reading)
  = mkReader [] [message'] Reading /\
  exists decoded_message,
    decoded [written] = [decoded_message] /\
    same_fields message decoded_message.
Proof.
  intros Hrun Hload Hsame body written.
  assert (Hread : read_chunks record_message [written] (mkReader [] [] Reading)
                  = mkReader [] [message'] Reading).
  { unfold read_chunks. cbn [fold_left].
    rewrite (read_chunk_frames record_message written [] []
               [(lsp_header body, body)] [] []).
    - cbn [deliver_frames snd]. fold body in Hload. now rewrite Hload.
    - unfold written, content_length_hdr. discriminate.
    - constructor; [apply lsp_frame_well_framed|constructor].
    - constructor.
    - now left.
    - cbn. rewrite !app_nil_r. fold (lsp_frame body).
      apply lsp_frame_frame_bytes. }
  repeat split.
  - unfold lsp_send. now rewrite Hrun.
  - apply py_int_str_of_len.
  - exact Hread.
  - exists message'. unfold decoded. now rewrite Hread.
Qed.


(** C5.  A message whose method is none of those the bridge knows: when it
    carries an id, the handler returns after writing to the language server
    one frame, the error reply with code -32601 for that id, and nothing
    else changes; when it carries no id, the handler returns with the state
    as it was, no reply being sent. *)
Theorem unknown_method_reply (st : bridge) (kv : list (string * json)) :
  let msg_id := dict_get kv "id" in
  let method := dict_get kv "method" in
  method <> JNull ->
  existsb (eq_str method) recognized_methods = false ->
  lsp_running st = true ->
  handle_lsp_message (JDict kv) st
  = (Return tt,
     if is_none msg_id then st
     else add_stdin (lsp_frame (json_dumps (method_not_found msg_id))) st) /\
  method_not_found msg_id
  = JDict [("jsonrpc", JStr "2.0"); ("id", msg_id);
           ("error", JDict [("code", JInt (-32601));
                            ("message", JStr "Method not found")])]%string.
Proof.
  cbv zeta. intros Hm Hrec Hrun. split; [|reflexivity].
  cbn in Hrec. repeat (apply orb_false_elim in Hrec as [? Hrec]).
  unfold handle_lsp_message. cbn [py_get py_get_default lift bind].
  fold (dict_get kv "id") (dict_get kv "method").
  replace (is_none (dict_get kv "method")) with false
    by (destruct (dict_get kv "method"); cbn; congruence).
  rewrite andb_false_r.
  repeat match goal with
         | H : eq_str _ _ = false |- _ => rewrite H; clear H
         end.
  cbn [orb]. destruct (is_none (dict_get kv "id")); cbn [negb]; [reflexivity|].
  unfold lsp_send. now rewrite Hrun.
Qed.

(* ===================================================================== *)
(** ** The registry                                                       *)
(* ===================================================================== *)

Lemma registry_step_refl (st : bridge) : registry_step st st.
Proof. split; [lia|]. intros k e H. now left. Qed.

Lemma registry_step_same (st st' : bridge) :
  pending_requests st' = pending_requests st ->
  request_counter st' = request_counter st ->
  registry_step st st'.
Proof.
  intros Hp Hc. split; [lia|]. intros k e H. left. now rewrite <- Hp.
Qed.

Lemma registry_step_trans (st1 st2 st3 : bridge) :
  registry_step st1 st2 -> registry_step st2 st3 -> registry_step st1 st3.
Proof.
  intros [Hc1 Hp1] [Hc2 Hp2]. split; [lia|]. intros k e H.
  destruct (Hp2 k e H) as [H2|H2]; [|right; lia].
  destruct (Hp1 k e H2) as [H1|H1]; [now left|right; lia].
Qed.

Lemma bounded_step (st st' : bridge) :
  bounded st -> registry_step st st' -> bounded st'.
Proof.
  intros Hb [Hc Hp] k e H. destruct (Hp k e H) as [H1|H1]; [|lia].
  specialize (Hb k e H1). lia.
Qed.

Lemma preserves_ret {A} (a : A) : preserves (ret a).
Proof. intros st. apply registry_step_refl. Qed.

Lemma preserves_lift {A} (o : outcome A) : preserves (lift o).
Proof. intros st. apply registry_step_refl. Qed.

Lemma preserves_bind {A B} (m : M bridge A) (k : A -> M bridge B) :
  preserves m -> (forall a, preserves (k a)) -> preserves (bind m k).
Proof.
  intros Hm Hk st. unfold bind. specialize (Hm st).
  destruct (m st) as [[a|e] st']; cbn in *; [|assumption].
  eapply registry_step_trans; [eassumption|apply Hk].
Qed.

Lemma preserves_except (m : M bridge unit) :
  preserves m -> preserves (except_KeyError m).
Proof.
  intros Hm st. unfold except_KeyError. specialize (Hm st).
  destruct (m st) as [[a|[]] st']; assumption.
Qed.

Lemma preserves_write_resp (data : json) : preserves (write_resp data).
Proof. intros st. now apply registry_step_same. Qed.

Lemma preserves_lsp_send (message : json) : preserves (lsp_send message).
Proof.
  intros st. unfold lsp_send.
  destruct (lsp_running st); now apply registry_step_same.
Qed.

Lemma preserves_lsp_notify (method : string) (params : json) :
  preserves (lsp_notify method params).
Proof. apply preserves_lsp_send. Qed.

Lemma preserves_lsp_request (method : string) (params plugin_req_id : json) :
  preserves (lsp_request method params plugin_req_id).
Proof.
  intros st. unfold lsp_request, bind, next_lsp_id, lsp_send, ret.
  destruct (is_none plugin_req_id); cbn; destruct (lsp_running st);
    unfold registry_step; cbn; (split; [lia|]); intros k e H.
  all: try (left; exact H).
  all: destruct (decide (k = request_counter st + 1)) as [->|Hne];
    [right; lia|left; now rewrite lookup_insert_ne in H by congruence].
Qed.

Lemma preserves_pop_pending (k : Z) (entry : json * string) :
  preserves (pop_pending k entry).
Proof.
  intros st. unfold registry_step. cbn. split; [lia|]. intros k' e H. left.
  destruct (decide (k = k')) as [->|Hne].
  - now rewrite lookup_delete_eq in H.
  - now rewrite lookup_delete_ne in H.
Qed.

Create HintDb registry.

Lemma preserves_find_pending (msg_id : json) :
  preserves (find_pending msg_id).
Proof.
  unfold find_pending. apply preserves_bind; [apply preserves_lift|].
  intros key st. apply registry_step_refl.
Qed.

#[local] Hint Resolve preserves_ret preserves_lift preserves_write_resp
  preserves_lsp_send preserves_lsp_notify preserves_lsp_request
  preserves_pop_pending preserves_find_pending : registry.

Ltac preserves_walk :=
  repeat first
    [ progress eauto with registry
    | apply preserves_bind; [|intros ?]
    | match goal with
      | |- preserves (if ?c then _ else _) => destruct c
      | |- preserves (let (_, _) := ?p in _) => destruct p
      | |- preserves (match ?o with Some _ => _ | None => _ end) => destruct o
      end ].

Lemma preserves_dispatch_lsp_response (method : string)
    (plugin_req_id result : json) :
  preserves (dispatch_lsp_response method plugin_req_id result).
Proof. unfold dispatch_lsp_response. preserves_walk. Qed.

Lemma preserves_translate (req_method : string) (plugin_req_id : json)
    (kv : list (string * json)) :
  preserves (translate req_method plugin_req_id kv).
Proof.
  unfold translate. destruct (truthy _);
    [apply preserves_write_resp|apply preserves_dispatch_lsp_response].
Qed.

Lemma preserves_handle_plugin_message (msg : json) :
  preserves (handle_plugin_message msg).
Proof. unfold handle_plugin_message. preserves_walk. Qed.

Lemma preserves_handle_lsp_message (msg : json) :
  preserves (handle_lsp_message msg).
Proof.
  unfold handle_lsp_message. preserves_walk.
  apply preserves_dispatch_lsp_response.
Qed.

Lemma registry_step_bridge_step (i : input) (st : bridge) :
  registry_step st (bridge_step i st).
Proof.
  destruct i as [msg|msg]; cbn.
  - apply preserves_except, preserves_handle_plugin_message.
  - apply preserves_handle_lsp_message.
Qed.

Lemma registry_step_bridge_run (inputs : list input) (st : bridge) :
  registry_step st (bridge_run inputs st).
Proof.
  revert st; induction inputs as [|i inputs IH]; intros st.
  - apply registry_step_refl.
  - cbn. eapply registry_step_trans; [apply registry_step_bridge_step|apply IH].
Qed.

(** The bound on the registry is an invariant of the bridge. *)
Lemma bounded_initial : bounded initial_bridge.
Proof. intros k e H. cbn in H. now rewrite lookup_empty in H. Qed.

Lemma bounded_bridge_run (inputs : list input) (st : bridge) :
  bounded st -> bounded (bridge_run inputs st).
Proof. intros H. eapply bounded_step; [exact H|apply registry_step_bridge_run]. Qed.

(** An id that has been handed out and is not registered is never
    registered again. *)
Lemma absent_stays_absent (inputs : list input) (st : bridge) (k : Z) :
  pending_requests st !! k = None ->
  k <= request_counter st ->
  pending_requests (bridge_run inputs st) !! k = None.
Proof.
  intros Habs Hk.
  destruct (registry_step_bridge_run inputs st) as [_ Hp].
  destruct (pending_requests (bridge_run inputs st) !! k) as [e|] eqn:E;
    [|reflexivity].
  destruct (Hp k e E) as [H|H]; [congruence|lia].
Qed.

(* ===================================================================== *)
(** ** Responses                                                          *)
(* ===================================================================== *)

Lemma is_response_test (kv : list (string * json)) :
  is_response kv ->
  negb (is_none (dict_get kv "id")) && is_none (dict_get kv "method") = true.
Proof.
  intros [Hid Hm]. rewrite Hm. destruct (dict_get kv "id"); cbn; congruence.
Qed.

(** A response whose id is registered: the entry is popped and the response
    translated. *)
Lemma handle_response_hit (st : bridge) (kv : list (string * json))
    (k : Z) (hid : json) (meth : string) :
  is_response kv ->
  int_key (dict_get kv "id") = Return (Some k) ->
  pending_requests st !! k = Some (hid, meth) ->
  handle_lsp_message (JDict kv) st
  = translate meth hid kv (set_pending (delete k) st).
Proof.
  intros Hresp Hkey Hlook.
  unfold handle_lsp_message. cbn [py_get py_get_default lift bind].
  fold (dict_get kv "id") (dict_get kv "method").
  rewrite (is_response_test kv Hresp).
  unfold find_pending. cbn [bind lift]. rewrite Hkey. cbn. rewrite Hlook.
  cbn. reflexivity.
Qed.

(** A response whose id is hashable and not registered: nothing happens. *)
Lemma handle_response_miss (st : bridge) (kv : list (string * json))
    (key : option Z) :
  is_response kv ->
  int_key (dict_get kv "id") = Return key ->
  (forall k, key = Some k -> pending_requests st !! k = None) ->
  handle_lsp_message (JDict kv) st = (Return tt, st).
Proof.
  intros Hresp Hkey Hlook.
  unfold handle_lsp_message. cbn [py_get py_get_default lift bind].
  fold (dict_get kv "id") (dict_get kv "method").
  rewrite (is_response_test kv Hresp).
  unfold find_pending. cbn [bind lift]. rewrite Hkey.
  destruct key as [k|]; cbn; [|reflexivity].
  now rewrite (Hlook k eq_refl).
Qed.

Lemma keeps_ret {A} (a : A) : keeps_registry (ret a).
Proof. now intros st. Qed.

Lemma keeps_lift {A} (o : outcome A) : keeps_registry (lift o).
Proof. now intros st. Qed.

Lemma keeps_bind {A B} (m : M bridge A) (k : A -> M bridge B) :
  keeps_registry m -> (forall a, keeps_registry (k a)) ->
  keeps_registry (bind m k).
Proof.
  intros Hm Hk st. unfold bind. specialize (Hm st).
  destruct (m st) as [[a|e] st']; cbn in *; [|assumption].
  destruct (Hk a st') as [Hp Hc]. split; [now rewrite Hp|now rewrite Hc].
Qed.

Lemma keeps_write_resp (data : json) : keeps_registry (write_resp data).
Proof. now intros st. Qed.

Lemma keeps_lsp_send (message : json) : keeps_registry (lsp_send message).
Proof. intros st. unfold lsp_send. now destruct (lsp_running st). Qed.

Lemma keeps_lsp_notify (method : string) (params : json) :
  keeps_registry (lsp_notify method params).
Proof. apply keeps_lsp_send. Qed.

#[local] Hint Resolve keeps_ret keeps_lift keeps_write_resp keeps_lsp_send
  keeps_lsp_notify : registry.

Ltac keeps_walk :=
  repeat first
    [ progress eauto with registry
    | apply keeps_bind; [|intros ?]
    | match goal with
      | |- keeps_registry (if ?c then _ else _) => destruct c
      end ].

Lemma keeps_dispatch_lsp_response (method : string)
    (plugin_req_id result : json) :
  keeps_registry (dispatch_lsp_response method plugin_req_id result).
Proof. unfold dispatch_lsp_response. keeps_walk. Qed.

Lemma keeps_translate (meth : string) (hid : json)
    (kv : list (string * json)) :
  keeps_registry (translate meth hid kv).
Proof.
  unfold translate. destruct (truthy _);
    [apply keeps_write_resp|apply keeps_dispatch_lsp_response].
Qed.

(** Once a response has resolved a registered id, no response with that id
    finds an entry again, whatever the bridge handles in between. *)
Lemma resolved_stays_unknown (st : bridge) (kv : list (string * json))
    (k : Z) (hid : json) (meth : string) :
  bounded st ->
  is_response kv ->
  int_key (dict_get kv "id") = Return (Some k) ->
  pending_requests st !! k = Some (hid, meth) ->
  forall (inputs : list input) (kv' : list (string * json)),
    is_response kv' ->
    int_key (dict_get kv' "id") = Return (Some k) ->
    let st' := bridge_run inputs (snd (handle_lsp_message (JDict kv) st)) in
    handle_lsp_message (JDict kv') st' = (Return tt, st').
Proof.
  intros Hb Hresp Hkey Hlook inputs kv' Hresp' Hkey' st'.
  apply handle_response_miss with (key := Some k); try assumption.
  intros k' [= <-]. subst st'.
  rewrite (handle_response_hit st kv k hid meth) by assumption.
  destruct (keeps_translate meth hid kv (set_pending (delete k) st))
    as [Hp Hc].
  apply absent_stays_absent.
  - rewrite Hp. cbn. apply lookup_delete_eq.
  - rewrite Hc. cbn. exact (Hb k _ Hlook).
Qed.

(** *** Translation of the responses *)

(** The cases of a handler on the type of a command, or the method of a
    message, once it is known to be the string [s]. *)
Ltac string_cases s :=
  match goal with
  | |- context [String.eqb s ?lit] =>
      destruct (String.eqb_spec s lit) as [->|?];
      [cbn [String.eqb Ascii.eqb Bool.eqb]|string_cases s]
  | _ => idtac
  end.

Lemma py_iter_raise (v : json) (e : exn) : py_iter v = Raise e -> e = TypeError.
Proof. destruct v; cbn; congruence. Qed.

Lemma omapM_completion_item_cases (l : list json) :
  (forallb is_dict l = true /\ exists out, omapM completion_item l = Return out)
  \/ (forallb is_dict l = false /\
      omapM completion_item l = Raise AttributeError).
Proof.
  induction l as [|item l IH]; [left; split; [reflexivity|now eexists]|].
  cbn [forallb omapM].
  destruct item as [| | | | |ikv]; try (right; split; reflexivity).
  cbn [is_dict andb completion_item py_get py_get_default obind].
  destruct IH as [[-> [out ->]] | [-> ->]].
  - left. split; [reflexivity|now eexists].
  - right. split; reflexivity.
Qed.

(** What the translation of a result does, by cases. *)
Lemma dispatch_lsp_response_cases (method : string)
    (plugin_req_id result : json) (st : bridge) (r : outcome unit * bridge) :
  dispatch_lsp_response method plugin_req_id result st = r ->
  (response_shape_ok method result = true /\
   exists fields,
     r = (Return tt,
          mkBridge (pending_requests st) (request_counter st)
            (resp st
             ++ [JDict (("type"%string, JStr (response_event_type method))
                        :: ("id"%string, plugin_req_id) :: fields)])
            (lsp_running st)
            (if String.eqb method "initialize" && lsp_running st
             then lsp_stdin st
                  ++ lsp_frame
                       (json_dumps
                          (rpc [("method", JStr "initialized");
                                ("params", JDict [])]%string))
             else lsp_stdin st))) \/
  (response_shape_ok method result = false /\
   (r = (Raise AttributeError, st) \/ r = (Raise TypeError, st))).
Proof.
  unfold dispatch_lsp_response, response_shape_ok, response_event_type.
  string_cases method.
  - (* initialize *)
    intros <-. left. split; [reflexivity|]. exists [].
    unfold bind, lsp_notify, lsp_send, write_resp. cbn [andb].
    destruct (lsp_running st) eqn:Hrun; unfold add_resp, add_stdin;
      cbn [pending_requests request_counter resp lsp_running lsp_stdin];
      rewrite ?Hrun; reflexivity.
  - (* textDocument/inlineCompletion *)
    destruct (truthy result && is_dict result) eqn:T; cbn [negb orb].
    + destruct result as [| | | | |rkv];
        try (cbn [is_dict] in T; rewrite andb_false_r in T; discriminate).
      unfold bind, lift. cbn [py_get_default obind].
      destruct (py_iter _) as [l|e] eqn:Hit.
      * destruct (omapM_completion_item_cases l) as [[-> [out ->]] | [-> ->]];
          intros <-.
        -- left. split; [reflexivity|]. now eexists [_].
        -- right. split; [reflexivity|now left].
      * intros <-. apply py_iter_raise in Hit. subst e.
        right. split; [reflexivity|now right].
    + intros <-. left. split; [reflexivity|]. now eexists [_].
  - (* signIn *)
    destruct (truthy result) eqn:T; cbn [negb orb].
    + destruct result as [| | | | |rkv]; cbn [is_dict];
        try (intros <-; right; split; [reflexivity|now left]).
      intros <-. left. split; [reflexivity|]. now eexists [_; _; _].
    + intros <-. left. split; [reflexivity|]. now eexists [_; _].
  - intros <-. left. split; [reflexivity|]. now exists [].
  - intros <-. left. split; [reflexivity|]. now eexists [_].
  - intros <-. left. split; [reflexivity|]. now eexists [_; _].
Qed.

(** C2.  A response whose id is registered removes the entry from the
    registry and is translated once: when it carries an error, or a result
    of the shape the translation of the method reads, the handler returns
    and the response log grows by exactly one event, of the type of the
    method (or [error]) and with the id the plugin gave; the counter is as
    it was, and nothing is sent to the server but the notification
    [initialized] for [initialize].  No later response with that id
    resolves the entry again, whatever is handled in between: it leaves the
    state, and so the response log, as it finds them.  A response whose id
    is not in the registry is dropped: the handler returns without raising
    and leaves the response log, and the rest of the state, as they
    were. *)
Theorem registry_resolves_once :
  (forall (st : bridge) (kv : list (string * json)) (k : Z) (hid : json)
          (meth : string),
      bounded st ->
      is_response kv ->
      int_key (dict_get kv "id") = Return (Some k) ->
      pending_requests st !! k = Some (hid, meth) ->
      let error := dict_get kv "error" in
      let result := dict_get kv "result" in
      let st1 := snd (handle_lsp_message (JDict kv) st) in
      handle_lsp_message (JDict kv) st
      = translate meth hid kv (set_pending (delete k) st) /\
      pending_requests st1 = delete k (pending_requests st) /\
      (truthy error || response_shape_ok meth result = true ->
       exists fields,
         handle_lsp_message (JDict kv) st
         = (Return tt,
            mkBridge (delete k (pending_requests st)) (request_counter st)
              (resp st
               ++ [JDict (("type"%string,
                           JStr (if truthy error then "error"%string
                                 else response_event_type meth))
                          :: ("id"%string, hid) :: fields)])
              (lsp_running st)
              (if negb (truthy error) && String.eqb meth "initialize"
                  && lsp_running st
               then lsp_stdin st
                    ++ lsp_frame
                         (json_dumps
                            (rpc [("method", JStr "initialized");
                                  ("params", JDict [])]%string))
               else lsp_stdin st))) /\
      forall (inputs : list input) (kv' : list (string * json)),
        is_response kv' ->
        int_key (dict_get kv' "id") = Return (Some k) ->
        handle_lsp_message (JDict kv') (bridge_run inputs st1)
        = (Return tt, bridge_run inputs st1)) /\
  (forall (st : bridge) (kv : list (string * json)) (key : option Z),
      is_response kv ->
      int_key (dict_get kv "id") = Return key ->
      (forall k, key = Some k -> pending_requests st !! k = None) ->
      handle_lsp_message (JDict kv) st = (Return tt, st) /\
      resp (snd (handle_lsp_message (JDict kv) st)) = resp st).
Proof.
  split.
  - intros st kv k hid meth Hb Hresp Hkey Hlook error result st1.
    split; [now apply handle_response_hit|]. split; [|split].
    + subst st1. rewrite (handle_response_hit st kv k hid meth) by assumption.
      now destruct (keeps_translate meth hid kv (set_pending (delete k) st)).
    + intros Hshape.
      rewrite (handle_response_hit st kv k hid meth) by assumption.
      unfold translate. fold error result.
      destruct (truthy error) eqn:Herr.
      * now exists [("error"%string, error)].
      * cbn [orb negb andb] in *.
        destruct (dispatch_lsp_response_cases meth hid result
                    (set_pending (delete k) st) _ eq_refl)
          as [[_ [fields ->]] | [Hbad _]]; [|congruence].
        now exists fields.
    + intros inputs kv' Hresp' Hkey'.
      now apply (resolved_stays_unknown st kv k hid meth).
  - intros st kv key Hresp Hkey Hlook.
    rewrite (handle_response_miss st kv key) by assumption. now split.
Qed.

(** C10.  A response whose id is registered and whose [error] field is
    non-empty: exactly one event is written, of type [error], with the id
    the plugin gave and the error; nothing is sent to the language server
    and the translation of the method is not run; the entry leaves the
    registry, and a later response with the same id is dropped as
    unknown. *)
Theorem error_response_event (st : bridge) (kv : list (string * json))
    (k : Z) (hid : json) (meth : string) :
  bounded st ->
  is_response kv ->
  int_key (dict_get kv "id") = Return (Some k) ->
  pending_requests st !! k = Some (hid, meth) ->
  truthy (dict_get kv "error") = true ->
  let event := JDict [("type", JStr "error"); ("id", hid);
                      ("error", dict_get kv "error")]%string in
  let st1 := mkBridge (delete k (pending_requests st)) (request_counter st)
                      (resp st ++ [event]) (lsp_running st) (lsp_stdin st) in
  handle_lsp_message (JDict kv) st = (Return tt, st1) /\
  forall (inputs : list input) (kv' : list (string * json)),
    is_response kv' ->
    int_key (dict_get kv' "id") = Return (Some k) ->
    handle_lsp_message (JDict kv') (bridge_run inputs st1)
    = (Return tt, bridge_run inputs st1).
Proof.
  intros Hb Hresp Hkey Hlook Herr event st1.
  assert (Hrun : handle_lsp_message (JDict kv) st = (Return tt, st1)).
  { rewrite (handle_response_hit st kv k hid meth) by assumption.
    unfold translate. now rewrite Herr. }
  split; [exact Hrun|].
  intros inputs kv' Hresp' Hkey'.
  pose proof (resolved_stays_unknown st kv k hid meth Hb Hresp Hkey Hlook
                inputs kv' Hresp' Hkey') as H.
  cbv zeta in H. now rewrite Hrun in H.
Qed.

Lemma omapM_completion_item (items out : list json) :
  mapM spec_normalize_item items = Some out ->
  omapM completion_item items = Return out.
Proof.
  revert out; induction items as [|item items IH]; intros out H.
  - cbn in H. injection H as <-. reflexivity.
  - cbn in H. destruct item as [| | | | |ikv]; try discriminate. cbn in H.
    destruct (mapM spec_normalize_item items) as [out'|]; [|discriminate].
    cbn in H. injection H as <-. cbn. now rewrite (IH out' eq_refl).
Qed.

(** C9.  A response without error to a registered
    [textDocument/inlineCompletion] request: exactly one event is written,
    of type [completionResult], with the id the plugin gave and one
    normalized entry per item of the [items] list of the result, in order;
    the list is empty when the result is absent. *)
Theorem completion_result_event (st : bridge) (kv : list (string * json))
    (k : Z) (hid : json) (items out : list json) :
  is_response kv ->
  int_key (dict_get kv "id") = Return (Some k) ->
  pending_requests st !! k = Some (hid, "textDocument/inlineCompletion"%string) ->
  truthy (dict_get kv "error") = false ->
  spec_items_of (dict_get kv "result") = Some items ->
  mapM spec_normalize_item items = Some out ->
  let event := JDict [("type", JStr "completionResult"); ("id", hid);
                      ("items", JList out)]%string in
  let st1 := mkBridge (delete k (pending_requests st)) (request_counter st)
                      (resp st ++ [event]) (lsp_running st) (lsp_stdin st) in
  handle_lsp_message (JDict kv) st = (Return tt, st1) /\
  length out = length items /\
  (dict_get kv "result" = JNull -> out = []).
Proof.
  intros Hresp Hkey Hlook Herr Hitems Hnorm event st1.
  assert (Hrun : handle_lsp_message (JDict kv) st = (Return tt, st1)).
  { rewrite (handle_response_hit st kv k hid _ Hresp Hkey Hlook).
    unfold translate. rewrite Herr. unfold dispatch_lsp_response.
    cbn [String.eqb Ascii.eqb Bool.eqb].
    destruct (dict_get kv "result") as [| | | | |r] eqn:Hres;
      cbn in Hitems; try (injection Hitems as <-; cbn in Hnorm;
                          injection Hnorm as <-).
    1-5: try reflexivity.
    - cbn. now destruct b.
    - cbn. now destruct (negb (n =? 0)).
    - cbn. now destruct (negb (String.eqb s "")).
    - cbn. now destruct l.
    - destruct r as [|entry r].
      + cbn in Hitems. injection Hitems as <-. cbn in Hnorm.
        injection Hnorm as <-. reflexivity.
      + cbn [truthy is_dict andb bind lift py_get_default].
        destruct (dict_get_default (entry :: r) "items" (JList []))
          as [| | | |its|]; try discriminate.
        injection Hitems as ->. unfold bind, lift. cbn [py_iter].
        rewrite (omapM_completion_item items out Hnorm). reflexivity. }
  repeat split.
  - exact Hrun.
  - apply length_mapM in Hnorm. lia.
  - intros Hnull. rewrite Hnull in Hitems. cbn in Hitems.
    injection Hitems as <-. cbn in Hnorm. now injection Hnorm as <-.
Qed.

(** C4, as the bridge has it.  A [workspace/configuration] request whose
    [params] is an object and whose [items] has a length: the handler
    writes one frame to the language server, the reply whose result is a
    list of one [null] per item, and returns; it writes no event to the
    response log. *)
Theorem configuration_reply (st : bridge) (kv p : list (string * json))
    (n : nat) :
  eq_str (dict_get kv "method") "workspace/configuration" = true ->
  dict_get_default kv "params" (JDict []) = JDict p ->
  py_len (dict_get_default p "items" (JList [])) = Return n ->
  lsp_running st = true ->
  let reply := JDict [("jsonrpc", JStr "2.0"); ("id", dict_get kv "id");
                      ("result", JList (replicate n JNull))]%string in
  let st1 := mkBridge (pending_requests st) (request_counter st) (resp st)
                      (lsp_running st)
                      (lsp_stdin st ++ lsp_frame (json_dumps reply)) in
  handle_lsp_message (JDict kv) st = (Return tt, st1).
Proof.
  intros Hm Hparams Hlen Hrun reply st1.
  unfold handle_lsp_message. cbn [py_get py_get_default lift bind].
  fold (dict_get kv "id") (dict_get kv "method").
  destruct (dict_get kv "method") as [| | |m| |]; try discriminate.
  cbn [is_none andb negb]. rewrite andb_false_r.
  cbn [eq_str] in *. apply String.eqb_eq in Hm. subst m.
  cbn [String.eqb Ascii.eqb Bool.eqb orb].
  rewrite Hparams. cbn [py_get_default bind lift]. rewrite Hlen.
  unfold lsp_send. now rewrite Hrun.
Qed.

(* ===================================================================== *)
(** ** The command log                                                    *)
(* ===================================================================== *)

Lemma drop_nil_iff (n : nat) (s : bytes) :
  drop n s = [] <-> (length s <= n)%nat.
Proof.
  split; intros H; [|now apply drop_ge].
  apply (f_equal (@length byte)) in H. rewrite length_drop in H. cbn in H. lia.
Qed.

Section PollFacts.

Context {St : Type}.
Variable handle : json -> M St unit.

(** The poll that sees the truncation puts the offset back to zero and
    hands nothing to the handler. *)
Lemma cmd_poll_truncated (text : bytes) (sz last_pos : nat) (st : St) :
  (length text <= last_pos)%nat -> (sz < last_pos)%nat ->
  cmd_poll handle (FileText text (Some sz)) last_pos st = (Return O, st).
Proof.
  intros Hlen Hsz. unfold cmd_poll, tell_after_read.
  rewrite (proj2 (drop_nil_iff last_pos text) Hlen).
  replace (Nat.max last_pos (length text)) with last_pos by lia.
  destruct (Nat.ltb_spec sz last_pos); [reflexivity|lia].
Qed.

(** In any other poll that returns, the offset does not go back. *)
Lemma cmd_poll_monotone (obs : cmd_obs) (last_pos p : nat) (st st' : St) :
  ~ sees_truncation obs last_pos ->
  cmd_poll handle obs last_pos st = (Return p, st') ->
  (last_pos <= p)%nat.
Proof.
  intros Hno Hrun. destruct obs as [|text size];
    unfold cmd_poll, tell_after_read, ret in Hrun.
  - injection Hrun as <- _. lia.
  - destruct (drop last_pos text) as [|c new_data] eqn:Hnew.
    + apply drop_nil_iff in Hnew.
      destruct size as [sz|]; [|injection Hrun as <- _; lia].
      destruct (Nat.ltb_spec sz (Nat.max last_pos (length text)))
        as [Hlt|Hge]; injection Hrun as <- _; [|lia].
      exfalso. apply Hno. exists text, sz. repeat split; [assumption|lia].
    + unfold bind in Hrun.
      destruct (dispatch_lines handle _ st) as [[[]|e] st1];
        [|discriminate].
      injection Hrun as <- _. lia.
Qed.

End PollFacts.

Lemma dispatch_lines_record (lines : list bytes) (seen : list json) :
  dispatch_lines record_message lines seen
  = (Return tt, seen ++ omap command_of lines).
Proof.
  revert seen; induction lines as [|line lines IH]; intros seen.
  - cbn. now rewrite app_nil_r.
  - cbn [dispatch_lines].
    change (omap command_of (line :: lines))
      with (match command_of line with
            | Some msg => msg :: omap command_of lines
            | None => omap command_of lines
            end).
    unfold command_of at 1, bind.
    destruct (str_strip line) as [|c r]; [apply IH|].
    destruct (json_loads line) as [msg|]; [|apply IH].
    cbn. rewrite IH. now rewrite <- app_assoc.
Qed.

Lemma cmd_poll_record (obs : cmd_obs) (last_pos : nat) (seen : list json) :
  cmd_poll record_message obs last_pos seen
  = (Return (poll_offset obs last_pos), seen ++ poll_commands obs last_pos).
Proof.
  destruct obs as [|text size]; unfold cmd_poll, poll_offset, poll_commands.
  - unfold ret. now rewrite app_nil_r.
  - destruct (drop last_pos text) as [|c new_data].
    + unfold ret. rewrite app_nil_r. now destruct size.
    + unfold bind. now rewrite dispatch_lines_record.
Qed.

Lemma cmd_polls_record (polls : list cmd_obs) (last_pos : nat)
    (seen : list json) :
  snd (cmd_polls record_message polls last_pos seen)
  = seen ++ delivered polls last_pos.
Proof.
  unfold delivered.
  revert last_pos seen; induction polls as [|obs polls IH];
    intros last_pos seen.
  - cbn. now rewrite app_nil_r.
  - cbn [cmd_polls]. unfold bind. rewrite !cmd_poll_record.
    rewrite (IH _ (seen ++ _)), (IH _ ([] ++ _)). cbn [app].
    now rewrite app_assoc.
Qed.

Lemma delivered_cons (obs : cmd_obs) (polls : list cmd_obs) (last_pos : nat) :
  delivered (obs :: polls) last_pos
  = poll_commands obs last_pos ++ delivered polls (poll_offset obs last_pos).
Proof.
  unfold delivered at 1. cbn [cmd_polls]. unfold bind.
  rewrite cmd_poll_record. cbn [app]. apply cmd_polls_record.
Qed.

Lemma delivered_nil (last_pos : nat) : delivered [] last_pos = [].
Proof. reflexivity. Qed.

(** C6, as the bridge has it.  A poll that finds nothing to read and a
    file size strictly below the offset puts the offset back to zero and
    delivers no command; in every other poll that returns the offset does
    not decrease; and once the log has been emptied, the commands delivered
    are those written afterwards, nothing of what was consumed before being
    delivered again. *)
Theorem truncation_resets_offset :
  (forall (St : Type) (handle : json -> M St unit) (text : bytes)
          (sz last_pos : nat) (st : St),
      (length text <= last_pos)%nat -> (sz < last_pos)%nat ->
      cmd_poll handle (FileText text (Some sz)) last_pos st
      = (Return O, st)) /\
  (forall (St : Type) (handle : json -> M St unit) (obs : cmd_obs)
          (last_pos p : nat) (st st' : St),
      ~ sees_truncation obs last_pos ->
      cmd_poll handle obs last_pos st = (Return p, st') ->
      (last_pos <= p)%nat) /\
  (forall (before new : bytes) (size : option nat),
      before <> [] ->
      delivered [FileText before None; FileText [] (Some O);
                 FileText new size] O
      = delivered [FileText before None] O ++ delivered [FileText new size] O).
Proof.
  split; [|split].
  - intros. now apply cmd_poll_truncated.
  - intros St handle obs last_pos p st st' Hno Hrun.
    now apply (cmd_poll_monotone handle obs last_pos p st st').
  - intros before new size Hne. rewrite !delivered_cons, !delivered_nil.
    rewrite !app_nil_r. f_equal.
    destruct before as [|c before]; [contradiction|]. reflexivity.
Qed.

(** *** Lines that are not commands *)

(** A value that is not a dict has no [get]: the handler raises before it
    touches the state. *)
Lemma handle_plugin_message_not_dict (v : json) (st : bridge) :
  is_dict v = false ->
  handle_plugin_message v st = (Raise AttributeError, st).
Proof. destruct v; try discriminate; reflexivity. Qed.

(** A line that parses to something else than an object ends the loop over
    the lines: the lines after it are not looked at. *)
Lemma dispatch_lines_not_dict (line : bytes) (rest : list bytes) (v : json)
    (st : bridge) :
  str_strip line <> [] ->
  json_loads line = Some v ->
  is_dict v = false ->
  dispatch_lines handle_plugin_message (line :: rest) st
  = (Raise AttributeError, st).
Proof.
  intros Hne Hload Hv. cbn [dispatch_lines]. unfold bind.
  destruct (str_strip line); [contradiction|]. rewrite Hload.
  unfold except_KeyError. now rewrite handle_plugin_message_not_dict.
Qed.

(** A line that is not JSON is passed over. *)
Lemma dispatch_lines_not_json (line : bytes) (rest : list bytes)
    (st : bridge) :
  json_loads line = None ->
  dispatch_lines handle_plugin_message (line :: rest) st
  = dispatch_lines handle_plugin_message rest st.
Proof.
  intros Hload. cbn [dispatch_lines]. unfold bind.
  destruct (str_strip line); [reflexivity|]. now rewrite Hload.
Qed.

(** *** A header block without [Content-Length] *)

(** The pass ends where the header block is dropped, whatever the rest of
    the buffer holds. *)
Lemma frames_loop_no_length {St : Type} (handle : json -> M St unit)
    (fuel : nat) (buf rest : bytes) (s : St) :
  frame_step buf = NoLength rest ->
  frames_loop handle (S fuel) buf s = mkReader rest s Reading.
Proof. intros H. cbn. now rewrite H. Qed.

Lemma frame_step_no_length (hdr rest : bytes) :
  find (hdr ++ CRLFCRLF) CRLFCRLF = Some (length hdr) ->
  header_content_length (split hdr CRLF) = None ->
  frame_step (hdr ++ CRLFCRLF ++ rest) = NoLength rest.
Proof.
  intros Hfind Hnone. unfold frame_step.
  rewrite app_assoc, (find_extend _ _ _ _ Hfind).
  rewrite <- app_assoc, take_app_length, Hnone.
  rewrite app_assoc.
  replace (length hdr + 4)%nat with (length (hdr ++ CRLFCRLF))
    by (rewrite length_app; reflexivity).
  now rewrite drop_app_length.
Qed.

(* ===================================================================== *)
(** ** The reader beyond well framed streams                              *)
(* ===================================================================== *)

(** *** More on [find], [lower] and [strip] *)


Lemma lower_app (a b : bytes) : lower (a ++ b) = lower a ++ lower b.
Proof. apply map_app. Qed.

(** [lower] changes capital letters only. *)
Lemma byte_lower_colon (c : byte) : byte_lower c = ":"%byte -> c = ":"%byte.
Proof. destruct c; vm_compute; intros H; first [reflexivity|discriminate H]. Qed.

Lemma byte_lower_CR (c : byte) : byte_lower c = CR -> c = CR.
Proof. destruct c; vm_compute; intros H; first [reflexivity|discriminate H]. Qed.

Lemma lstrip_by_spaces (sp : byte -> bool) (ws s : bytes) :
  Forall (fun c => sp c = true) ws -> lstrip_by sp (ws ++ s) = lstrip_by sp s.
Proof. induction 1 as [|c ws Hc _ IH]; [reflexivity|]. cbn. now rewrite Hc. Qed.

(** [strip] takes off the whitespace on both sides of a text that starts
    and ends with something else. *)
Lemma strip_by_padded (sp : byte -> bool) (ws1 ws2 x1 x2 : bytes) (c d : byte) :
  Forall (fun c => sp c = true) ws1 ->
  Forall (fun c => sp c = true) ws2 ->
  c :: x1 = x2 ++ [d] -> sp c = false -> sp d = false ->
  strip_by sp (ws1 ++ (c :: x1) ++ ws2) = c :: x1.
Proof.
  intros H1 H2 Hx Hc Hd. unfold strip_by.
  rewrite lstrip_by_spaces by assumption.
  change ((c :: x1) ++ ws2) with (c :: (x1 ++ ws2)).
  cbn [lstrip_by]. rewrite Hc.
  change (c :: (x1 ++ ws2)) with ((c :: x1) ++ ws2).
  rewrite rev_app_distr, lstrip_by_spaces by now apply Forall_rev.
  rewrite Hx, rev_app_distr. cbn [rev app lstrip_by]. rewrite Hd.
  change (d :: rev x2) with (rev [d] ++ rev x2).
  now rewrite <- rev_app_distr, rev_involutive.
Qed.

Lemma strip_by_padded_clean (sp : byte -> bool) (ws1 ws2 x : bytes) :
  Forall (fun c => sp c = true) ws1 ->
  Forall (fun c => sp c = true) ws2 ->
  Forall (fun c => sp c = false) x ->
  strip_by sp (ws1 ++ x ++ ws2) = x.
Proof.
  intros H1 H2 Hx. destruct x as [|c x1].
  - unfold strip_by. cbn [app].
    rewrite <- (app_nil_r (ws1 ++ ws2)), lstrip_by_spaces; [reflexivity|].
    apply Forall_app. now split.
  - destruct (exists_last (l := c :: x1)) as (x2 & d & Hx2); [discriminate|].
    apply strip_by_padded with x2 d; try assumption.
    + now inversion Hx.
    + rewrite Hx2 in Hx. apply Forall_app in Hx as [_ Hd]. now inversion Hd.
Qed.

(** A name that [lower] turns into [content-length:] has its only colon at
    the end, and no carriage return. *)
Lemma content_length_name (name : bytes) :
  lower name = content_length_lc ->
  exists h, name = h ++ COLON /\ length h = 14%nat /\
            Forall (fun c => c <> ":"%byte) h /\
            Forall (fun c => c <> CR) name.
Proof.
  intros H. unfold lower, content_length_lc in H.
  do 16 (destruct name as [|? name]; try discriminate H).
  injection H as H0 H1 H2 H3 H4 H5 H6 H7 H8 H9 H10 H11 H12 H13 H14.
  apply byte_lower_colon in H14. subst.
  eexists [_; _; _; _; _; _; _; _; _; _; _; _; _; _].
  split; [reflexivity|]. split; [reflexivity|].
  split; repeat constructor; intros E;
    first [discriminate E|subst; vm_compute in *; discriminate].
Qed.

Lemma content_length_line_value (name tail : bytes) :
  lower name = content_length_lc ->
  startswith (lower (name ++ tail)) content_length_lc = true /\
  find (name ++ tail) COLON = Some 14%nat /\
  drop (14 + 1) (name ++ tail) = tail.
Proof.
  intros H. split; [|split].
  - rewrite lower_app, H. apply startswith_app.
  - destruct (content_length_name name H) as (h & -> & Hlen & Hh & _).
    rewrite <- app_assoc, <- Hlen. unfold COLON. now apply find_skip.
  - destruct (content_length_name name H) as (h & -> & Hlen & _).
    replace (14 + 1)%nat with (length (h ++ COLON))
      by (rewrite length_app, Hlen; reflexivity).
    apply drop_app_length.
Qed.

Lemma str_of_len_not_space (n : nat) :
  Forall (fun c => is_space c = false) (str_of_len n).
Proof.
  eapply Forall_impl; [apply str_of_len_digits|apply digit_not_space].
Qed.

(** A [Content-Length] line, its name in any case and its value between
    any whitespace. *)
Lemma content_length_line (name ws1 ws2 : bytes) (n : nat) (rest : list bytes) :
  lower name = content_length_lc ->
  Forall (fun c => is_space c = true) ws1 ->
  Forall (fun c => is_space c = true) ws2 ->
  header_content_length ((name ++ ws1 ++ str_of_len n ++ ws2) :: rest)
  = Some (Return (Z.of_nat n)).
Proof.
  intros Hname H1 H2. cbn [header_content_length].
  destruct (content_length_line_value name (ws1 ++ str_of_len n ++ ws2) Hname)
    as (-> & -> & ->).
  unfold strip.
  rewrite strip_by_padded_clean by (try assumption; apply str_of_len_not_space).
  now rewrite py_int_str_of_len.
Qed.

Lemma header_content_length_skip (pre rest : list bytes) :
  Forall (fun line => startswith (lower line) content_length_lc = false) pre ->
  header_content_length (pre ++ rest) = header_content_length rest.
Proof.
  induction 1 as [|line pre Hl _ IH]; [reflexivity|].
  cbn [app header_content_length]. now rewrite Hl.
Qed.

(** X1.  The [Content-Length] header is found whatever the case of its name
    and the whitespace around its value, behind any lines that are other
    headers, and the first such line decides; a frame whose header is
    written this way is cut off the buffer whole. *)
Theorem content_length_header_tolerant :
  (forall (pre post : list bytes) (name ws1 ws2 : bytes) (n : nat),
      Forall (fun line => startswith (lower line) content_length_lc = false)
             pre ->
      lower name = content_length_lc ->
      Forall (fun c => is_space c = true) ws1 ->
      Forall (fun c => is_space c = true) ws2 ->
      header_content_length
        (pre ++ (name ++ ws1 ++ str_of_len n ++ ws2) :: post)
      = Some (Return (Z.of_nat n))) /\
  (forall (name ws1 ws2 body rest : bytes),
      lower name = content_length_lc ->
      Forall (fun c => is_space c = true /\ c <> CR) ws1 ->
      Forall (fun c => is_space c = true /\ c <> CR) ws2 ->
      frame_step ((name ++ ws1 ++ str_of_len (length body) ++ ws2)
                  ++ CRLFCRLF ++ body ++ rest)
      = Frame body rest).
Proof.
  split.
  - intros pre post name ws1 ws2 n Hpre Hname H1 H2.
    rewrite header_content_length_skip by assumption.
    now apply content_length_line.
  - intros name ws1 ws2 body rest Hname H1 H2.
    set (hdr := name ++ ws1 ++ str_of_len (length body) ++ ws2).
    assert (Hcr : Forall (fun c => c <> CR) hdr).
    { destruct (content_length_name name Hname) as (_ & _ & _ & _ & Hn).
      unfold hdr. repeat (apply Forall_app; split); try assumption.
      - eapply Forall_impl; [exact H1|]. now intros c [_ Hc].
      - eapply Forall_impl; [apply str_of_len_digits|apply digit_not_CR].
      - eapply Forall_impl; [exact H2|]. now intros c [_ Hc]. }
    assert (Hwf : well_framed (hdr, body)).
    { split; cbn [fst snd].
      - pose proof (find_skip hdr CR [LF; CR; LF] [] Hcr) as H.
        now rewrite app_nil_r in H.
      - unfold CRLF. rewrite split_absent by assumption.
        apply content_length_line; [assumption| |].
        + eapply Forall_impl; [exact H1|]. now intros c [Hc _].
        + eapply Forall_impl; [exact H2|]. now intros c [Hc _]. }
    pose proof (frame_step_frame (hdr, body) rest Hwf) as H.
    unfold frame_bytes in H. cbn [fst snd] in H.
    now rewrite <- app_assoc in H.
Qed.


(** X3.  A [Content-Length] so negative that the end of the body falls on
    the start of the buffer, or before it, makes one turn of the inner loop
    cut an empty body and keep the whole buffer; the empty body is not JSON,
    so the turn is repeated: the loop goes on for ever and the handler is
    never called. *)
Theorem negative_length_never_ends {St : Type} (handle : json -> M St unit)
    (buf : bytes) (h : nat) (n : Z) (s : St) :
  find buf CRLFCRLF = Some h ->
  header_content_length (split (take h buf) CRLF) = Some (Return n) ->
  Z.of_nat h + 4 + n = 0 \/ Z.of_nat h + 4 + n <= - Z.of_nat (length buf) ->
  json_loads [] = None ->
  frame_step buf = Frame [] buf /\
  forall fuel : nat, frames_loop handle fuel buf s = mkReader buf s Spinning.
Proof.
  intros F Hn Hneg Hempty.
  pose proof (find_Some_bound _ _ _ F) as Hb. cbn [length CRLFCRLF] in Hb.
  assert (Hstep : frame_step buf = Frame [] buf).
  { unfold frame_step. rewrite F, Hn.
    destruct (Z.ltb_spec (Z.of_nat (length buf)) (Z.of_nat h + 4 + n));
      [lia|].
    f_equal.
    - unfold slice.
      replace (slice_index (length buf) (Z.of_nat h + 4 + n)) with O
        by (unfold slice_index; destruct (Z.ltb_spec (Z.of_nat h + 4 + n) 0);
            lia).
      reflexivity.
    - unfold slice_from.
      replace (slice_index (length buf) (Z.of_nat h + 4 + n)) with O
        by (unfold slice_index; destruct (Z.ltb_spec (Z.of_nat h + 4 + n) 0);
            lia).
      reflexivity. }
  split; [exact Hstep|].
  induction fuel as [|fuel IH]; [reflexivity|].
  cbn [frames_loop]. now rewrite Hstep, Hempty.
Qed.

(** X4.  A [Content-Length] whose value is not an integer ends the reader:
    the [ValueError] of [int] is caught by the outer handler, which leaves
    the loop; nothing of the buffer is handled, no later chunk is read, and
    the event [serverStopped] is written although the server has not
    stopped. *)
Theorem malformed_length_stops_reader (chunk : bytes) (h : nat)
    (more : list bytes) (st : bridge) :
  find chunk CRLFCRLF = Some h ->
  header_content_length (split (take h chunk) CRLF) = Some (Raise ValueError) ->
  read_lsp_messages (chunk :: more) st
  = mkReader chunk
      (add_resp (JDict [("type", JStr "serverStopped")]%string) st) Exited.
Proof.
  intros F Hn. unfold read_lsp_messages. rewrite read_chunks_cons.
  assert (Hone : read_chunk handle_lsp_message chunk (mkReader [] st Reading)
                 = mkReader chunk st Exited).
  { unfold read_chunk. cbn [rd_status rd_buf rd_state app].
    destruct chunk as [|c chunk]; [discriminate F|].
    cbn [frames_loop]. unfold frame_step. now rewrite F, Hn. }
  rewrite Hone, read_chunks_stopped by discriminate. reflexivity.
Qed.

(** X5.  A frame whose body is JSON and not an object kills the reader
    thread: [AttributeError] is caught nowhere, so the thread ends at once,
    without the event [serverStopped]; the state is as it was, and what
    follows the frame, in the buffer or in later chunks, is never handled. *)
Theorem non_object_message_kills_reader (f : frame) (rest : bytes) (v : json)
    (more : list bytes) (st : bridge) :
  well_framed f ->
  json_loads (snd f) = Some v ->
  is_dict v = false ->
  read_lsp_messages ((frame_bytes f ++ rest) :: more) st
  = mkReader rest st (Died AttributeError).
Proof.
  intros Hwf Hload Hv. unfold read_lsp_messages. rewrite read_chunks_cons.
  assert (Hone : read_chunk handle_lsp_message (frame_bytes f ++ rest)
                   (mkReader [] st Reading)
                 = mkReader rest st (Died AttributeError)).
  { unfold read_chunk. cbn [rd_status rd_buf rd_state app].
    destruct (frame_bytes f ++ rest) as [|c chunk] eqn:E.
    - apply app_eq_nil in E as [E _]. now apply frame_bytes_not_nil in E.
    - rewrite <- E. cbn [frames_loop].
      rewrite frame_step_frame by assumption. rewrite Hload.
      destruct v; try discriminate Hv; reflexivity. }
  rewrite Hone, read_chunks_stopped by discriminate. reflexivity.
Qed.

(* ===================================================================== *)
(** ** What the handlers write                                            *)
(* ===================================================================== *)

Lemma frames_of_app (a b : list json) :
  frames_of (a ++ b) = frames_of a ++ frames_of b.
Proof. unfold frames_of. now rewrite map_app, concat_app. Qed.

Lemma wrote_refl (st : bridge) : wrote [] [] st st.
Proof. unfold wrote. cbn. now rewrite !app_nil_r. Qed.

Lemma wrote_trans (evs1 evs2 msgs1 msgs2 : list json) (st1 st2 st3 : bridge) :
  wrote evs1 msgs1 st1 st2 -> wrote evs2 msgs2 st2 st3 ->
  wrote (evs1 ++ evs2) (msgs1 ++ msgs2) st1 st3.
Proof.
  intros (Hr1 & He1 & Hs1) (Hr2 & He2 & Hs2). repeat split.
  - congruence.
  - now rewrite He2, He1, app_assoc.
  - now rewrite Hs2, Hs1, frames_of_app, app_assoc.
Qed.

Lemma effects_weaken {A} (e f e' f' : nat) (m : M bridge A) :
  (e <= e')%nat -> (f <= f')%nat -> effects e f m -> effects e' f' m.
Proof.
  intros He Hf H st.
  destruct (H st) as (evs & msgs & Hw & Hle & Hlf & Hrest).
  exists evs, msgs. repeat split; try apply Hw; try apply Hrest; lia.
Qed.

Lemma effects_ret {A} (a : A) : effects 0 0 (ret a).
Proof.
  intros st. exists [], []. split; [apply wrote_refl|].
  repeat split; auto.
Qed.

Lemma effects_lift {A} (o : outcome A) : effects 0 0 (lift o).
Proof.
  intros st. exists [], []. split; [apply wrote_refl|].
  repeat split; auto.
Qed.

Lemma effects_bind {A B} (e1 f1 e2 f2 : nat) (m : M bridge A)
    (k : A -> M bridge B) :
  effects e1 f1 m -> (forall a, effects e2 f2 (k a)) ->
  effects (e1 + e2) (f1 + f2) (bind m k).
Proof.
  intros Hm Hk st. unfold bind.
  destruct (Hm st) as (evs1 & msgs1 & Hw1 & Hle1 & Hlf1 & Hev1 & Hrpc1 & Hoff1).
  destruct (m st) as [[a|x] st1]; cbn [snd] in *.
  - destruct (Hk a st1)
      as (evs2 & msgs2 & Hw2 & Hle2 & Hlf2 & Hev2 & Hrpc2 & Hoff2).
    exists (evs1 ++ evs2), (msgs1 ++ msgs2).
    split; [now apply wrote_trans with st1|].
    rewrite !length_app. repeat split; try lia; try (apply Forall_app; now split).
    intros Hoff. rewrite (Hoff1 Hoff), Hoff2; [reflexivity|].
    destruct Hw1 as (Hr & _). congruence.
  - exists evs1, msgs1. repeat split; try apply Hw1; auto; lia.
Qed.

Lemma effects_bind_silent {A B} (e f : nat) (m : M bridge A)
    (k : A -> M bridge B) :
  effects 0 0 m -> (forall a, effects e f (k a)) -> effects e f (bind m k).
Proof. intros Hm Hk. exact (effects_bind 0 0 e f m k Hm Hk). Qed.

Lemma effects_bind_event {A B} (e f : nat) (m : M bridge A)
    (k : A -> M bridge B) :
  effects 1 0 m -> (forall a, effects e f (k a)) ->
  effects (S e) f (bind m k).
Proof. intros Hm Hk. exact (effects_bind 1 0 e f m k Hm Hk). Qed.

Lemma effects_bind_frame {A B} (e f : nat) (m : M bridge A)
    (k : A -> M bridge B) :
  effects 0 1 m -> (forall a, effects e f (k a)) ->
  effects e (S f) (bind m k).
Proof. intros Hm Hk. exact (effects_bind 0 1 e f m k Hm Hk). Qed.

Lemma effects_except (e f : nat) (m : M bridge unit) :
  effects e f m -> effects e f (except_KeyError m).
Proof.
  intros Hm st. unfold except_KeyError. specialize (Hm st).
  destruct (m st) as [[a|[]] st']; exact Hm.
Qed.

Lemma effects_write_resp (data : json) :
  is_event data -> effects 1 0 (write_resp data).
Proof.
  intros Hd st. exists [data], []. split.
  - unfold wrote. cbn. now rewrite app_nil_r.
  - repeat split; auto.
Qed.

Lemma effects_lsp_send (message : json) :
  is_rpc message -> effects 0 1 (lsp_send message).
Proof.
  intros Hm st. unfold lsp_send. destruct (lsp_running st) eqn:Hrun.
  - exists [], [message]. split.
    + unfold wrote, frames_of. cbn. now rewrite !app_nil_r.
    + repeat split; auto. discriminate.
  - exists [], []. split; [apply wrote_refl|]. repeat split; auto.
Qed.

Lemma effects_lsp_notify (method : string) (params : json) :
  effects 0 1 (lsp_notify method params).
Proof. apply effects_lsp_send. now eexists. Qed.

Lemma effects_silent_state {A} (m : M bridge A) :
  (forall st, wrote [] [] st (snd (m st))) -> effects 0 0 m.
Proof.
  intros H st. exists [], []. split; [apply H|]. repeat split; auto.
Qed.

Lemma effects_next_lsp_id : effects 0 0 next_lsp_id.
Proof.
  apply effects_silent_state. intros st. unfold wrote. cbn.
  now rewrite !app_nil_r.
Qed.

Lemma effects_find_pending (msg_id : json) : effects 0 0 (find_pending msg_id).
Proof.
  unfold find_pending. apply effects_bind_silent; [apply effects_lift|].
  intros key. apply effects_silent_state. intros st. apply wrote_refl.
Qed.

Lemma effects_pop_pending (k : Z) (entry : json * string) :
  effects 0 0 (pop_pending k entry).
Proof.
  apply effects_silent_state. intros st. unfold wrote. cbn.
  now rewrite !app_nil_r.
Qed.

Lemma effects_lsp_request (method : string) (params plugin_req_id : json) :
  effects 0 1 (lsp_request method params plugin_req_id).
Proof.
  unfold lsp_request.
  apply effects_bind_silent; [apply effects_next_lsp_id|]. intros lsp_id.
  apply effects_bind_silent.
  - destruct (negb (is_none plugin_req_id)); [|apply effects_ret].
    apply effects_silent_state. intros st. unfold wrote. cbn.
    now rewrite !app_nil_r.
  - intros _. replace 1%nat with (1 + 0)%nat by reflexivity.
    apply effects_bind_frame; [|intros _; apply effects_ret].
    apply effects_lsp_send. now eexists.
Qed.

(** The walk through a handler, by the shape of the computation. *)
Ltac effects_leaf :=
  first
    [ eapply effects_weaken; [| |apply effects_ret]; lia
    | eapply effects_weaken; [| |apply effects_lift]; lia
    | eapply effects_weaken;
        [| |apply effects_write_resp; eexists _, _; reflexivity]; lia
    | eapply effects_weaken;
        [| |apply effects_lsp_send; eexists; reflexivity]; lia
    | eapply effects_weaken; [| |apply effects_lsp_notify]; lia ].

Ltac effects_walk :=
  repeat match goal with
    | |- effects _ _ (if ?c then _ else _) => destruct c
    | |- effects _ _ (let (_, _) := ?p in _) => destruct p
    | |- effects _ _ (match ?o with Some _ => _ | None => _ end) =>
        destruct o
    | |- effects _ _ (bind (lift _) _) =>
        apply effects_bind_silent; [apply effects_lift|intros ?]
    | |- effects _ _ (bind (find_pending _) _) =>
        apply effects_bind_silent; [apply effects_find_pending|intros ?]
    | |- effects _ _ (bind (pop_pending _ _) _) =>
        apply effects_bind_silent; [apply effects_pop_pending|intros ?]
    | |- effects _ _ (bind (if _ then _ else _) _) =>
        apply effects_bind_silent; [|intros ?]
    | |- effects _ _ (bind (write_resp _) _) =>
        apply effects_bind_event;
        [apply effects_write_resp; eexists _, _; reflexivity|intros ?]
    | |- effects _ _ (bind (lsp_send _) _) =>
        apply effects_bind_frame;
        [apply effects_lsp_send; eexists; reflexivity|intros ?]
    | |- effects _ _ (bind (lsp_notify _ _) _) =>
        apply effects_bind_frame; [apply effects_lsp_notify|intros ?]
    | |- effects _ _ (bind (lsp_request _ _ _) _) =>
        apply effects_bind_frame; [apply effects_lsp_request|intros ?]
    | |- effects _ _ (ret _) => effects_leaf
    | |- effects _ _ (lift _) => effects_leaf
    | |- effects _ _ (write_resp _) => effects_leaf
    | |- effects _ _ (lsp_send _) => effects_leaf
    | |- effects _ _ (lsp_notify _ _) => effects_leaf
    end.

Lemma effects_dispatch_lsp_response (method : string)
    (plugin_req_id result : json) :
  effects 1 1 (dispatch_lsp_response method plugin_req_id result).
Proof. unfold dispatch_lsp_response. effects_walk. Qed.

Lemma effects_handle_lsp_message (msg : json) :
  effects 1 1 (handle_lsp_message msg).
Proof.
  unfold handle_lsp_message, method_not_found. effects_walk.
  apply effects_dispatch_lsp_response.
Qed.

Lemma effects_handle_plugin_message (msg : json) :
  effects 0 1 (handle_plugin_message msg).
Proof. unfold handle_plugin_message. effects_walk. Qed.

Lemma bridge_step_effects (i : input) (st : bridge) :
  exists evs msgs,
    wrote evs msgs st (bridge_step i st) /\
    (length evs <= if from_server i then 1 else 0)%nat /\
    (length msgs <= 1)%nat /\
    Forall is_event evs /\ Forall is_rpc msgs /\
    (lsp_running st = false -> msgs = []).
Proof.
  destruct i as [msg|msg]; cbn [bridge_step from_server].
  - apply (effects_except 0 1), effects_handle_plugin_message.
  - apply effects_handle_lsp_message.
Qed.

(** X6.  Along any run of the bridge the response log and the standard input
    of the language server only grow: the log by events, at most one for
    each message of the server and none for the commands of the plugin; the
    input of the server by whole frames of JSON-RPC objects, at most one for
    each input, and by nothing at all when the server is not running. *)
Theorem bridge_writes_whole_frames (inputs : list input) (st : bridge) :
  exists evs msgs,
    wrote evs msgs st (bridge_run inputs st) /\
    (length evs <= length (List.filter from_server inputs))%nat /\
    (length msgs <= length inputs)%nat /\
    Forall is_event evs /\ Forall is_rpc msgs /\
    (lsp_running st = false -> msgs = []).
Proof.
  revert st; induction inputs as [|i inputs IH]; intros st.
  - exists [], []. split; [apply wrote_refl|]. repeat split; auto.
  - cbn [bridge_run fold_left].
    destruct (bridge_step_effects i st)
      as (evs1 & msgs1 & Hw1 & Hle1 & Hlf1 & Hev1 & Hrpc1 & Hoff1).
    destruct (IH (bridge_step i st))
      as (evs2 & msgs2 & Hw2 & Hle2 & Hlf2 & Hev2 & Hrpc2 & Hoff2).
    exists (evs1 ++ evs2), (msgs1 ++ msgs2).
    split; [now apply wrote_trans with (bridge_step i st)|].
    rewrite !length_app. cbn [List.filter length].
    repeat split; try (apply Forall_app; now split).
    + destruct (from_server i); cbn [length]; lia.
    + lia.
    + intros Hoff. rewrite (Hoff1 Hoff), Hoff2; [reflexivity|].
      destruct Hw1 as (Hr & _). congruence.
Qed.

(* ===================================================================== *)
(** ** Requests in flight                                                 *)
(* ===================================================================== *)

Lemma bridge_run_cons (i : input) (inputs : list input) (st : bridge) :
  bridge_run (i :: inputs) st = bridge_run inputs (bridge_step i st).
Proof. reflexivity. Qed.

Lemma allocates_keeps {A} (m : M bridge A) : keeps_registry m -> allocates m.
Proof. intros H st. left. apply H. Qed.

Lemma allocates_bind_keeps {A B} (m : M bridge A) (k : A -> M bridge B) :
  keeps_registry m -> (forall a, allocates (k a)) -> allocates (bind m k).
Proof.
  intros Hm Hk st. unfold bind. destruct (Hm st) as [Hp Hc].
  destruct (m st) as [[a|e] st1]; cbn [snd] in *; [|now left].
  specialize (Hk a st1). cbv zeta in Hk. rewrite Hp, Hc in Hk. exact Hk.
Qed.

Lemma allocates_then_keeps {A B} (m : M bridge A) (k : A -> M bridge B) :
  allocates m -> (forall a, keeps_registry (k a)) -> allocates (bind m k).
Proof.
  intros Hm Hk st. unfold bind. specialize (Hm st). cbv zeta in Hm.
  destruct (m st) as [[a|e] st1]; cbn [snd] in *; [|exact Hm].
  destruct (Hk a st1) as [Hp Hc]. now rewrite Hp, Hc.
Qed.

Lemma allocates_except (m : M bridge unit) :
  allocates m -> allocates (except_KeyError m).
Proof.
  intros Hm st. unfold except_KeyError. specialize (Hm st).
  destruct (m st) as [[a|[]] st']; exact Hm.
Qed.

(** What [lsp_request] does: the next id is taken and returned, the entry
    is registered under it when the plugin gave an id, and the request is
    written to the server if it runs. *)
Lemma lsp_request_state (method : string) (params plugin_req_id : json)
    (st : bridge) :
  let lsp_id := request_counter st + 1 in
  let message := rpc [("id", JInt lsp_id); ("method", JStr method);
                      ("params", params)]%string in
  lsp_request method params plugin_req_id st
  = (Return lsp_id,
     mkBridge (if is_none plugin_req_id then pending_requests st
               else <[lsp_id := (plugin_req_id, method)]> (pending_requests st))
              lsp_id (resp st) (lsp_running st)
              (if lsp_running st
               then lsp_stdin st ++ lsp_frame (json_dumps message)
               else lsp_stdin st)).
Proof.
  unfold lsp_request, bind, next_lsp_id, lsp_send, ret, set_pending,
    set_counter, add_stdin.
  destruct (is_none plugin_req_id);
    cbn [negb pending_requests request_counter resp lsp_running lsp_stdin];
    destruct (lsp_running st) eqn:Hrun; rewrite ?Hrun; reflexivity.
Qed.

Lemma allocates_lsp_request (method : string) (params plugin_req_id : json) :
  allocates (lsp_request method params plugin_req_id).
Proof.
  intros st. rewrite lsp_request_state. cbn. right. split; [reflexivity|].
  destruct (is_none plugin_req_id); [now left|right; now eexists].
Qed.

Ltac allocates_walk :=
  repeat match goal with
    | |- allocates (if ?c then _ else _) => destruct c
    | |- allocates (bind (lift _) _) =>
        apply allocates_bind_keeps; [apply keeps_lift|intros ?]
    | |- allocates (bind (lsp_request _ _ _) _) =>
        apply allocates_then_keeps;
        [apply allocates_lsp_request|intros ?; apply keeps_ret]
    | |- allocates (lsp_notify _ _) => apply allocates_keeps, keeps_lsp_notify
    | |- allocates (ret _) => apply allocates_keeps, keeps_ret
    end.

Lemma allocates_handle_plugin_message (msg : json) :
  allocates (handle_plugin_message msg).
Proof. unfold handle_plugin_message. allocates_walk. Qed.

(** A command of the plugin leaves the entries of a bounded registry where
    they are. *)
Lemma plugin_step_keeps_entry (msg : json) (st : bridge) (k : Z)
    (entry : json * string) :
  bounded st ->
  pending_requests st !! k = Some entry ->
  pending_requests (bridge_step (FromPlugin msg) st) !! k = Some entry.
Proof.
  intros Hb Hk. cbn [bridge_step].
  pose proof (allocates_except _ (allocates_handle_plugin_message msg) st)
    as H. cbv zeta in H.
  destruct H as [[-> _] | [_ [-> | [e ->]]]]; try assumption.
  rewrite lookup_insert_ne; [assumption|].
  specialize (Hb k entry Hk). lia.
Qed.

Lemma is_response_of_test (kv : list (string * json)) :
  negb (is_none (dict_get kv "id")) && is_none (dict_get kv "method") = true ->
  is_response kv.
Proof.
  intros H. apply andb_prop in H as [Hid Hm]. split.
  - intros E. rewrite E in Hid. discriminate.
  - destruct (dict_get kv "method"); try discriminate. reflexivity.
Qed.

(** A message of the server leaves the counter alone, and the registry too
    unless it is a response whose id is registered: then that entry goes. *)
Lemma handle_lsp_message_registry (msg : json) (st : bridge) :
  let st' := snd (handle_lsp_message msg st) in
  request_counter st' = request_counter st /\
  (pending_requests st' = pending_requests st \/
   exists kv k entry,
     msg = JDict kv /\ is_response kv /\
     int_key (dict_get kv "id") = Return (Some k) /\
     pending_requests st !! k = Some entry /\
     pending_requests st' = delete k (pending_requests st)).
Proof.
  cbv zeta. destruct msg as [| | | | |kv]; try (split; [reflexivity|now left]).
  destruct (negb (is_none (dict_get kv "id")) && is_none (dict_get kv "method"))
    eqn:T.
  - pose proof (is_response_of_test kv T) as Hresp.
    destruct (int_key (dict_get kv "id")) as [[k|]|e] eqn:K.
    + destruct (pending_requests st !! k) as [[hid meth]|] eqn:L.
      * rewrite (handle_response_hit st kv k hid meth Hresp K L).
        destruct (keeps_translate meth hid kv (set_pending (delete k) st))
          as [Hp Hc].
        split; [exact Hc|]. right. exists kv, k, (hid, meth).
        exact (conj eq_refl (conj Hresp (conj K (conj L Hp)))).
      * rewrite (handle_response_miss st kv (Some k) Hresp K);
          [split; [reflexivity|now left]|].
        now intros k' [= <-].
    + rewrite (handle_response_miss st kv None Hresp K);
        [split; [reflexivity|now left]|].
      intros k' [=].
    + unfold handle_lsp_message. cbn [py_get py_get_default lift bind].
      fold (dict_get kv "id") (dict_get kv "method"). rewrite T.
      unfold find_pending. cbn [bind lift]. rewrite K.
      split; [reflexivity|now left].
  - unfold handle_lsp_message. cbn [py_get py_get_default lift bind].
    fold (dict_get kv "id") (dict_get kv "method"). rewrite T.
    match goal with
    | |- context [snd (?m st)] =>
        assert (Hkeep : keeps_registry m) by keeps_walk
    end.
    destruct (Hkeep st) as [Hp Hc]. split; [exact Hc|now left].
Qed.

Lemma server_step_keeps_entry (msg : json) (st : bridge) (k : Z)
    (entry : json * string) :
  ~ answers k (FromServer msg) ->
  pending_requests st !! k = Some entry ->
  pending_requests (bridge_step (FromServer msg) st) !! k = Some entry.
Proof.
  intros Hno Hk. cbn [bridge_step].
  destruct (handle_lsp_message_registry msg st)
    as [_ [-> | (kv & k' & e' & -> & Hresp & Hkey & _ & ->)]]; [assumption|].
  rewrite lookup_delete_ne; [assumption|].
  intros <-. apply Hno. now exists kv.
Qed.

(** X7.  Messages of the language server never take a request id and never
    register anything: after any number of them the counter is where it was
    and every entry of the registry was there before. *)
Theorem server_messages_register_nothing (msgs : list json) (st : bridge) :
  let st' := bridge_run (map FromServer msgs) st in
  request_counter st' = request_counter st /\
  forall k entry,
    pending_requests st' !! k = Some entry ->
    pending_requests st !! k = Some entry.
Proof.
  cbv zeta. revert st; induction msgs as [|msg msgs IH]; intros st.
  - split; [reflexivity|auto].
  - cbn [map]. rewrite bridge_run_cons.
    destruct (IH (bridge_step (FromServer msg) st)) as [Hc Hp].
    cbn [bridge_step] in *.
    destruct (handle_lsp_message_registry msg st) as [Hc1 Hp1].
    split; [now rewrite Hc|].
    intros k entry H. specialize (Hp k entry H).
    destruct Hp1 as [Hsame | (kv & k' & e' & _ & _ & _ & _ & Hdel)].
    + now rewrite Hsame in Hp.
    + rewrite Hdel in Hp. apply lookup_delete_Some in Hp. apply Hp.
Qed.

(** X8.  A registered request stays registered, with the id of the plugin
    and the method it was registered with, whatever the bridge handles,
    until a response with its id arrives: no command and no other message
    removes or overwrites the entry. *)
Theorem pending_until_answered (inputs : list input) (st : bridge) (k : Z)
    (entry : json * string) :
  bounded st ->
  pending_requests st !! k = Some entry ->
  Forall (fun i => ~ answers k i) inputs ->
  pending_requests (bridge_run inputs st) !! k = Some entry.
Proof.
  intros Hb Hk Hno. revert st Hb Hk.
  induction Hno as [|i inputs Hi _ IH]; intros st Hb Hk; [exact Hk|].
  rewrite bridge_run_cons. apply IH.
  - eapply bounded_step; [exact Hb|apply registry_step_bridge_step].
  - destruct i as [msg|msg].
    + now apply plugin_step_keeps_entry.
    + now apply server_step_keeps_entry.
Qed.


(* ===================================================================== *)
(** ** Commands of the plugin                                             *)
(* ===================================================================== *)

(** One branch of a handler, run on a state. *)
Ltac run_handler :=
  repeat first
    [ progress cbn [bind lift ret py_get py_get_default py_item]
    | progress unfold dict_item
    | match goal with
      | |- context [match assoc ?kv ?f with Some _ => _ | None => _ end] =>
          destruct (assoc kv f) eqn:?
      | |- context [py_iter ?w] => destruct (py_iter w) eqn:?
      | |- context [if truthy ?v then _ else _] => destruct (truthy v) eqn:?
      | |- context [py_get ?v _] => destruct v eqn:?
      | |- context [py_get_default ?v _ _] => destruct v eqn:?
      end ].

(** What a command does, by cases: it raises and leaves the state as it
    was, or does nothing, or sends one notification, or sends one
    request. *)
Lemma handle_plugin_message_cases (kv : list (string * json)) (st : bridge)
    (r : outcome unit * bridge) :
  handle_plugin_message (JDict kv) st = r ->
  (exists e, r = (Raise e, st)) \/
  (request_method (dict_get kv "type") = None /\
   (r = (Return tt, st) \/
    exists method params, r = lsp_notify method params st)) \/
  (exists method params,
     request_method (dict_get kv "type") = Some method /\
     r = (Return tt, snd (lsp_request method params (dict_get kv "id") st))).
Proof.
  unfold handle_plugin_message, request_method.
  cbn [py_get py_get_default lift bind].
  fold (dict_get kv "type") (dict_get kv "id").
  destruct (dict_get kv "type") as [| | |s| |] eqn:Hty; cbn [eq_str];
    try (intros <-; right; left; split; [reflexivity|now left]).
  string_cases s.
  all: run_handler.
  all: intros <-.
  all: try (left; now eexists).
  all: try (right; left; split; [reflexivity|right; now eexists _, _]).
  all: try (right; left; split; [reflexivity|now left]).
  all: try match goal with
           | |- context [bind (lsp_request ?m ?p _) _ _] =>
               right; right; exists m, p; split; [reflexivity|];
               unfold bind; rewrite lsp_request_state; reflexivity
           end.
Qed.

(** X9.  A command that raises leaves the bridge as it was: every exception
    comes from reading the command, before anything is written.  A command
    that returns moves the counter and the registry exactly when its type is
    one of the five that are requests: the next id is taken and, when the
    command carries an id, registered with that id and the method of the
    request. *)
Theorem command_registers_request (kv : list (string * json)) (st : bridge) :
  let run := handle_plugin_message (JDict kv) st in
  let st' := snd run in
  let req_id := dict_get kv "id" in
  (fst run <> Return tt -> st' = st) /\
  (fst run = Return tt ->
   match request_method (dict_get kv "type") with
   | Some method =>
       request_counter st' = request_counter st + 1 /\
       pending_requests st'
       = (if is_none req_id then pending_requests st
          else <[request_counter st + 1 := (req_id, method)]>
                 (pending_requests st))
   | None =>
       request_counter st' = request_counter st /\
       pending_requests st' = pending_requests st
   end).
Proof.
  cbv zeta.
  destruct (handle_plugin_message_cases kv st _ eq_refl)
    as [[e H] | [[Hn [H | (m & p & H)]] | (m & p & Hm & H)]]; rewrite H.
  - split; [reflexivity|discriminate].
  - rewrite Hn. split; [reflexivity|now split].
  - rewrite Hn. destruct (keeps_lsp_notify m p st) as [Hp Hc].
    split; [|now split].
    unfold lsp_notify, lsp_send. destruct (lsp_running st); intros E;
      now contradiction E.
  - rewrite Hm. cbn [fst snd]. split; [intros E; now contradiction E|].
    intros _. rewrite lsp_request_state. now split.
Qed.

(** The state after a command that has become a request. *)
Lemma request_command_state (kv : list (string * json)) (method : string)
    (st : bridge) :
  request_method (dict_get kv "type") = Some method ->
  fst (handle_plugin_message (JDict kv) st) = Return tt ->
  exists params,
    snd (handle_plugin_message (JDict kv) st)
    = snd (lsp_request method params (dict_get kv "id") st).
Proof.
  intros Hm Hret.
  destruct (handle_plugin_message_cases kv st _ eq_refl)
    as [[e H] | [[Hn _] | (m & p & Hm' & H)]].
  - rewrite H in Hret. discriminate.
  - congruence.
  - rewrite H. exists p. cbn [snd]. congruence.
Qed.

Lemma bounded_next_free (st : bridge) :
  bounded st -> pending_requests st !! (request_counter st + 1) = None.
Proof.
  intros Hb. destruct (pending_requests st !! (request_counter st + 1))
    as [e|] eqn:E; [|reflexivity].
  specialize (Hb _ _ E). lia.
Qed.

(** X10.  From a command to its answer.  A command that has become a
    request, with the id the plugin gave it, followed by the response of the
    server to that request: the response is translated for the method of the
    request and the id of the plugin, on a registry that is again as it was
    before the command. *)
Theorem command_response_correlated (kv kv' : list (string * json))
    (method : string) (st : bridge) :
  bounded st ->
  request_method (dict_get kv "type") = Some method ->
  fst (handle_plugin_message (JDict kv) st) = Return tt ->
  dict_get kv "id" <> JNull ->
  is_response kv' ->
  int_key (dict_get kv' "id") = Return (Some (request_counter st + 1)) ->
  let st1 := snd (handle_plugin_message (JDict kv) st) in
  pending_requests st1 !! (request_counter st + 1)
  = Some (dict_get kv "id", method) /\
  handle_lsp_message (JDict kv') st1
  = translate method (dict_get kv "id") kv'
      (set_pending (fun _ => pending_requests st) st1) /\
  pending_requests (snd (handle_lsp_message (JDict kv') st1))
  = pending_requests st.
Proof.
  intros Hb Hm Hret Hid Hresp Hkey st1.
  destruct (request_command_state kv method st Hm Hret) as [params Hst].
  subst st1. rewrite Hst, lsp_request_state. cbv zeta. cbn [snd].
  replace (is_none (dict_get kv "id")) with false
    by (destruct (dict_get kv "id"); cbn; congruence).
  set (k := request_counter st + 1).
  set (st1 := mkBridge _ _ _ _ _).
  assert (Hlook : pending_requests st1 !! k = Some (dict_get kv "id", method))
    by apply lookup_insert_eq.
  assert (Hrun : handle_lsp_message (JDict kv') st1
                 = translate method (dict_get kv "id") kv'
                     (set_pending (fun _ => pending_requests st) st1)).
  { rewrite (handle_response_hit st1 kv' k _ _ Hresp Hkey Hlook).
    f_equal. unfold set_pending, st1.
    cbn [pending_requests request_counter resp lsp_running lsp_stdin].
    f_equal. apply delete_insert_id. now apply bounded_next_free. }
  split; [exact Hlook|]. split; [exact Hrun|].
  rewrite Hrun.
  now destruct (keeps_translate method (dict_get kv "id") kv'
                  (set_pending (fun _ => pending_requests st) st1)).
Qed.

(** X11.  A command without an id is sent to the server all the same, and
    nothing is registered for it: the response of the server is dropped like
    any response to an unknown id, and no event tells the plugin. *)
Theorem command_without_id_unanswered (kv kv' : list (string * json))
    (method : string) (st : bridge) :
  bounded st ->
  request_method (dict_get kv "type") = Some method ->
  fst (handle_plugin_message (JDict kv) st) = Return tt ->
  dict_get kv "id" = JNull ->
  is_response kv' ->
  int_key (dict_get kv' "id") = Return (Some (request_counter st + 1)) ->
  let st1 := snd (handle_plugin_message (JDict kv) st) in
  (exists params,
      lsp_stdin st1
      = if lsp_running st
        then lsp_stdin st
             ++ lsp_frame
                  (json_dumps
                     (rpc [("id", JInt (request_counter st + 1));
                           ("method", JStr method);
                           ("params", params)]%string))
        else lsp_stdin st) /\
  pending_requests st1 = pending_requests st /\
  handle_lsp_message (JDict kv') st1 = (Return tt, st1).
Proof.
  intros Hb Hm Hret Hid Hresp Hkey st1.
  destruct (request_command_state kv method st Hm Hret) as [params Hst].
  subst st1. rewrite Hst, lsp_request_state. cbv zeta. cbn [snd].
  rewrite Hid. cbn [is_none lsp_stdin pending_requests].
  split; [now exists params|]. split; [reflexivity|].
  apply handle_response_miss with (key := Some (request_counter st + 1));
    try assumption.
  intros k [= <-]. cbn [pending_requests]. now apply bounded_next_free.
Qed.


(** X12.  A command of a type the bridge does not know, or without a type,
    is ignored: no id is taken, nothing is registered or sent, no event is
    written, and nothing is raised. *)
Theorem unknown_command_ignored (kv : list (string * json)) (st : bridge) :
  existsb (eq_str (dict_get kv "type")) command_types = false ->
  handle_plugin_message (JDict kv) st = (Return tt, st).
Proof.
  intros H. cbn in H. repeat (apply orb_false_elim in H as [? H]).
  unfold handle_plugin_message. cbn [py_get py_get_default lift bind].
  fold (dict_get kv "type").
  repeat match goal with
         | E : eq_str _ _ = false |- _ => rewrite E; clear E
         end.
  reflexivity.
Qed.

Lemma handle_plugin_message_missing_field (kv : list (string * json))
    (st : bridge) (field : string) :
  In field (required_fields (dict_get kv "type")) ->
  assoc kv field = None ->
  handle_plugin_message (JDict kv) st = (Raise KeyError, st).
Proof.
  unfold handle_plugin_message, required_fields.
  cbn [py_get py_get_default lift bind].
  fold (dict_get kv "type") (dict_get kv "id").
  destruct (dict_get kv "type") as [| | |s| |] eqn:Hty; cbn [eq_str orb];
    try (intros Hin; now destruct Hin).
  string_cases s; cbn [orb In]; intros Hin Hnone.
  all: repeat match goal with
              | H : _ \/ _ |- _ => destruct H as [<-|H]
              | H : False |- _ => destruct H
              end.
  all: cbn [bind lift py_item dict_item]; unfold dict_item; rewrite ?Hnone;
    try reflexivity.
  now destruct (assoc kv "uri").
Qed.

(** X13.  A command that lacks a field it must have raises [KeyError] before
    anything is done, and the watcher passes over its line: the lines after
    it are handled as if it had not been there.  So is a line that is not
    JSON. *)
Theorem bad_lines_are_skipped (line : bytes) (rest : list bytes)
    (st : bridge) :
  (json_loads line = None \/
   exists kv field,
     json_loads line = Some (JDict kv) /\
     In field (required_fields (dict_get kv "type")) /\
     assoc kv field = None) ->
  dispatch_lines handle_plugin_message (line :: rest) st
  = dispatch_lines handle_plugin_message rest st /\
  forall kv, json_loads line = Some (JDict kv) ->
             handle_plugin_message (JDict kv) st = (Raise KeyError, st).
Proof.
  intros H. cbn [dispatch_lines]. unfold bind at 1.
  destruct H as [Hload | (kv & field & Hload & Hin & Hnone)]; rewrite Hload.
  - split; [|discriminate]. now destruct (str_strip line).
  - pose proof (handle_plugin_message_missing_field kv st field Hin Hnone)
      as Hraise.
    split; [|now intros kv' [= <-]].
    destruct (str_strip line); [reflexivity|].
    unfold except_KeyError. now rewrite Hraise.
Qed.

(** Whether a command that is an object gets past the watcher, which
    catches [KeyError] and nothing else. *)
Lemma command_returns_iff_shape (kv : list (string * json)) (st : bridge) :
  fst (except_KeyError (handle_plugin_message (JDict kv)) st) = Return tt
  <-> command_shape_ok kv = true.
Proof.
  unfold except_KeyError, handle_plugin_message, command_shape_ok, dict_get.
  cbn [py_get py_get_default lift bind].
  destruct (dict_get_default kv "type" JNull) as [| | |s| |] eqn:Hty;
    cbn [eq_str]; try (split; reflexivity).
  string_cases s.
  all: run_handler.
  all: unfold lsp_notify, lsp_send, bind; rewrite ?lsp_request_state.
  all: try (destruct (lsp_running st)).
  all: cbn [fst snd ret].
  all: try (split; reflexivity).
  all: repeat match goal with
              | H : py_iter _ = Raise _ |- _ =>
                  apply py_iter_raise in H; subst
              | H : dict_get_default _ _ _ = _, H' : truthy _ = _ |- _ =>
                  rewrite H in H'
              end.
  all: repeat match goal with
              | H : truthy _ = _ |- _ => rewrite H; clear H
              end.
  all: cbn [fst negb orb is_dict]; split; congruence.
Qed.

(** X14.  A command that is an object gets past the watcher, which catches
    [KeyError] and nothing else, exactly when the fields that the handler
    iterates or asks for their fields have the shape for it: any other
    [workspaceFolders] of an [initialize] raises [TypeError], any other
    [command] of a [didAcceptCompletion] raises [AttributeError]. *)
Theorem command_passes_watcher_iff (kv : list (string * json)) (st : bridge) :
  fst (except_KeyError (handle_plugin_message (JDict kv)) st) = Return tt
  <-> command_shape_ok kv = true.
Proof. apply command_returns_iff_shape. Qed.

(** X15.  Lines that are blank, or not JSON, or objects of that shape never
    stop the watcher: the loop over the lines of a poll runs to its end. *)
Theorem harmless_lines_keep_watcher (lines : list bytes) (st : bridge) :
  Forall harmless_line lines ->
  fst (dispatch_lines handle_plugin_message lines st) = Return tt.
Proof.
  intros H. revert st. induction H as [|line lines Hline _ IH]; intros st;
    [reflexivity|].
  cbn [dispatch_lines]. unfold bind at 1.
  destruct (str_strip line) as [|c r] eqn:Hs; [apply IH|].
  destruct Hline as [Hblank | [Hload | (kv & Hload & Hshape)]].
  - congruence.
  - rewrite Hload. apply IH.
  - rewrite Hload.
    apply (command_returns_iff_shape kv st) in Hshape.
    destruct (except_KeyError (handle_plugin_message (JDict kv)) st)
      as [[[]|e] st1]; [apply IH|discriminate].
Qed.



(* ===================================================================== *)
(** ** Calls of the server                                                *)
(* ===================================================================== *)

Lemma not_response_test (kv : list (string * json)) :
  ~ is_response kv ->
  negb (is_none (dict_get kv "id")) && is_none (dict_get kv "method") = false.
Proof.
  intros H. destruct (_ && _) eqn:T; [|reflexivity].
  now apply is_response_of_test in T.
Qed.

Lemma py_len_raise (v : json) (e : exn) : py_len v = Raise e -> e = TypeError.
Proof. destruct v; cbn; congruence. Qed.

Lemma handle_lsp_call_cases (kv : list (string * json)) (st : bridge)
    (r : outcome unit * bridge) :
  ~ is_response kv ->
  handle_lsp_message (JDict kv) st = r ->
  (params_ok kv = true /\ fst r = Return tt) \/
  (params_ok kv = false /\
   (r = (Raise AttributeError, st) \/ r = (Raise TypeError, st))).
Proof.
  intros Hno. unfold handle_lsp_message, params_ok, reads_params.
  cbn [py_get py_get_default lift bind existsb].
  fold (dict_get kv "id") (dict_get kv "method").
  rewrite (not_response_test kv Hno).
  destruct (dict_get kv "method") as [| | |s| |] eqn:Hm; cbn [eq_str orb];
    try (intros <-; left; split; [reflexivity|];
         unfold lsp_send; destruct (negb _); [destruct (lsp_running st)|];
         reflexivity).
  string_cases s; cbn [orb].
  all: run_handler.
  all: try match goal with
           | |- context [py_len ?v] => destruct (py_len v) eqn:?
           end; cbn [bind lift].
  all: intros <-.
  all: try (right; split; [reflexivity|now left]).
  all: try (left; split; [reflexivity|];
            unfold bind, write_resp, lsp_send; cbn [fst snd];
            try destruct (negb _); try destruct (lsp_running _);
            reflexivity).
  apply py_len_raise in Heqo. subst e. right. split; [reflexivity|now right].
Qed.

(** X16.  A message of the server that is a request or a notification, and
    no response, is handled without an exception exactly when the [params]
    it is read for have the shape for it; otherwise [AttributeError] or
    [TypeError] is raised before anything is written, and the bridge is as
    it was.  An explicit [null] for [params] is such a case: the default of
    [get] is for a field that is absent. *)
Theorem server_call_returns_iff (kv : list (string * json)) (st : bridge) :
  ~ is_response kv ->
  let run := handle_lsp_message (JDict kv) st in
  (fst run = Return tt <-> params_ok kv = true) /\
  (fst run <> Return tt ->
   run = (Raise AttributeError, st) \/ run = (Raise TypeError, st)).
Proof.
  intros Hno. cbv zeta.
  destruct (handle_lsp_call_cases kv st _ Hno eq_refl)
    as [[Hok Hret] | [Hok Hraise]].
  - split; [now split|]. intros H. now contradiction H.
  - split; [|now intros _].
    rewrite Hok. destruct Hraise as [-> | ->]; split; discriminate.
Qed.


(** X17.  The two requests of the server that the bridge shows to the
    plugin: one event is written and one reply is sent at once, a [null]
    result for [window/showMessageRequest] and a success for
    [window/showDocument], so that the server does not wait. *)
Theorem show_requests_event_and_reply (kv p : list (string * json))
    (st : bridge) :
  dict_get_default kv "params" (JDict []) = JDict p ->
  lsp_running st = true ->
  let msg_id := dict_get kv "id" in
  (eq_str (dict_get kv "method") "window/showMessageRequest" = true ->
   handle_lsp_message (JDict kv) st
   = (Return tt,
      mkBridge (pending_requests st) (request_counter st)
        (resp st
         ++ [JDict [("type", JStr "showMessageRequest");
                    ("id", JStr (py_str msg_id));
                    ("message", dict_get_default p "message" (JStr ""));
                    ("msgType", dict_get_default p "type" (JInt 3));
                    ("actions", dict_get_default p "actions" (JList []))]
            ]%string)
        (lsp_running st)
        (lsp_stdin st
         ++ lsp_frame
              (json_dumps
                 (JDict [("jsonrpc", JStr "2.0"); ("id", msg_id);
                         ("result", JNull)]%string))))) /\
  (eq_str (dict_get kv "method") "window/showDocument" = true ->
   handle_lsp_message (JDict kv) st
   = (Return tt,
      mkBridge (pending_requests st) (request_counter st)
        (resp st
         ++ [JDict [("type", JStr "showDocument");
                    ("uri", dict_get_default p "uri" (JStr ""))]]%string)
        (lsp_running st)
        (lsp_stdin st
         ++ lsp_frame
              (json_dumps
                 (JDict [("jsonrpc", JStr "2.0"); ("id", msg_id);
                         ("result",
                          JDict [("success", JBool true)])]%string))))).
Proof.
  intros Hparams Hrun. cbv zeta.
  split; intros Hm; unfold handle_lsp_message;
    cbn [py_get py_get_default lift bind];
    fold (dict_get kv "id") (dict_get kv "method");
    destruct (dict_get kv "method") as [| | |m| |]; try discriminate;
    cbn [is_none andb negb]; rewrite andb_false_r;
    cbn [eq_str] in *; apply String.eqb_eq in Hm; subst m;
    cbn [String.eqb Ascii.eqb Bool.eqb orb];
    rewrite Hparams; cbn [py_get_default bind lift];
    unfold bind, write_resp, lsp_send, add_stdin, add_resp;
    cbn [pending_requests request_counter resp lsp_running lsp_stdin];
    rewrite Hrun; reflexivity.
Qed.

(** X18.  The notifications of the server.  [$/logTrace] and [$/progress]
    are dropped whatever they hold, and [window/logMessage] is only logged:
    the bridge is as it was, and no reply is sent even to a message that has
    an id.  [window/showMessage] becomes one event, and so does a change of
    status under any of its three names; a field that is absent gets its
    default. *)
Theorem server_notifications :
  (forall (kv : list (string * json)) (st : bridge),
      eq_str (dict_get kv "method") "$/logTrace"
      || eq_str (dict_get kv "method") "$/progress" = true ->
      handle_lsp_message (JDict kv) st = (Return tt, st)) /\
  (forall (kv p : list (string * json)) (st : bridge),
      dict_get_default kv "params" (JDict []) = JDict p ->
      eq_str (dict_get kv "method") "window/logMessage" = true ->
      handle_lsp_message (JDict kv) st = (Return tt, st)) /\
  (forall (kv p : list (string * json)) (st : bridge),
      dict_get_default kv "params" (JDict []) = JDict p ->
      eq_str (dict_get kv "method") "window/showMessage" = true ->
      handle_lsp_message (JDict kv) st
      = (Return tt,
         add_resp
           (JDict [("type", JStr "showMessage");
                   ("message", dict_get_default p "message" (JStr ""));
                   ("msgType", dict_get_default p "type" (JInt 3))]%string)
           st)) /\
  (forall (kv p : list (string * json)) (st : bridge),
      dict_get_default kv "params" (JDict []) = JDict p ->
      eq_str (dict_get kv "method") "copilot/didChangeStatus"
      || eq_str (dict_get kv "method") "didChangeStatus"
      || eq_str (dict_get kv "method") "statusNotification" = true ->
      handle_lsp_message (JDict kv) st
      = (Return tt,
         add_resp
           (JDict [("type", JStr "statusChanged");
                   ("message", dict_get_default p "message" (JStr ""));
                   ("kind", dict_get_default p "kind" (JStr "Normal"))]%string)
           st)).
Proof.
  repeat split; intros kv; intros;
    unfold handle_lsp_message; cbn [py_get py_get_default lift bind];
    fold (dict_get kv "id") (dict_get kv "method");
    destruct (dict_get kv "method") as [| | |m| |]; try discriminate;
    cbn [is_none andb negb]; rewrite andb_false_r; cbn [eq_str] in *;
    repeat match goal with
           | H : _ || _ = true |- _ => apply orb_prop in H as [H|H]
           | H : String.eqb _ _ = true |- _ => apply String.eqb_eq in H; subst
           end;
    cbn [String.eqb Ascii.eqb Bool.eqb orb];
    repeat match goal with
           | H : dict_get_default _ _ _ = JDict _ |- _ => rewrite H; clear H
           end;
    reflexivity.
Qed.


(* ===================================================================== *)
(** ** Translation of the responses                                       *)
(* ===================================================================== *)

(** X19.  The translation of a result writes one event, whose type is that
    of the method and whose id is the id the plugin gave, whenever the
    result has the shape the translation reads; only for [initialize] is
    something sent to the server, the notification [initialized].  On any
    other result it raises before anything is written. *)
Theorem response_translation (method : string) (plugin_req_id result : json)
    (st : bridge) :
  let run := dispatch_lsp_response method plugin_req_id result st in
  (fst run = Return tt <-> response_shape_ok method result = true) /\
  (fst run = Return tt ->
   exists fields,
     snd run
     = mkBridge (pending_requests st) (request_counter st)
         (resp st
          ++ [JDict (("type"%string, JStr (response_event_type method))
                     :: ("id"%string, plugin_req_id) :: fields)])
         (lsp_running st)
         (if String.eqb method "initialize" && lsp_running st
          then lsp_stdin st
               ++ lsp_frame
                    (json_dumps
                       (rpc [("method", JStr "initialized");
                             ("params", JDict [])]%string))
          else lsp_stdin st)) /\
  (fst run <> Return tt ->
   run = (Raise AttributeError, st) \/ run = (Raise TypeError, st)).
Proof.
  cbv zeta.
  destruct (dispatch_lsp_response_cases method plugin_req_id result st _
              eq_refl) as [[Hok [fields Hr]] | [Hok Hraise]].
  - rewrite Hr, Hok. cbn [fst snd]. split; [now split|].
    split; [intros _; now exists fields|]. intros H. now contradiction H.
  - rewrite Hok. destruct Hraise as [-> | ->]; cbn [fst snd];
      (split; [split; discriminate|]); (split; [discriminate|]); intros _;
      [now left|now right].
Qed.


(* ===================================================================== *)
(** ** A command log that grows by whole lines                            *)
(* ===================================================================== *)

(** *** More on [split] *)

Lemma find_nil_pattern (d : byte) (p : bytes) : find [] (d :: p) = None.
Proof. reflexivity. Qed.

(** Fuel beyond the length of the text changes nothing. *)
Lemma split_fuel_any (d : byte) (p : bytes) (fuel1 : nat) :
  forall (fuel2 : nat) (s : bytes),
    (length s <= fuel1)%nat -> (length s <= fuel2)%nat ->
    split_fuel fuel1 s (d :: p) = split_fuel fuel2 s (d :: p).
Proof.
  induction fuel1 as [|fuel1 IH]; intros fuel2 s H1 H2.
  - destruct s; [|cbn in H1; lia]. now destruct fuel2.
  - destruct fuel2 as [|fuel2].
    + destruct s; [reflexivity|cbn in H2; lia].
    + cbn [split_fuel].
      destruct (find s (d :: p)) as [i|] eqn:F; [|reflexivity].
      f_equal. pose proof (find_Some_bound _ _ _ F) as Hb.
      cbn [length] in Hb.
      apply IH; rewrite length_drop; cbn [length]; lia.
Qed.

Lemma split_fuel_enough (d : byte) (p : bytes) (fuel : nat) (s : bytes) :
  (length s <= fuel)%nat -> split_fuel fuel s (d :: p) = split s (d :: p).
Proof. intros H. unfold split. now apply split_fuel_any. Qed.

(** The first piece of a text is what comes before the first separator. *)
Lemma split_cons (l rest : bytes) (d : byte) (p : bytes) :
  Forall (fun c => c <> d) l ->
  split (l ++ (d :: p) ++ rest) (d :: p) = l :: split rest (d :: p).
Proof.
  intros Hl. unfold split at 1.
  destruct (length (l ++ (d :: p) ++ rest)) as [|fuel] eqn:Hlen.
  - rewrite !length_app in Hlen. cbn in Hlen. lia.
  - cbn [split_fuel]. rewrite (find_skip l d p rest Hl).
    rewrite take_app_length. f_equal.
    replace (length l + length (d :: p))%nat with (length (l ++ d :: p))
      by now rewrite length_app.
    rewrite app_assoc. rewrite drop_app_length.
    apply split_fuel_enough.
    rewrite !length_app in Hlen. cbn [length] in Hlen. lia.
Qed.


(** *** Lines and polls *)

Lemma clean_line_inv (l : bytes) :
  clean_line l = true ->
  Forall (fun c => c <> LF) l /\
  (exists c r, l = c :: r /\ is_str_space c = false) /\
  (exists r d, l = r ++ [d] /\ is_str_space d = false).
Proof.
  unfold clean_line. intros H.
  apply andb_prop in H as [H Hlast]. apply andb_prop in H as [Hall Hhead].
  split; [|split].
  - apply Forall_forall. intros c Hc.
    rewrite forallb_forall in Hall. apply list_elem_of_In in Hc.
    specialize (Hall c Hc). intros ->. discriminate.
  - destruct l as [|c r]; [discriminate|]. exists c, r.
    cbn in Hhead. split; [reflexivity|]. now destruct (is_str_space c).
  - destruct (last l) as [d|] eqn:E; [|discriminate].
    apply last_Some in E as [r ->]. exists r, d.
    split; [reflexivity|]. now destruct (is_str_space d).
Qed.

Lemma log_text_app (a b : list bytes) :
  log_text (a ++ b) = log_text a ++ log_text b.
Proof. unfold log_text. now rewrite map_app, concat_app. Qed.

(** The text of lines that are clean is those lines with a newline between
    them, and one more newline. *)
Lemma log_text_lines (l : bytes) (ls : list bytes) :
  Forall (fun l => clean_line l = true) (l :: ls) ->
  exists x,
    log_text (l :: ls) = x ++ NEWLINE /\
    split x NEWLINE = l :: ls /\
    (exists c r, x = c :: r /\ is_str_space c = false) /\
    (exists r d, x = r ++ [d] /\ is_str_space d = false).
Proof.
  revert l; induction ls as [|l2 ls IH]; intros l H.
  - inversion H as [|? ? Hl _]; subst.
    destruct (clean_line_inv l Hl) as (Hlf & Hc & Hd).
    exists l. split; [|split; [|now split]].
    + unfold log_text. cbn. now rewrite app_nil_r.
    + unfold NEWLINE. now apply split_absent.
  - inversion H as [|? ? Hl Hrest]; subst.
    destruct (clean_line_inv l Hl) as (Hlf & (c & r & -> & Hc) & _).
    destruct (IH l2 Hrest) as (x & Hx & Hsplit & _ & (r2 & d & -> & Hd)).
    exists ((c :: r) ++ NEWLINE ++ r2 ++ [d]).
    split; [|split; [|split]].
    + change (log_text ((c :: r) :: l2 :: ls))
        with (((c :: r) ++ NEWLINE) ++ log_text (l2 :: ls)).
      rewrite Hx. now rewrite <- !app_assoc.
    + unfold NEWLINE in *. rewrite split_cons by assumption.
      now rewrite Hsplit.
    + now exists c, (r ++ NEWLINE ++ r2 ++ [d]).
    + exists ((c :: r) ++ NEWLINE ++ r2), d.
      split; [now rewrite <- !app_assoc|assumption].
Qed.

Lemma command_of_clean (l : bytes) :
  clean_line l = true -> command_of l = json_loads l.
Proof.
  intros H. destruct (clean_line_inv l H) as (_ & (c & r & -> & Hc) & (r2 & d & Hl & Hd)).
  unfold command_of, str_strip.
  pose proof (strip_by_padded is_str_space [] [] r r2 c d
                (Forall_nil_2 _) (Forall_nil_2 _) Hl Hc Hd) as Hs.
  cbn [app] in Hs. rewrite app_nil_r in Hs. now rewrite Hs.
Qed.

Lemma omap_command_of_clean (b : list bytes) :
  Forall (fun l => clean_line l = true) b ->
  omap command_of b = omap json_loads b.
Proof.
  induction 1 as [|l b Hl _ IH]; [reflexivity|].
  change (omap command_of (l :: b))
    with (match command_of l with
          | Some msg => msg :: omap command_of b
          | None => omap command_of b
          end).
  change (omap json_loads (l :: b))
    with (match json_loads l with
          | Some msg => msg :: omap json_loads b
          | None => omap json_loads b
          end).
  now rewrite (command_of_clean l Hl), IH.
Qed.

(** One poll of a log to which a batch of clean lines has been appended:
    the lines of the batch are handed over, and the offset is the length of
    the log. *)
Lemma poll_batch (before b : list bytes) :
  Forall (fun l => clean_line l = true) b ->
  let text := log_text (before ++ b) in
  let obs := FileText text (Some (length text)) in
  poll_commands obs (length (log_text before)) = omap json_loads b /\
  poll_offset obs (length (log_text before)) = length text.
Proof.
  intros Hb. cbv zeta. unfold poll_commands, poll_offset, tell_after_read.
  rewrite log_text_app, drop_app_length.
  replace (Nat.max (length (log_text before))
             (length (log_text before ++ log_text b)))
    with (length (log_text before ++ log_text b))
    by (rewrite length_app; lia).
  destruct b as [|l ls].
  - cbn [log_text map concat]. split; [reflexivity|].
    now rewrite Nat.ltb_irrefl.
  - destruct (log_text_lines l ls Hb)
      as (x & Hx & Hsplit & (c & r & -> & Hc) & (r2 & d & Hl & Hd)).
    rewrite Hx. cbn [app].
    split; [|reflexivity].
    change (c :: r ++ NEWLINE) with ([] ++ (c :: r) ++ NEWLINE).
    unfold str_strip.
    rewrite (strip_by_padded is_str_space [] NEWLINE r r2 c d);
      try assumption; try constructor; try reflexivity; try constructor.
    rewrite Hsplit. now apply omap_command_of_clean.
Qed.

Lemma delivered_batches (batches : list (list bytes)) :
  forall before : list bytes,
    Forall (Forall (fun l => clean_line l = true)) batches ->
    delivered (batch_polls before batches) (length (log_text before))
    = omap json_loads (concat batches).
Proof.
  induction batches as [|b bs IH]; intros before H; [reflexivity|].
  inversion H as [|? ? Hb Hbs]; subst.
  cbn [batch_polls concat]. rewrite delivered_cons.
  destruct (poll_batch before b Hb) as [-> ->].
  rewrite (IH (before ++ b) Hbs).
  symmetry. apply omap_app.
Qed.

(** X20.  Commands that are appended to the log as whole lines are handed
    over once each and in their order, however the appends fall between the
    polls: the lines of each poll are those written since the one before it. *)
Theorem whole_lines_delivered_once (batches : list (list bytes)) :
  Forall (Forall (fun l => clean_line l = true)) batches ->
  delivered (batch_polls [] batches) O = omap json_loads (concat batches).
Proof. intros H. exact (delivered_batches batches [] H). Qed.


(* ===================================================================== *)
(** ** The ends of the reader                                             *)
(* ===================================================================== *)

Lemma read_chunks_app {St : Type} (handle : json -> M St unit)
    (a b : list bytes) (r : reader St) :
  read_chunks handle (a ++ b) r = read_chunks handle b (read_chunks handle a r).
Proof. apply fold_left_app. Qed.

(** X21.  A header block without [Content-Length] at the head of the buffer:
    the block is dropped and the pass is over.  The handler is not called
    and the reader goes back to reading with what followed the block in its
    buffer, complete frames included; they are decoded when the next chunk
    has arrived. *)
Theorem header_without_length_dropped {St : Type} (handle : json -> M St unit)
    (hdr rest : bytes) (s : St) :
  find (hdr ++ CRLFCRLF) CRLFCRLF = Some (length hdr) ->
  header_content_length (split hdr CRLF) = None ->
  read_chunk handle (hdr ++ CRLFCRLF ++ rest) (mkReader [] s Reading)
  = mkReader rest s Reading /\
  forall chunk : bytes,
    chunk <> [] ->
    read_chunks handle [hdr ++ CRLFCRLF ++ rest; chunk] (mkReader [] s Reading)
    = read_chunks handle [rest ++ chunk] (mkReader [] s Reading).
Proof.
  intros Hfind Hnone.
  assert (Hone : read_chunk handle (hdr ++ CRLFCRLF ++ rest)
                   (mkReader [] s Reading)
                 = mkReader rest s Reading).
  { unfold read_chunk. cbn [rd_status rd_buf rd_state app].
    destruct (hdr ++ CRLFCRLF ++ rest) as [|c chunk] eqn:E.
    - apply app_eq_nil in E as [_ E]. discriminate.
    - rewrite <- E. apply frames_loop_no_length.
      now apply frame_step_no_length. }
  split; [exact Hone|]. intros chunk Hne.
  rewrite read_chunks_cons, Hone. unfold read_chunks. cbn [fold_left].
  unfold read_chunk. cbn [rd_status rd_buf rd_state app].
  destruct chunk as [|c chunk]; [contradiction|].
  destruct (rest ++ c :: chunk) eqn:E; [|reflexivity].
  apply app_eq_nil in E as [_ E]. discriminate.
Qed.

(** X22.  The end of the stream.  After the frames of a stream, cut into
    chunks in any way, have been handled, an empty read ends the reader: the
    event [serverStopped] is written, once, after the events of the
    messages, and nothing is read any more. *)
Theorem end_of_stream_stops_reader (frames : list frame)
    (chunks more : list bytes) (st : bridge) :
  Forall well_framed frames ->
  Forall (fun c => c <> []) chunks ->
  concat chunks = stream frames ->
  let r := deliver_frames handle_lsp_message frames [] st in
  rd_status r = Reading ->
  read_lsp_messages (chunks ++ [] :: more) st
  = mkReader []
      (add_resp (JDict [("type", JStr "serverStopped")]%string) (rd_state r))
      Exited.
Proof.
  intros Hwf Hne Heq r Hr.
  destruct (read_chunks_whole handle_lsp_message frames chunks st Hwf Hne Heq)
    as (Hs & Hst & Hb).
  fold r in Hs, Hst, Hb.
  unfold read_lsp_messages. rewrite read_chunks_app, read_chunks_cons.
  set (r1 := read_chunks handle_lsp_message chunks (mkReader [] st Reading))
    in *.
  assert (Hbuf : rd_buf r = []).
  { unfold r. now apply deliver_frames_Reading. }
  assert (Hone : read_chunk handle_lsp_message [] r1
                 = mkReader [] (rd_state r) Exited).
  { unfold read_chunk. rewrite Hst, Hr, (Hb Hr), Hbuf, Hs. reflexivity. }
  rewrite Hone, read_chunks_stopped by discriminate. reflexivity.
Qed.


(* ===================================================================== *)
(** ** The two threads and the runs of the bridge                         *)
(* ===================================================================== *)

Lemma bridge_run_app (a b : list input) (st : bridge) :
  bridge_run (a ++ b) st = bridge_run b (bridge_run a st).
Proof. apply fold_left_app. Qed.

Lemma omap_cons_Some {A B} (f : A -> option B) (x : A) (y : B) (l : list A) :
  f x = Some y -> omap f (x :: l) = y :: omap f l.
Proof. intros H. cbn. now rewrite H. Qed.

Lemma omap_cons_None {A B} (f : A -> option B) (x : A) (l : list A) :
  f x = None -> omap f (x :: l) = omap f l.
Proof. intros H. cbn. now rewrite H. Qed.

(** The loop over the lines of a poll, when no line can stop it, is the run
    of the bridge on the commands of the lines. *)
Lemma dispatch_lines_bridge_run (lines : list bytes) :
  Forall harmless_line lines ->
  forall st : bridge,
    dispatch_lines handle_plugin_message lines st
    = (Return tt,
       bridge_run (map FromPlugin (omap command_of lines)) st).
Proof.
  induction 1 as [|line lines Hline _ IH]; intros st; [reflexivity|].
  cbn [dispatch_lines]. unfold bind at 1.
  destruct (str_strip line) as [|c r] eqn:Hs.
  - rewrite omap_cons_None by (unfold command_of; now rewrite Hs). apply IH.
  - destruct Hline as [Hblank | [Hload | (kv & Hload & Hshape)]];
      [congruence| |].
    + rewrite Hload.
      rewrite omap_cons_None by (unfold command_of; now rewrite Hs).
      apply IH.
    + rewrite Hload.
      rewrite (omap_cons_Some command_of line (JDict kv))
        by (unfold command_of; now rewrite Hs).
      cbn [map]. rewrite bridge_run_cons. cbn [bridge_step].
      apply (command_returns_iff_shape kv st) in Hshape.
      destruct (except_KeyError (handle_plugin_message (JDict kv)) st)
        as [[[]|e] st1]; [apply IH|discriminate].
Qed.

(** One poll of the watcher on a log to which a batch of clean lines has
    been appended. *)
Lemma cmd_poll_batch {St : Type} (handle : json -> M St unit)
    (before b : list bytes) (st : St) :
  Forall (fun l => clean_line l = true) b ->
  let text := log_text (before ++ b) in
  cmd_poll handle (FileText text (Some (length text)))
    (length (log_text before)) st
  = bind (dispatch_lines handle b) (fun _ => ret (length text)) st.
Proof.
  intros Hb. cbv zeta. unfold cmd_poll, tell_after_read.
  rewrite log_text_app, drop_app_length.
  replace (Nat.max (length (log_text before))
             (length (log_text before ++ log_text b)))
    with (length (log_text before ++ log_text b))
    by (rewrite length_app; lia).
  destruct b as [|l ls].
  - cbn [log_text map concat dispatch_lines]. unfold bind, ret.
    now rewrite Nat.ltb_irrefl.
  - destruct (log_text_lines l ls Hb)
      as (x & Hx & Hsplit & (c & r & -> & Hc) & (r2 & d & Hl & Hd)).
    rewrite Hx. cbn [app].
    change (c :: r ++ NEWLINE) with ([] ++ (c :: r) ++ NEWLINE).
    unfold str_strip at 1.
    rewrite (strip_by_padded is_str_space [] NEWLINE r r2 c d);
      try assumption; try apply Forall_nil_2;
      [|apply Forall_cons_2; [reflexivity|apply Forall_nil_2]].
    now rewrite Hsplit.
Qed.

Lemma cmd_polls_batches (batches : list (list bytes)) :
  forall (before : list bytes) (st : bridge),
    Forall (Forall (fun l => clean_line l = true)) batches ->
    Forall (Forall harmless_line) batches ->
    cmd_polls handle_plugin_message (batch_polls before batches)
      (length (log_text before)) st
    = (Return (length (log_text (before ++ concat batches))),
       bridge_run (map FromPlugin (omap json_loads (concat batches))) st).
Proof.
  induction batches as [|b bs IH]; intros before st Hc Hh.
  - cbn. now rewrite app_nil_r.
  - inversion Hc as [|? ? Hcb Hcbs]; subst.
    inversion Hh as [|? ? Hhb Hhbs]; subst.
    cbn [batch_polls cmd_polls concat]. unfold bind at 1.
    rewrite (cmd_poll_batch handle_plugin_message before b st Hcb).
    unfold bind at 1. rewrite (dispatch_lines_bridge_run b Hhb st).
    unfold ret. rewrite (IH (before ++ b) _ Hcbs Hhbs).
    rewrite <- app_assoc, omap_app, map_app, bridge_run_app.
    now rewrite (omap_command_of_clean b Hcb).
Qed.

(** X23.  The watcher thread on a log that grows by whole lines, none of
    which can stop it: it never raises, its offset ends at the length of the
    log, and it leaves the bridge in the state of the run on the commands of
    the lines, in the order of the file. *)
Theorem watcher_runs_the_commands (batches : list (list bytes))
    (st : bridge) :
  Forall (Forall (fun l => clean_line l = true)) batches ->
  Forall (Forall harmless_line) batches ->
  cmd_file_watcher (batch_polls [] batches) st
  = (Return (length (log_text (concat batches))),
     bridge_run (map FromPlugin (omap json_loads (concat batches))) st).
Proof.
  intros Hc Hh. exact (cmd_polls_batches batches [] st Hc Hh).
Qed.


(** The frames handed to the handler one after the other, when none makes
    it raise, are the run of the bridge on their messages. *)
Lemma deliver_frames_bridge_run (frames : list frame) (rest : bytes) :
  forall st : bridge,
    rd_status (deliver_frames handle_lsp_message frames rest st) = Reading ->
    rd_state (deliver_frames handle_lsp_message frames rest st)
    = bridge_run (map FromServer (omap json_loads (map snd frames))) st.
Proof.
  induction frames as [|f frames IH]; intros st H; [reflexivity|].
  cbn [deliver_frames map] in *.
  destruct (json_loads (snd f)) as [msg|] eqn:Hload.
  - rewrite (omap_cons_Some json_loads (snd f) msg) by assumption.
    cbn [map]. rewrite bridge_run_cons. cbn [bridge_step].
    destruct (handle_lsp_message msg st) as [[[]|e] st1]; cbn [snd].
    + now apply IH.
    + cbn in H. now apply after_raise_not_Reading in H.
  - rewrite omap_cons_None by assumption. now apply IH.
Qed.

(** X24.  The reader thread on a stream of well framed messages, cut into
    chunks in any way: as long as no message makes the handler raise, it
    leaves the bridge in the state of the run on the messages that parse, in
    the order of the stream, and goes on reading with an empty buffer. *)
Theorem reader_runs_the_messages (frames : list frame) (chunks : list bytes)
    (st : bridge) :
  Forall well_framed frames ->
  Forall (fun c => c <> []) chunks ->
  concat chunks = stream frames ->
  rd_status (deliver_frames handle_lsp_message frames [] st) = Reading ->
  read_lsp_messages chunks st
  = mkReader []
      (bridge_run (map FromServer (omap json_loads (map snd frames))) st)
      Reading.
Proof.
  intros Hwf Hne Heq Hr.
  destruct (read_chunks_whole handle_lsp_message frames chunks st Hwf Hne Heq)
    as (Hs & Hst & Hb).
  unfold read_lsp_messages.
  set (r1 := read_chunks handle_lsp_message chunks (mkReader [] st Reading))
    in *.
  rewrite Hr in Hst. specialize (Hb Hr).
  rewrite (deliver_frames_Reading handle_lsp_message frames [] st Hr) in Hb.
  rewrite (deliver_frames_bridge_run frames [] st Hr) in Hs.
  rewrite Hst. destruct r1 as [b1 s1 t1]. cbn in *. congruence.
Qed.

(** X25.  Request ids are fresh.  Whatever the bridge has handled since a
    state whose registry is bounded by its counter, the id that the next
    request is given is greater than every id handed out before and is
    registered for no request in flight. *)
Theorem request_ids_are_fresh (inputs : list input)
    (kv : list (string * json)) (method : string) (st : bridge) :
  bounded st ->
  request_method (dict_get kv "type") = Some method ->
  let st1 := bridge_run inputs st in
  let st2 := snd (handle_plugin_message (JDict kv) st1) in
  fst (handle_plugin_message (JDict kv) st1) = Return tt ->
  request_counter st2 = request_counter st1 + 1 /\
  request_counter st < request_counter st2 /\
  pending_requests st !! request_counter st2 = None /\
  pending_requests st1 !! request_counter st2 = None.
Proof.
  intros Hb Hm st1 st2 Hret.
  destruct (request_command_state kv method st1 Hm Hret) as [params Hst].
  assert (Hc : request_counter st2 = request_counter st1 + 1).
  { unfold st2. rewrite Hst, lsp_request_state. reflexivity. }
  destruct (registry_step_bridge_run inputs st) as [Hmono _].
  fold st1 in Hmono.
  pose proof (bounded_bridge_run inputs st Hb) as Hb1. fold st1 in Hb1.
  rewrite Hc. repeat split; try lia.
  - destruct (pending_requests st !! (request_counter st1 + 1)) as [e|] eqn:E;
      [|reflexivity].
    specialize (Hb _ _ E). lia.
  - now apply bounded_next_free.
Qed.

End Bridge.

(* ===================================================================== *)
(** ** The reference codec reads what it prints                           *)
(* ===================================================================== *)

Module RefCodecFacts.
Import RefCodec.

(** *** Strings *)

Lemma loads_string_escape (c : byte) (tail : bytes) :
  loads_string (escape_byte c ++ tail)
  = '(t, r) ← loads_string tail; Some (String (ascii_of_byte c) t, r).
Proof. destruct c; reflexivity. Qed.

Lemma loads_string_dumps (s : string) (rest : bytes) :
  loads_string (concat (map escape_byte (list_byte_of_string s))
                ++ QUOTE :: rest)
  = Some (s, rest).
Proof.
  induction s as [|a s IH]; [reflexivity|].
  change (list_byte_of_string (String a s))
    with (byte_of_ascii a :: list_byte_of_string s).
  cbn [map concat]. rewrite <- app_assoc, loads_string_escape, IH.
  cbn. now rewrite ascii_of_byte_of_ascii.
Qed.


(** *** Integers *)

Lemma no_fraction_not_digit (c : byte) (r : bytes) :
  no_fraction (c :: r) = true -> digit_of c = None.
Proof.
  unfold no_fraction. intros H. apply negb_true_iff in H.
  repeat (apply orb_false_elim in H as [? H]).
  apply bool_decide_eq_false in H. destruct (digit_of c); [|reflexivity].
  exfalso. apply H. eauto.
Qed.

Lemma loads_digits_uint (l : Decimal.uint) :
  forall (acc : positive) (rest : bytes),
    no_fraction rest = true ->
    loads_digits (bytes_of_uint l ++ rest) (Z.pos acc)
    = (Z.pos (Pos.of_uint_acc l acc), rest).
Proof.
  induction l; intros acc rest Hrest;
    cbn [bytes_of_uint app loads_digits digit_of Pos.of_uint_acc];
    try match goal with
        | |- loads_digits _ ?z = (Z.pos (Pos.of_uint_acc _ ?a), _) =>
            replace z with (Z.pos a) by lia; now apply IHl
        end.
  destruct rest as [|c r]; [reflexivity|].
  cbn [loads_digits]. now rewrite (no_fraction_not_digit c r Hrest).
Qed.

Lemma to_uint_normal (n : N) :
  N.to_uint n = D0 Nil \/
  (N.to_uint n <> Nil /\ forall u, N.to_uint n <> D0 u).
Proof.
  assert (H : N.to_uint n = unorm (N.to_uint n)).
  { rewrite <- DecimalN.Unsigned.to_of. now rewrite DecimalN.Unsigned.of_to. }
  unfold unorm in H.
  pose proof (nzhead_nonzero (N.to_uint n)) as Hnz.
  destruct (nzhead (N.to_uint n)) eqn:E; [now left|..];
    right; rewrite H; split; try discriminate; intros u' Hu;
    rewrite Hu in Hnz; now apply (Hnz u').
Qed.

Lemma loads_nat_to_uint (n : N) (rest : bytes) :
  no_fraction rest = true ->
  loads_nat (bytes_of_uint (N.to_uint n) ++ rest) = Some (Z.of_N n, rest).
Proof.
  intros Hrest. pose proof (DecimalN.Unsigned.of_to n) as Hof.
  destruct (to_uint_normal n) as [H0|[Hnil Hnz]].
  - rewrite H0 in *. cbn in Hof. subst n. reflexivity.
  - unfold N.of_uint in Hof.
    destruct (N.to_uint n) as [|l|l|l|l|l|l|l|l|l|l] eqn:E;
      [contradiction|now contradiction (Hnz l)|..];
      cbn [bytes_of_uint app loads_nat digit_of];
      rewrite (loads_digits_uint l _ rest Hrest);
      cbn [Pos.of_uint] in Hof; now rewrite <- Hof.
Qed.

Lemma bytes_of_uint_head (u : Decimal.uint) :
  u <> Nil ->
  exists c r, bytes_of_uint u = c :: r /\ is_Some (digit_of c).
Proof. destruct u; [contradiction|..]; intros _; cbn; eauto 10. Qed.

Lemma to_uint_not_Nil (n : N) : N.to_uint n <> Nil.
Proof. destruct (to_uint_normal n) as [->|[H _]]; [discriminate|exact H]. Qed.

Lemma loads_int_dumps (n : Z) (rest : bytes) :
  no_fraction rest = true ->
  loads_int (dumps_int n ++ rest) = Some (JInt n, rest).
Proof.
  intros Hrest. unfold loads_int, dumps_int.
  destruct (Z.ltb_spec n 0) as [Hneg|Hpos].
  - cbn [app]. cbn [Byte.eqb]. 
    change (("-" =? "-")%byte) with true. cbv iota.
    rewrite loads_nat_to_uint by assumption. cbn. rewrite Hrest.
    do 3 f_equal. lia.
  - destruct (bytes_of_uint_head _ (to_uint_not_Nil (Z.to_N n)))
      as (c & r & E & [d Hd]).
    pose proof (loads_nat_to_uint (Z.to_N n) rest Hrest) as H.
    rewrite E in *. cbn [app] in *.
    replace (Byte.eqb c "-") with false
      by (clear - Hd; destruct c; cbn in Hd; try discriminate Hd; reflexivity).
    rewrite H. cbn. rewrite Hrest. do 3 f_equal. lia.
Qed.

(** *** Values *)

Lemma json_ind' (P : json -> Prop) :
  P JNull -> (forall b, P (JBool b)) -> (forall n, P (JInt n)) ->
  (forall s, P (JStr s)) ->
  (forall l, Forall P l -> P (JList l)) ->
  (forall kv, Forall (fun p => P (snd p)) kv -> P (JDict kv)) ->
  forall v, P v.
Proof.
  intros Hnull Hbool Hint Hstr Hlist Hdict.
  fix IH 1. intros [| b | n | s | l | kv].
  - exact Hnull.
  - apply Hbool.
  - apply Hint.
  - apply Hstr.
  - apply Hlist. induction l as [|x l IHl]; constructor; [apply IH|exact IHl].
  - apply Hdict.
    induction kv as [|[k x] kv IHkv]; constructor; [apply IH|exact IHkv].
Qed.

Lemma loads_value_ws (fuel : nat) (s : bytes) :
  loads_value fuel (" "%byte :: s) = loads_value fuel s.
Proof. destruct fuel; reflexivity. Qed.

Lemma loads_items_ws (fuel : nat) (s : bytes) (acc : list json) :
  loads_items fuel (" "%byte :: s) acc = loads_items fuel s acc.
Proof. destruct fuel; [reflexivity|]. cbn [loads_items]. now rewrite loads_value_ws. Qed.

Lemma loads_members_ws (fuel : nat) (s : bytes) (acc : list (string * json)) :
  loads_members fuel (" "%byte :: s) acc = loads_members fuel s acc.
Proof. destruct fuel; reflexivity. Qed.

Lemma dict_set_fresh (acc : list (string * json)) (k : string) (v : json) :
  k ∉ map fst acc -> dict_set acc k v = acc ++ [(k, v)].
Proof.
  induction acc as [|[k' v'] acc IH]; intros Hk; [reflexivity|].
  cbn in *. apply not_elem_of_cons in Hk as [Hne Hk].
  destruct (String.eqb_spec k' k) as [->|_]; [contradiction|].
  now rewrite IH.
Qed.

Lemma list_sum_map_cons {A} (f : A -> nat) (x : A) (l : list A) :
  list_sum (map f (x :: l)) = (f x + list_sum (map f l))%nat.
Proof. reflexivity. Qed.

Lemma loads_items_join (l : list json) :
  Forall reads_back l -> l <> [] ->
  forall (acc : list json) (fuel : nat) (rest : bytes),
    (list_sum (map (fun x => S (need x)) l) <= fuel)%nat ->
    loads_items fuel (join (B ", ") (map dumps l) ++ "]"%byte :: rest) acc
    = Some (JList (acc ++ l), rest).
Proof.
  induction 1 as [|x l Hx Hl IH]; intros Hne acc fuel rest Hfuel;
    [contradiction|].
  rewrite list_sum_map_cons in Hfuel. destruct fuel as [|fuel]; [lia|].
  cbn [loads_items map join].
  destruct l as [|y l].
  - cbn [map]. rewrite (Hx fuel ("]"%byte :: rest)); [|lia|reflexivity].
    reflexivity.
  - change (map dumps (y :: l)) with (dumps y :: map dumps l).
    cbv iota. rewrite <- !app_assoc.
    rewrite (Hx fuel); [|lia|reflexivity].
    cbn [B list_byte_of_string list_ascii_of_string map app mbind option_bind].
    change (skip_ws (byte_of_ascii "," :: byte_of_ascii " " :: ?t))
      with (","%byte :: " "%byte :: t).
    cbv beta iota. rewrite loads_items_ws.
    replace (acc ++ x :: y :: l) with ((acc ++ [x]) ++ y :: l)
      by now rewrite <- app_assoc.
    apply IH; [discriminate|lia].
Qed.

Lemma loads_members_join (kv : list (string * json)) :
  Forall (fun p => reads_back (snd p)) kv -> kv <> [] ->
  forall (acc : list (string * json)) (fuel : nat) (rest : bytes),
    NoDup (map fst acc ++ map fst kv) ->
    (list_sum (map (fun p => S (need (snd p))) kv) <= fuel)%nat ->
    loads_members fuel (join (B ", ") (map member kv) ++ "}"%byte :: rest) acc
    = Some (JDict (acc ++ kv), rest).
Proof.
  induction 1 as [|[k x] kv Hx Hkv IH]; intros Hne acc fuel rest Hdup Hfuel;
    [contradiction|].
  rewrite list_sum_map_cons in Hfuel. destruct fuel as [|fuel]; [lia|].
  cbn [fst snd] in *.
  assert (Hk : k ∉ map fst acc).
  { apply NoDup_app in Hdup as (_ & Hdis & _). intros Hin.
    apply (Hdis k Hin). cbn. left. }
  assert (Hdup' : NoDup (map fst (acc ++ [(k, x)]) ++ map fst kv)).
  { rewrite map_app. cbn. rewrite <- app_assoc. exact Hdup. }
  cbn [loads_members map join].
  destruct kv as [|q kv].
  - cbn [map]. unfold member at 1, dumps_string at 1. cbn [fst snd].
    rewrite <- !app_assoc. cbn [app].
    change (skip_ws (QUOTE :: ?t)) with (QUOTE :: t).
    cbv beta iota. rewrite <- !app_assoc. cbn [app].
    rewrite loads_string_dumps.
    cbn [B list_byte_of_string list_ascii_of_string map app mbind option_bind].
    change (skip_ws (byte_of_ascii ":" :: ?t)) with (":"%byte :: t).
    cbv beta iota. change (byte_of_ascii " ") with " "%byte.
    rewrite loads_value_ws.
    rewrite (Hx fuel ("}"%byte :: rest)); [|lia|reflexivity].
    cbn. now rewrite dict_set_fresh.
  - change (map member (q :: kv)) with (member q :: map member kv).
    cbv iota. unfold member at 1, dumps_string at 1. cbn [fst snd].
    rewrite <- !app_assoc. cbn [app].
    change (skip_ws (QUOTE :: ?t)) with (QUOTE :: t).
    cbv beta iota. rewrite <- !app_assoc. cbn [app].
    rewrite loads_string_dumps.
    cbn [B list_byte_of_string list_ascii_of_string map app mbind option_bind].
    change (skip_ws (byte_of_ascii ":" :: ?t)) with (":"%byte :: t).
    cbv beta iota. change (byte_of_ascii " ") with " "%byte.
    rewrite loads_value_ws.
    rewrite (Hx fuel); [|lia|reflexivity].
    cbn [mbind option_bind].
    change (skip_ws (byte_of_ascii "," :: ?t)) with (","%byte :: t).
    unfold QUOTE. cbv beta iota.
    rewrite loads_members_ws, dict_set_fresh by assumption.
    replace (acc ++ (k, x) :: q :: kv) with ((acc ++ [(k, x)]) ++ q :: kv)
      by now rewrite <- app_assoc.
    apply IH; [discriminate|exact Hdup'|lia].
Qed.

Lemma skip_ws_dumps_int (n : Z) (fuel : nat) (rest : bytes) :
  loads_value (S fuel) (dumps_int n ++ rest) = loads_int (dumps_int n ++ rest).
Proof.
  assert (H : exists c r, dumps_int n = c :: r /\
                          (c = "-"%byte \/ is_Some (digit_of c))).
  { unfold dumps_int. destruct (n <? 0); [eauto|].
    destruct (bytes_of_uint_head _ (to_uint_not_Nil (Z.to_N n)))
      as (c & r & -> & Hd). eauto. }
  destruct H as (c & r & -> & [->|[d Hd]]); [reflexivity|].
  destruct c; cbn in Hd; try discriminate Hd; reflexivity.
Qed.

Lemma dumps_head (v : json) :
  exists c r, dumps v = c :: r /\ starts_value c = true.
Proof.
  destruct v as [| [|] | n | s | l | kv]; cbn [dumps];
    try (cbn; eexists _, _; split; reflexivity).
  unfold dumps_int. destruct (n <? 0); [eauto|].
  destruct (bytes_of_uint_head _ (to_uint_not_Nil (Z.to_N n)))
    as (c & r & -> & Hd).
  exists c, r. split; [reflexivity|].
  destruct c; cbn in *; try reflexivity; destruct Hd; discriminate.
Qed.

Lemma join_head (sep : bytes) (p : bytes) (ps : list bytes) (c : byte)
    (r : bytes) :
  p = c :: r -> exists t, join sep (p :: ps) = c :: t.
Proof. intros ->. cbn. destruct ps; eauto. Qed.

(** [loads_value] reads back what [dumps] prints. *)
Lemma loads_value_dumps (v : json) : wf_json v -> reads_back v.
Proof.
  induction v as [| b | n | s | l IH | kv IH] using json_ind';
    intros Hwf fuel rest Hfuel Hrest;
    (destruct fuel as [|fuel]; [cbn in Hfuel; lia|]).
  - reflexivity.
  - destruct b; reflexivity.
  - change (dumps (JInt n)) with (dumps_int n).
    rewrite skip_ws_dumps_int. now apply loads_int_dumps.
  - cbn [dumps]. unfold dumps_string. cbn [app]. rewrite <- app_assoc.
    cbn [app loads_value].
    change (skip_ws (QUOTE :: ?t)) with (QUOTE :: t). unfold QUOTE at 1.
    cbv beta iota. now rewrite loads_string_dumps.
  - assert (Hrb : Forall reads_back l).
    { unfold wf_json in Hwf. cbn [wf_jsonb] in Hwf.
      clear - IH Hwf. induction IH as [|x l Hx _ IHl]; [constructor|].
      cbn in Hwf. apply andb_prop in Hwf as [Hx' Hl]. constructor; auto. }
    cbn [dumps need] in *. cbn [app loads_value].
    change (skip_ws ("["%byte :: ?t)) with ("["%byte :: t). cbv beta iota.
    destruct l as [|x l]; [reflexivity|].
    rewrite <- app_assoc. cbn [app].
    pose proof (loads_items_join (x :: l) Hrb ltac:(discriminate) [] fuel rest
                  ltac:(lia)) as Hitems.
    destruct (dumps_head x) as (c & r & Hx & Hc).
    change (map dumps (x :: l)) with (dumps x :: map dumps l) in *.
    destruct (join_head (B ", ") (dumps x) (map dumps l) c r Hx) as [t Ht].
    rewrite Ht in *. cbn [app] in *.
    destruct c; cbn in Hc; try discriminate Hc; exact Hitems.
  - unfold wf_json in Hwf. cbn [wf_jsonb] in Hwf.
    apply andb_prop in Hwf as [Hdup Hkv].
    apply bool_decide_eq_true in Hdup.
    assert (Hrb : Forall (fun p => reads_back (snd p)) kv).
    { clear - IH Hkv. induction IH as [|x l Hx _ IHl]; [constructor|].
      cbn in Hkv. apply andb_prop in Hkv as [Hx' Hl]. constructor; auto. }
    cbn [dumps need] in *. cbn [app loads_value].
    change (skip_ws ("{"%byte :: ?t)) with ("{"%byte :: t). cbv beta iota.
    destruct kv as [|p kv]; [reflexivity|].
    rewrite <- app_assoc. cbn [app].
    pose proof (loads_members_join (p :: kv) Hrb ltac:(discriminate) [] fuel
                  rest Hdup ltac:(lia)) as Hmembers.
    change (map (fun p => dumps_string (fst p) ++ B ": " ++ dumps (snd p))
                (p :: kv))
      with (member p :: map member kv).
    change (map member (p :: kv)) with (member p :: map member kv) in Hmembers.
    destruct (join_head (B ", ") (member p) (map member kv) QUOTE
                (concat (map escape_byte (list_byte_of_string (fst p)))
                 ++ [QUOTE] ++ B ": " ++ dumps (snd p)))
      as [t Ht].
    { unfold member, dumps_string. cbn [app]. now rewrite <- app_assoc. }
    rewrite Ht in *. cbn [app] in *. exact Hmembers.
Qed.

Lemma join_length (parts : list bytes) :
  (list_sum (map (fun p => length p + 2) parts)
   <= length (join (B ", ") parts) + 2)%nat.
Proof.
  induction parts as [|p parts IH]; [cbn; lia|].
  rewrite list_sum_map_cons. cbn [join].
  destruct parts as [|q parts]; [cbn; lia|].
  rewrite !length_app. change (length (B ", ")) with 2%nat. lia.
Qed.

Lemma list_sum_le {A} (f g : A -> nat) (l : list A) :
  Forall (fun x => f x <= g x)%nat l ->
  (list_sum (map f l) <= list_sum (map g l))%nat.
Proof.
  induction 1 as [|x l Hx _ IH]; [reflexivity|].
  rewrite !list_sum_map_cons. lia.
Qed.

Lemma need_le_length (v : json) : (need v <= length (dumps v) + 1)%nat.
Proof.
  induction v as [| b | n | s | l IH | kv IH] using json_ind';
    try (cbn [need]; lia).
  - cbn [need dumps length]. rewrite length_app. cbn [length].
    pose proof (join_length (map dumps l)) as Hj.
    rewrite map_map in Hj.
    pose proof (list_sum_le (fun x => S (need x))
                  (fun x => length (dumps x) + 2)%nat l) as Hs.
    cbv beta in Hs. rewrite Forall_forall in IH.
    assert (Hall : Forall (fun x => S (need x) <= length (dumps x) + 2)%nat l)
      by (apply Forall_forall; intros x Hin; specialize (IH x Hin); lia).
    specialize (Hs Hall). lia.
  - cbn [need dumps length]. rewrite length_app. cbn [length].
    pose proof (join_length
                  (map (fun p => dumps_string (fst p) ++ B ": " ++ dumps (snd p))
                       kv)) as Hj.
    rewrite map_map in Hj.
    pose proof (list_sum_le (fun p => S (need (snd p)))
                  (fun p => length (dumps_string (fst p) ++ B ": "
                                    ++ dumps (snd p)) + 2)%nat kv) as Hs.
    cbv beta in Hs. rewrite Forall_forall in IH.
    assert (Hall : Forall (fun p : string * json =>
                             S (need (snd p))
                             <= length (dumps_string (fst p) ++ B ": "
                                        ++ dumps (snd p)) + 2)%nat kv).
    { apply Forall_forall; intros p Hin; specialize (IH p Hin).
      rewrite !length_app. lia. }
    specialize (Hs Hall). lia.
Qed.

(** The reference codec reads what it prints. *)
Theorem loads_dumps (v : json) : wf_json v -> loads (dumps v) = Some v.
Proof.
  intros Hwf. unfold loads.
  pose proof (loads_value_dumps v Hwf (2 * length (dumps v) + 2)%nat []) as H.
  rewrite app_nil_r in H. rewrite H; [reflexivity| |reflexivity].
  pose proof (need_le_length v). lia.
Qed.

End RefCodecFacts.

(** C8.  For every message, the bytes that [lsp_send] writes are
    [Content-Length: <n>\r\n\r\n] followed by the JSON body, [n] being the
    length of the body in bytes; the reader given these bytes hands over
    exactly one message, the message that was sent, with the same [id],
    [method], [params], [result] and [error], and keeps nothing in its
    buffer. *)
Theorem lsp_send_read_roundtrip (message : json) (st : bridge) :
  RefCodec.wf_json message ->
  lsp_running st = true ->
  let body := RefCodec.dumps message in
  let written := content_length_hdr ++ str_of_len (length body)
                 ++ CRLFCRLF ++ body in
  lsp_send RefCodec.dumps message st = (Return tt, add_stdin written st) /\
  py_int (str_of_len (length body)) = Some (Z.of_nat (length body)) /\
  read_chunks RefCodec.loads record_message [written] (mkReader [] [] Reading)
  = mkReader [] [message] Reading /\
  decoded RefCodec.loads [written] = [message] /\
  same_fields message message.
Proof.
  intros Hwf Hrun body written.
  assert (Hsame : same_fields message message) by (repeat constructor).
  destruct (lsp_send_read_any_codec RefCodec.dumps RefCodec.loads
              message message st Hrun (RefCodecFacts.loads_dumps message Hwf)
              Hsame)
    as (Hsend & Hlen & Hread & _).
  subst body written. repeat split; try assumption.
  exact (f_equal rd_state Hread).
Qed.

(* ===================================================================== *)
(** ** The model on sample data                                           *)
(* ===================================================================== *)

Import Examples.

(** *** The Python primitives on small inputs *)

Example find_terminator :
  find (B "a: 1" ++ CRLFCRLF ++ B "{}") CRLFCRLF = Some 4%nat /\
  find (B "a: 1" ++ CRLF) CRLFCRLF = None.
Proof. split; reflexivity. Qed.

Example split_header_lines :
  split (B "Content-Type: x" ++ CRLF ++ B "Content-Length: 2") CRLF
  = [B "Content-Type: x"; B "Content-Length: 2"] /\
  split [] CRLF = [[]] /\
  split (B "a" ++ NEWLINE ++ NEWLINE ++ B "b" ++ NEWLINE) NEWLINE
  = [B "a"; []; B "b"; []].
Proof. repeat split; reflexivity. Qed.

Example int_literals :
  py_int (B " 42 ") = Some 42 /\ py_int (B "+1_000") = Some 1000 /\
  py_int (B "-23") = Some (-23) /\ py_int (B "007") = Some 7 /\
  py_int (B "") = None /\ py_int (B "1__0") = None /\
  py_int (B "12 3") = None /\ py_int (B "0x10") = None.
Proof. repeat split; reflexivity. Qed.

Example slices :
  slice (B "abcdef") 2 4 = B "cd" /\ slice (B "abcdef") 4 2 = [] /\
  slice (B "abcdef") 2 (-1) = B "cde" /\ slice (B "abcdef") 2 100 = B "cdef" /\
  slice_from (B "abcdef") (-2) = B "ef" /\ slice_from (B "abcdef") (-9) = B "abcdef".
Proof. repeat split; reflexivity. Qed.

Example header_values :
  header_content_length [B "content-LENGTH:7"] = Some (Return 7) /\
  header_content_length [B "Content-Type: x"; B "Content-Length: 12 "]
  = Some (Return 12) /\
  header_content_length [B "Content-Type: x"] = None /\
  header_content_length [B "Content-Length: twelve"] = Some (Raise ValueError).
Proof. repeat split; reflexivity. Qed.

(** A frame whose [Content-Length] counts back to the start of the buffer
    is cut off again and again: the inner loop of the source does not end
    on it. *)
Example negative_length_spins :
  frame_step (B "Content-Length: -23" ++ CRLFCRLF)
  = Frame [] (B "Content-Length: -23" ++ CRLFCRLF) /\
  rd_status (read_chunks RefCodec.loads record_message
               [B "Content-Length: -23" ++ CRLFCRLF]
               (mkReader [] [] Reading))
  = Spinning.
Proof. split; vm_compute; reflexivity. Qed.

Example reference_codec :
  RefCodec.loads (B " [1, -2 , {}, null] ")
  = Some (JList [JInt 1; JInt (-2); JDict []; JNull]) /\
  RefCodec.loads (B "[1, 02]") = None /\
  RefCodec.loads (B "{") = None /\
  RefCodec.dumps (JList [JInt 1; JBool true; JNull]) = B "[1, true, null]".
Proof. repeat split; vm_compute; reflexivity. Qed.

Lemma byte_chunks_not_nil : Forall (fun c : bytes => c <> []) byte_chunks.
Proof. unfold byte_chunks. apply Forall_map, Forall_forall. discriminate. Qed.

Lemma concat_byte_chunks : concat byte_chunks = stream two_frames.
Proof.
  unfold byte_chunks. induction (stream two_frames) as [|c s IH];
    [reflexivity|]. cbn. now f_equal.
Qed.

Lemma chunked_decoding_agrees_witness :
  Forall well_framed two_frames /\
  Forall (fun c : bytes => c <> []) byte_chunks /\
  concat byte_chunks = stream two_frames /\
  decoded RefCodec.loads byte_chunks
  = decoded RefCodec.loads [concat byte_chunks] /\
  decoded RefCodec.loads byte_chunks
  = omap RefCodec.loads (map snd two_frames).
Proof.
  assert (Hwf : Forall well_framed two_frames).
  { repeat constructor; vm_compute; reflexivity. }
  refine (conj Hwf (conj byte_chunks_not_nil (conj concat_byte_chunks _))).
  exact (chunked_decoding_agrees RefCodec.loads two_frames byte_chunks
           Hwf byte_chunks_not_nil concat_byte_chunks).
Defined.

Lemma lsp_send_read_roundtrip_witness :
  RefCodec.wf_json completion_request /\
  lsp_running initial_bridge = true /\
  decoded RefCodec.loads
    [content_length_hdr
     ++ str_of_len (length (RefCodec.dumps completion_request))
     ++ CRLFCRLF ++ RefCodec.dumps completion_request]
  = [completion_request].
Proof.
  assert (Hwf : RefCodec.wf_json completion_request) by reflexivity.
  refine (conj Hwf (conj eq_refl _)).
  apply (lsp_send_read_roundtrip completion_request initial_bridge Hwf
           eq_refl).
Defined.

Lemma unknown_method_reply_witness :
  dict_get unknown_request "method" <> JNull /\
  existsb (eq_str (dict_get unknown_request "method")) recognized_methods
  = false /\
  lsp_running initial_bridge = true /\
  handle_lsp_message RefCodec.dumps RefCodec.str (JDict unknown_request)
    initial_bridge
  = (Return tt,
     add_stdin
       (lsp_frame (RefCodec.dumps (method_not_found (JInt 9))))
       initial_bridge) /\
  handle_lsp_message RefCodec.dumps RefCodec.str (JDict unknown_notification)
    initial_bridge
  = (Return tt, initial_bridge).
Proof.
  assert (Hm : dict_get unknown_request "method" <> JNull) by discriminate.
  assert (Hn : dict_get unknown_notification "method" <> JNull)
    by discriminate.
  refine (conj Hm (conj eq_refl (conj eq_refl (conj _ _)))).
  - apply (unknown_method_reply RefCodec.dumps RefCodec.str initial_bridge
             unknown_request Hm eq_refl eq_refl).
  - apply (unknown_method_reply RefCodec.dumps RefCodec.str initial_bridge
             unknown_notification Hn eq_refl eq_refl).
Defined.

Lemma is_response_1 : is_response response_1.
Proof. split; [discriminate|reflexivity]. Qed.

Lemma bounded_waiting (method : string) : bounded (waiting method).
Proof.
  intros k e H. cbn in *. apply lookup_singleton_Some in H as [<- _]. lia.
Qed.

Lemma registry_resolves_once_witness :
  bounded (waiting "signOut") /\
  is_response response_1 /\
  int_key (dict_get response_1 "id") = Return (Some 1) /\
  pending_requests (waiting "signOut") !! 1 = Some (JStr "r1", "signOut"%string) /\
  truthy (dict_get response_1 "error")
  || response_shape_ok "signOut" (dict_get response_1 "result") = true /\
  (exists fields,
     handle_lsp_message RefCodec.dumps RefCodec.str (JDict response_1)
       (waiting "signOut")
     = (Return tt,
        mkBridge (delete 1 (pending_requests (waiting "signOut"))) 1
          [JDict (("type"%string, JStr "signOutResult")
                  :: ("id"%string, JStr "r1") :: fields)]
          true [])) /\
  (forall kv' : list (string * json),
     is_response kv' ->
     int_key (dict_get kv' "id") = Return (Some 1) ->
     let st1 := snd (handle_lsp_message RefCodec.dumps RefCodec.str
                       (JDict response_1) (waiting "signOut")) in
     handle_lsp_message RefCodec.dumps RefCodec.str (JDict kv') st1
     = (Return tt, st1)) /\
  handle_lsp_message RefCodec.dumps RefCodec.str (JDict response_1)
    initial_bridge
  = (Return tt, initial_bridge).
Proof.
  pose proof (bounded_waiting "signOut") as Hb.
  pose proof is_response_1 as Hr.
  destruct (registry_resolves_once RefCodec.dumps RefCodec.str 1)
    as [Hhit Hmiss].
  destruct (Hhit (waiting "signOut") response_1 1 (JStr "r1")
              "signOut"%string Hb Hr eq_refl eq_refl)
    as (_ & _ & Hevent & Hlater).
  refine (conj Hb (conj Hr (conj eq_refl (conj eq_refl (conj eq_refl
            (conj (Hevent eq_refl) (conj _ _))))))).
  - intros kv' Hr' Hk'. exact (Hlater [] kv' Hr' Hk').
  - apply (Hmiss initial_bridge response_1 (Some 1) Hr eq_refl).
    intros k _. apply lookup_empty.
Defined.

Lemma error_response_event_witness :
  bounded (waiting "initialize") /\
  is_response error_response /\
  int_key (dict_get error_response "id") = Return (Some 1) /\
  pending_requests (waiting "initialize") !! 1
  = Some (JStr "r1", "initialize"%string) /\
  truthy (dict_get error_response "error") = true /\
  handle_lsp_message RefCodec.dumps RefCodec.str (JDict error_response)
    (waiting "initialize")
  = (Return tt,
     mkBridge (delete 1 (pending_requests (waiting "initialize"))) 1
       [JDict [("type", JStr "error"); ("id", JStr "r1");
               ("error", dict_get error_response "error")]%string]
       true []).
Proof.
  pose proof (bounded_waiting "initialize") as Hb.
  assert (Hr : is_response error_response)
    by (split; [discriminate|reflexivity]).
  refine (conj Hb (conj Hr (conj eq_refl (conj eq_refl (conj eq_refl _))))).
  apply (error_response_event RefCodec.dumps RefCodec.str 1
           (waiting "initialize") error_response 1 (JStr "r1")
           "initialize"%string Hb Hr eq_refl eq_refl eq_refl).
Defined.

Lemma completion_result_event_witness :
  is_response completion_response /\
  int_key (dict_get completion_response "id") = Return (Some 1) /\
  pending_requests (waiting "textDocument/inlineCompletion") !! 1
  = Some (JStr "r1", "textDocument/inlineCompletion"%string) /\
  truthy (dict_get completion_response "error") = false /\
  spec_items_of (dict_get completion_response "result")
  = Some [JDict item_1; JDict item_2] /\
  handle_lsp_message RefCodec.dumps RefCodec.str (JDict completion_response)
    (waiting "textDocument/inlineCompletion")
  = (Return tt,
     mkBridge (delete 1 (pending_requests
                           (waiting "textDocument/inlineCompletion"))) 1
       [JDict
          [("type", JStr "completionResult"); ("id", JStr "r1");
           ("items",
            JList
              [JDict [("insertText", JStr "print(x)");
                      ("range", JDict [("start", JInt 0); ("end", JInt 4)]);
                      ("command", JNull)];
               JDict [("insertText", JStr "");
                      ("range", JNull);
                      ("command", JDict [("command", JStr "accept")])]])]%string]
       true []).
Proof.
  assert (Hr : is_response completion_response)
    by (split; [discriminate|reflexivity]).
  refine (conj Hr (conj eq_refl (conj eq_refl (conj eq_refl (conj eq_refl _))))).
  apply (completion_result_event RefCodec.dumps RefCodec.str
           (waiting "textDocument/inlineCompletion") completion_response 1
           (JStr "r1") [JDict item_1; JDict item_2] _
           Hr eq_refl eq_refl eq_refl eq_refl eq_refl).
Defined.

Lemma configuration_reply_witness :
  eq_str (dict_get configuration_request "method") "workspace/configuration"
  = true /\
  dict_get_default configuration_request "params" (JDict [])
  = JDict configuration_params /\
  py_len (dict_get_default configuration_params "items" (JList []))
  = Return 2%nat /\
  lsp_running initial_bridge = true /\
  handle_lsp_message RefCodec.dumps RefCodec.str (JDict configuration_request)
    initial_bridge
  = (Return tt,
     mkBridge ∅ 0 [] true
       (lsp_frame
          (RefCodec.dumps
             (JDict [("jsonrpc", JStr "2.0"); ("id", JInt 4);
                     ("result", JList [JNull; JNull])]%string)))).
Proof.
  refine (conj eq_refl (conj eq_refl (conj eq_refl (conj eq_refl _)))).
  apply (configuration_reply RefCodec.dumps RefCodec.str initial_bridge
           configuration_request configuration_params 2
           eq_refl eq_refl eq_refl eq_refl).
Defined.

(** C4, as the specification has it, fails: the [workspace/configuration]
    request of the sample data is answered and no event is written. *)
Lemma configuration_emits_no_event :
  ~ event_and_reply RefCodec.dumps RefCodec.str
      (JDict configuration_request) initial_bridge.
Proof.
  intros [[event H] _]. vm_compute in H. discriminate H.
Qed.

Lemma truncation_resets_offset_witness :
  (length sign_in_line <= length (sign_in_line ++ sign_out_line))%nat /\
  (length sign_in_line < length (sign_in_line ++ sign_out_line))%nat /\
  cmd_poll RefCodec.loads
    (handle_plugin_message RefCodec.dumps RefCodec.str 1)
    (FileText sign_in_line (Some (length sign_in_line)))
    (length (sign_in_line ++ sign_out_line)) initial_bridge
  = (Return O, initial_bridge).
Proof.
  assert (H1 : (length sign_in_line
                <= length (sign_in_line ++ sign_out_line))%nat)
    by (vm_compute; lia).
  assert (H2 : (length sign_in_line
                < length (sign_in_line ++ sign_out_line))%nat)
    by (vm_compute; lia).
  refine (conj H1 (conj H2 _)).
  apply (proj1 (truncation_resets_offset RefCodec.loads) bridge
           (handle_plugin_message RefCodec.dumps RefCodec.str 1)
           sign_in_line _ _ initial_bridge H1 H2).
Defined.

(** C6, as the specification has it, fails: the log held two lines, both
    consumed, and was cut down to the first; that line is delivered a
    second time. *)
Lemma truncation_redelivers_surviving_line :
  ~ stale_not_redelivered RefCodec.loads
      (sign_in_line ++ sign_out_line) sign_in_line.
Proof. unfold stale_not_redelivered. vm_compute. discriminate. Qed.

Example redelivered_commands :
  delivered RefCodec.loads
    [FileText (sign_in_line ++ sign_out_line) None;
     FileText sign_in_line (Some (length sign_in_line));
     FileText sign_in_line (Some (length sign_in_line))] O
  = [JDict [("type", JStr "signIn"); ("id", JStr "a")];
     JDict [("type", JStr "signOut"); ("id", JStr "b")];
     JDict [("type", JStr "signIn"); ("id", JStr "a")]]%string.
Proof. vm_compute. reflexivity. Qed.

(** C3 on the code.  The buffer holds a header block without
    [Content-Length] and, after it, a complete frame.  The pass drops the
    header block and stops: the frame stays in the buffer and no message is
    handed over, although the frame alone decodes; it is decoded when the
    next chunk arrives. *)
Theorem missing_length_ends_pass :
  read_chunks RefCodec.loads record_message
    [stray_header ++ lsp_frame body_1] (mkReader [] [] Reading)
  = mkReader (lsp_frame body_1) [] Reading /\
  decoded RefCodec.loads [lsp_frame body_1] = [JDict response_1] /\
  decoded RefCodec.loads [stray_header ++ lsp_frame body_1; lsp_frame body_2]
  = [JDict response_1; log_message].
Proof. repeat split; vm_compute; reflexivity. Qed.

(** C7 on the code.  The log holds a line that is JSON and not an object,
    then a well formed command.  [AttributeError] leaves the watcher, which
    is at an end: the command after the line is never handled, although the
    same command alone is. *)
Theorem non_object_line_stops_watcher :
  cmd_file_watcher RefCodec.dumps RefCodec.loads RefCodec.str 1
    [FileText (list_line ++ sign_out_line) None;
     FileText (list_line ++ sign_out_line ++ sign_in_line) None]
    initial_bridge
  = (Raise AttributeError, initial_bridge) /\
  (exists offset st,
      cmd_file_watcher RefCodec.dumps RefCodec.loads RefCodec.str 1
        [FileText sign_out_line None] initial_bridge
      = (Return offset, st) /\
      pending_requests st !! 1 = Some (JStr "b", "signOut"%string)).
Proof.
  split; [vm_compute; reflexivity|].
  eexists _, _. split; [vm_compute; reflexivity|]. reflexivity.
Qed.

(** *** Further properties on sample data *)


Lemma negative_length_never_ends_witness :
  find negative_length CRLFCRLF = Some 19%nat /\
  header_content_length (split (take 19 negative_length) CRLF)
  = Some (Return (-23)) /\
  RefCodec.loads [] = None /\
  frame_step negative_length = Frame [] negative_length /\
  forall fuel : nat,
    frames_loop RefCodec.loads record_message fuel negative_length []
    = mkReader negative_length [] Spinning.
Proof.
  assert (H1 : find negative_length CRLFCRLF = Some 19%nat)
    by (vm_compute; reflexivity).
  assert (H2 : header_content_length (split (take 19 negative_length) CRLF)
               = Some (Return (-23)))
    by (vm_compute; reflexivity).
  assert (H3 : Z.of_nat 19 + 4 + -23 = 0
               \/ Z.of_nat 19 + 4 + -23 <= - Z.of_nat (length negative_length))
    by (left; reflexivity).
  assert (H4 : RefCodec.loads [] = None) by reflexivity.
  refine (conj H1 (conj H2 (conj H4 _))).
  exact (negative_length_never_ends RefCodec.loads record_message
           negative_length 19 (-23) [] H1 H2 H3 H4).
Defined.

Lemma malformed_length_stops_reader_witness :
  find length_abc CRLFCRLF = Some 19%nat /\
  header_content_length (split (take 19 length_abc) CRLF)
  = Some (Raise ValueError) /\
  read_lsp_messages RefCodec.dumps RefCodec.loads RefCodec.str
    [length_abc; lsp_frame body_2] initial_bridge
  = mkReader length_abc
      (add_resp (JDict [("type", JStr "serverStopped")]%string) initial_bridge)
      Exited.
Proof.
  assert (H1 : find length_abc CRLFCRLF = Some 19%nat)
    by (vm_compute; reflexivity).
  assert (H2 : header_content_length (split (take 19 length_abc) CRLF)
               = Some (Raise ValueError))
    by (vm_compute; reflexivity).
  refine (conj H1 (conj H2 _)).
  exact (malformed_length_stops_reader RefCodec.dumps RefCodec.loads
           RefCodec.str length_abc 19 [lsp_frame body_2] initial_bridge H1 H2).
Defined.

Lemma non_object_message_kills_reader_witness :
  well_framed list_frame /\
  RefCodec.loads (snd list_frame) = Some (JList [JInt 1]) /\
  read_lsp_messages RefCodec.dumps RefCodec.loads RefCodec.str
    [frame_bytes list_frame ++ lsp_frame body_1; lsp_frame body_2]
    initial_bridge
  = mkReader (lsp_frame body_1) initial_bridge (Died AttributeError).
Proof.
  assert (H1 : well_framed list_frame) by (split; vm_compute; reflexivity).
  assert (H2 : RefCodec.loads (snd list_frame) = Some (JList [JInt 1]))
    by (vm_compute; reflexivity).
  refine (conj H1 (conj H2 _)).
  exact (non_object_message_kills_reader RefCodec.dumps RefCodec.loads
           RefCodec.str list_frame (lsp_frame body_1) (JList [JInt 1])
           [lsp_frame body_2] initial_bridge H1 H2 eq_refl).
Defined.

Lemma pending_until_answered_witness :
  bounded (waiting "signOut") /\
  pending_requests
    (bridge_run RefCodec.dumps RefCodec.str 1
       [FromPlugin (JDict sign_in_no_id); FromServer log_message;
        FromServer (JDict response_2); FromPlugin (JDict sign_out_command)]
       (waiting "signOut")) !! 1
  = Some (JStr "r1", "signOut"%string).
Proof.
  pose proof (bounded_waiting "signOut") as Hb.
  refine (conj Hb _).
  apply (pending_until_answered RefCodec.dumps RefCodec.str 1 _
           (waiting "signOut") 1 (JStr "r1", "signOut"%string) Hb eq_refl).
  repeat constructor; intros (kv & Hi & Hresp & Hkey);
    try discriminate Hi; injection Hi as <-.
  - destruct Hresp as [_ Hm]. discriminate Hm.
  - discriminate Hkey.
Defined.

Lemma command_response_correlated_witness :
  bounded initial_bridge /\
  request_method (dict_get sign_out_command "type") = Some "signOut"%string /\
  is_response response_1 /\
  let st1 := snd (handle_plugin_message RefCodec.dumps RefCodec.str 1
                    (JDict sign_out_command) initial_bridge) in
  pending_requests st1 !! 1 = Some (JStr "b", "signOut"%string) /\
  resp (snd (handle_lsp_message RefCodec.dumps RefCodec.str
               (JDict response_1) st1))
  = [JDict [("type", JStr "signOutResult"); ("id", JStr "b")]%string] /\
  pending_requests (snd (handle_lsp_message RefCodec.dumps RefCodec.str
                           (JDict response_1) st1))
  = ∅.
Proof.
  pose proof bounded_initial as Hb.
  pose proof is_response_1 as Hr.
  assert (Hid : dict_get sign_out_command "id" <> JNull) by discriminate.
  refine (conj Hb (conj eq_refl (conj Hr _))).
  destruct (command_response_correlated RefCodec.dumps RefCodec.str 1
              sign_out_command response_1 "signOut" initial_bridge
              Hb eq_refl eq_refl Hid Hr eq_refl) as (H1 & H2 & H3).
  cbv zeta. refine (conj H1 (conj _ H3)).
  rewrite H2. vm_compute. reflexivity.
Defined.

Lemma command_without_id_unanswered_witness :
  bounded initial_bridge /\
  request_method (dict_get sign_in_no_id "type") = Some "signIn"%string /\
  dict_get sign_in_no_id "id" = JNull /\
  is_response response_1 /\
  let st1 := snd (handle_plugin_message RefCodec.dumps RefCodec.str 1
                    (JDict sign_in_no_id) initial_bridge) in
  pending_requests st1 = ∅ /\
  handle_lsp_message RefCodec.dumps RefCodec.str (JDict response_1) st1
  = (Return tt, st1).
Proof.
  pose proof bounded_initial as Hb.
  pose proof is_response_1 as Hr.
  refine (conj Hb (conj eq_refl (conj eq_refl (conj Hr _)))).
  destruct (command_without_id_unanswered RefCodec.dumps RefCodec.str 1
              sign_in_no_id response_1 "signIn" initial_bridge
              Hb eq_refl eq_refl eq_refl Hr eq_refl) as (_ & H2 & H3).
  exact (conj H2 H3).
Defined.

Lemma unknown_command_ignored_witness :
  existsb (eq_str (dict_get ping_command "type")) command_types = false /\
  handle_plugin_message RefCodec.dumps RefCodec.str 1 (JDict ping_command)
    initial_bridge
  = (Return tt, initial_bridge).
Proof.
  refine (conj eq_refl _).
  exact (unknown_command_ignored RefCodec.dumps RefCodec.str 1 ping_command
           initial_bridge eq_refl).
Defined.

Lemma bad_lines_are_skipped_witness :
  RefCodec.loads open_without_uri_text = Some (JDict open_without_uri) /\
  In "uri"%string (required_fields (dict_get open_without_uri "type")) /\
  assoc open_without_uri "uri" = None /\
  dispatch_lines RefCodec.loads
    (handle_plugin_message RefCodec.dumps RefCodec.str 1)
    [open_without_uri_text; sign_out_text] initial_bridge
  = dispatch_lines RefCodec.loads
      (handle_plugin_message RefCodec.dumps RefCodec.str 1)
      [sign_out_text] initial_bridge.
Proof.
  assert (H1 : RefCodec.loads open_without_uri_text
               = Some (JDict open_without_uri)) by (vm_compute; reflexivity).
  assert (H2 : In "uri"%string
                 (required_fields (dict_get open_without_uri "type")))
    by (left; reflexivity).
  assert (H3 : assoc open_without_uri "uri" = None) by reflexivity.
  refine (conj H1 (conj H2 (conj H3 _))).
  apply (bad_lines_are_skipped RefCodec.dumps RefCodec.loads RefCodec.str 1
           open_without_uri_text [sign_out_text] initial_bridge).
  right. exists open_without_uri, "uri"%string. exact (conj H1 (conj H2 H3)).
Defined.

Lemma harmless_lines_keep_watcher_witness :
  Forall (harmless_line RefCodec.loads)
    [B "  "; B "not json"; open_without_uri_text; sign_out_text] /\
  fst (dispatch_lines RefCodec.loads
         (handle_plugin_message RefCodec.dumps RefCodec.str 1)
         [B "  "; B "not json"; open_without_uri_text; sign_out_text]
         initial_bridge)
  = Return tt.
Proof.
  assert (H : Forall (harmless_line RefCodec.loads)
                [B "  "; B "not json"; open_without_uri_text; sign_out_text]).
  { apply Forall_cons_2; [left; reflexivity|].
    apply Forall_cons_2; [right; left; vm_compute; reflexivity|].
    apply Forall_cons_2.
    { right. right. exists open_without_uri. split; vm_compute; reflexivity. }
    apply Forall_cons_2; [|apply Forall_nil_2].
    right. right. exists sign_out_command. split; vm_compute; reflexivity. }
  refine (conj H _).
  exact (harmless_lines_keep_watcher RefCodec.dumps RefCodec.loads
           RefCodec.str 1 _ initial_bridge H).
Defined.

Lemma server_call_returns_iff_witness :
  ~ is_response show_message_null /\
  params_ok show_message_null = false /\
  handle_lsp_message RefCodec.dumps RefCodec.str (JDict show_message_null)
    initial_bridge
  = (Raise AttributeError, initial_bridge).
Proof.
  assert (H : ~ is_response show_message_null)
    by (intros [_ Hm]; discriminate Hm).
  refine (conj H (conj eq_refl _)).
  destruct (server_call_returns_iff RefCodec.dumps RefCodec.str
              show_message_null initial_bridge H) as [_ Hraise].
  destruct Hraise as [E|E]; [discriminate|exact E|discriminate E].
Defined.

Lemma show_requests_event_and_reply_witness :
  dict_get_default show_document_request "params" (JDict [])
  = JDict show_document_params /\
  lsp_running initial_bridge = true /\
  handle_lsp_message RefCodec.dumps RefCodec.str (JDict show_document_request)
    initial_bridge
  = (Return tt,
     mkBridge ∅ 0
       [JDict [("type", JStr "showDocument");
               ("uri", JStr "file:///a.py")]%string]
       true
       (lsp_frame
          (RefCodec.dumps
             (JDict [("jsonrpc", JStr "2.0"); ("id", JInt 5);
                     ("result", JDict [("success", JBool true)])]%string)))).
Proof.
  refine (conj eq_refl (conj eq_refl _)).
  exact (proj2 (show_requests_event_and_reply RefCodec.dumps RefCodec.str
                  show_document_request show_document_params initial_bridge
                  eq_refl eq_refl) eq_refl).
Defined.

Lemma whole_lines_delivered_once_witness :
  Forall (Forall (fun l => clean_line l = true))
    [[sign_in_text]; []; [sign_out_text; sign_in_text]] /\
  delivered RefCodec.loads
    (batch_polls [] [[sign_in_text]; []; [sign_out_text; sign_in_text]]) O
  = omap RefCodec.loads [sign_in_text; sign_out_text; sign_in_text].
Proof.
  assert (H : Forall (Forall (fun l => clean_line l = true))
                [[sign_in_text]; []; [sign_out_text; sign_in_text]])
    by (repeat constructor).
  refine (conj H _).
  exact (whole_lines_delivered_once RefCodec.loads _ H).
Defined.

Lemma header_without_length_dropped_witness :
  find (B "X-Trace: 1" ++ CRLFCRLF) CRLFCRLF = Some (length (B "X-Trace: 1")) /\
  header_content_length (split (B "X-Trace: 1") CRLF) = None /\
  read_chunk RefCodec.loads record_message
    (B "X-Trace: 1" ++ CRLFCRLF ++ lsp_frame body_1) (mkReader [] [] Reading)
  = mkReader (lsp_frame body_1) [] Reading.
Proof.
  assert (H1 : find (B "X-Trace: 1" ++ CRLFCRLF) CRLFCRLF
               = Some (length (B "X-Trace: 1"))) by reflexivity.
  assert (H2 : header_content_length (split (B "X-Trace: 1") CRLF) = None)
    by reflexivity.
  refine (conj H1 (conj H2 _)).
  exact (proj1 (header_without_length_dropped RefCodec.loads record_message
                  (B "X-Trace: 1") (lsp_frame body_1) [] H1 H2)).
Defined.

Lemma end_of_stream_stops_reader_witness :
  Forall well_framed two_frames /\
  Forall (fun c : bytes => c <> []) byte_chunks /\
  concat byte_chunks = stream two_frames /\
  read_lsp_messages RefCodec.dumps RefCodec.loads RefCodec.str
    (byte_chunks ++ [] :: [lsp_frame body_1]) initial_bridge
  = mkReader []
      (add_resp (JDict [("type", JStr "serverStopped")]%string) initial_bridge)
      Exited.
Proof.
  assert (Hwf : Forall well_framed two_frames).
  { repeat constructor; vm_compute; reflexivity. }
  refine (conj Hwf (conj byte_chunks_not_nil (conj concat_byte_chunks _))).
  exact (end_of_stream_stops_reader RefCodec.dumps RefCodec.loads RefCodec.str
           two_frames byte_chunks [lsp_frame body_1] initial_bridge
           Hwf byte_chunks_not_nil concat_byte_chunks eq_refl).
Defined.

Lemma watcher_runs_the_commands_witness :
  Forall (Forall (fun l => clean_line l = true))
    [[sign_in_text]; []; [open_without_uri_text; sign_out_text]] /\
  Forall (Forall (harmless_line RefCodec.loads))
    [[sign_in_text]; []; [open_without_uri_text; sign_out_text]] /\
  cmd_file_watcher RefCodec.dumps RefCodec.loads RefCodec.str 1
    (batch_polls [] [[sign_in_text]; []; [open_without_uri_text; sign_out_text]])
    initial_bridge
  = (Return (length (log_text
                       [sign_in_text; open_without_uri_text; sign_out_text])),
     bridge_run RefCodec.dumps RefCodec.str 1
       (map FromPlugin
          (omap RefCodec.loads
             [sign_in_text; open_without_uri_text; sign_out_text]))
       initial_bridge).
Proof.
  assert (Hc : Forall (Forall (fun l => clean_line l = true))
                 [[sign_in_text]; []; [open_without_uri_text; sign_out_text]])
    by (repeat constructor).
  assert (Hin : harmless_line RefCodec.loads sign_in_text).
  { right. right. eexists. split; vm_compute; reflexivity. }
  assert (Hopen : harmless_line RefCodec.loads open_without_uri_text).
  { right. right. exists open_without_uri. split; vm_compute; reflexivity. }
  assert (Hout : harmless_line RefCodec.loads sign_out_text).
  { right. right. exists sign_out_command. split; vm_compute; reflexivity. }
  assert (Hh : Forall (Forall (harmless_line RefCodec.loads))
                 [[sign_in_text]; []; [open_without_uri_text; sign_out_text]]).
  { apply Forall_cons_2; [apply Forall_cons_2; [exact Hin|apply Forall_nil_2]|].
    apply Forall_cons_2; [apply Forall_nil_2|].
    apply Forall_cons_2; [|apply Forall_nil_2].
    apply Forall_cons_2; [exact Hopen|].
    apply Forall_cons_2; [exact Hout|apply Forall_nil_2]. }
  refine (conj Hc (conj Hh _)).
  exact (watcher_runs_the_commands RefCodec.dumps RefCodec.loads RefCodec.str 1
           _ initial_bridge Hc Hh).
Defined.

Lemma reader_runs_the_messages_witness :
  Forall well_framed two_frames /\
  Forall (fun c : bytes => c <> []) byte_chunks /\
  concat byte_chunks = stream two_frames /\
  read_lsp_messages RefCodec.dumps RefCodec.loads RefCodec.str
    byte_chunks initial_bridge
  = mkReader []
      (bridge_run RefCodec.dumps RefCodec.str 1
         (map FromServer (omap RefCodec.loads (map snd two_frames)))
         initial_bridge)
      Reading.
Proof.
  assert (Hwf : Forall well_framed two_frames).
  { repeat constructor; vm_compute; reflexivity. }
  refine (conj Hwf (conj byte_chunks_not_nil (conj concat_byte_chunks _))).
  exact (reader_runs_the_messages RefCodec.dumps RefCodec.loads RefCodec.str 1
           two_frames byte_chunks initial_bridge
           Hwf byte_chunks_not_nil concat_byte_chunks eq_refl).
Defined.

Lemma request_ids_are_fresh_witness :
  bounded (waiting "signOut") /\
  request_method (dict_get sign_out_command "type") = Some "signOut"%string /\
  let st1 := bridge_run RefCodec.dumps RefCodec.str 1
               [FromPlugin (JDict sign_in_no_id); FromServer log_message]
               (waiting "signOut") in
  let st2 := snd (handle_plugin_message RefCodec.dumps RefCodec.str 1
                    (JDict sign_out_command) st1) in
  request_counter st2 = request_counter st1 + 1 /\
  request_counter (waiting "signOut") < request_counter st2 /\
  pending_requests (waiting "signOut") !! request_counter st2 = None /\
  pending_requests st1 !! request_counter st2 = None.
Proof.
  pose proof (bounded_waiting "signOut") as Hb.
  refine (conj Hb (conj eq_refl _)).
  exact (request_ids_are_fresh RefCodec.dumps RefCodec.str 1
           [FromPlugin (JDict sign_in_no_id); FromServer log_message]
           sign_out_command "signOut" (waiting "signOut") Hb eq_refl eq_refl).
Defined.
